(** * update-cloudformation-stack: parameter reconciliation and update monitor

    A shallow embedding of the two variants of the command that live in the
    repository:

    - [Single]: the [-stack NAME -key PARAM -value VALUE] program (main.go),
    - [Multi]:  the [-stack=NAME Param1=Value1 ...] program with [parseKvs].

    Go strings are byte strings, so they are [string] (lists of 8-bit
    [ascii]); Go maps are [gmap string string]; nil-able pointer fields of
    the SDK structs are [option]s.  Calls into the AWS SDK, the clock, the
    random source, the ticker and the context are answered by a [world]
    record, and every call and log line is recorded in a trace. *)

From Stdlib Require Import ZArith Ascii String List.
From stdpp Require Import gmap strings list fin_maps sorting.

Open Scope string_scope.
Open Scope list_scope.

(** ** Go's [strings] package, as far as the program uses it *)

Module strings.

(** [asciiSpace] of package strings: tab, LF, VT, FF, CR and space. *)
Definition asciiSpace (c : ascii) : bool :=
  match c with
  | "009" | "010" | "011" | "012" | "013" | " " => true
  | _ => false
  end%char.

(** The UTF-8 encodings of the white space runes above U+007F
    ([unicode.IsSpace]): U+0085 and U+00A0 take two bytes. *)
Definition space2 (a b : ascii) : bool :=
  match a, b with
  | "194", "133" | "194", "160" => true
  | _, _ => false
  end%char.

(** U+1680, U+2000..U+200A, U+2028, U+2029, U+202F, U+205F and U+3000
    take three bytes. *)
Definition space3 (a b c : ascii) : bool :=
  match a, b, c with
  | "225", "154", "128" => true
  | "226", "128", _ =>
      let n := N_of_ascii c in
      ((128 <=? n) && (n <=? 138) || (n =? 168) || (n =? 169) || (n =? 175))%N
  | "226", "129", "159" => true
  | "227", "128", "128" => true
  | _, _, _ => false
  end%char.

(** Drop white space runes from the front of a byte sequence.  [sp2] and
    [sp3] recognise the multi-byte ones in the order the bytes are met. *)
Fixpoint trimRunes (sp2 : ascii -> ascii -> bool)
    (sp3 : ascii -> ascii -> ascii -> bool) (s : string) : string :=
  match s with
  | EmptyString => s
  | String a s1 =>
      if asciiSpace a then trimRunes sp2 sp3 s1
      else match s1 with
           | EmptyString => s
           | String b s2 =>
               if sp2 a b then trimRunes sp2 sp3 s2
               else match s2 with
                    | EmptyString => s
                    | String c s3 =>
                        if sp3 a b c then trimRunes sp2 sp3 s3 else s
                    end
           end
  end.

Fixpoint rev_append (s acc : string) : string :=
  match s with
  | EmptyString => acc
  | String a s' => rev_append s' (String a acc)
  end.

Definition rev (s : string) : string := rev_append s EmptyString.

Definition TrimLeftSpace (s : string) : string := trimRunes space2 space3 s.

Definition TrimRightSpace (s : string) : string :=
  rev (trimRunes (fun b a => space2 a b) (fun c b a => space3 a b c) (rev s)).

(** [strings.TrimSpace]: all leading and trailing white space removed. *)
Definition TrimSpace (s : string) : string := TrimRightSpace (TrimLeftSpace s).

(** [strings.Cut(s, sep)] for a one-byte separator: the text before and
    after the first [sep], or [None] when [sep] does not occur (Go then
    returns [s, "", false]). *)
Fixpoint Cut (s : string) (sep : ascii) : option (string * string) :=
  match s with
  | EmptyString => None
  | String a s' =>
      if Ascii.eqb a sep then Some (EmptyString, s')
      else match Cut s' sep with
           | Some (before, after) => Some (String a before, after)
           | None => None
           end
  end.

(** [strings.Split(s, "\n")] for a one-byte separator. *)
Fixpoint Split (s : string) (sep : ascii) : list string :=
  match s with
  | EmptyString => [EmptyString]
  | String a s' =>
      if Ascii.eqb a sep then EmptyString :: Split s' sep
      else match Split s' sep with
           | [] => [String a EmptyString]
           | hd :: tl => String a hd :: tl
           end
  end.

(** [strings.Join(elems, sep)]. *)
Fixpoint Join (elems : list string) (sep : string) : string :=
  match elems with
  | [] => EmptyString
  | [e] => e
  | e :: rest => e +:+ sep +:+ Join rest sep
  end.

End strings.

(** [slices.Sorted(maps.Keys(m))]: the keys in increasing byte order. *)
Definition sortedKeys (m : gmap string string) : list string :=
  merge_sort String.le (map fst (map_to_list m)).

(** ** The AWS SDK surface the program consumes *)

(** [aws.ToString], [aws.ToBool]: dereference, the zero value for nil. *)
Module aws.
Definition ToString (p : option string) : string := default "" p.
Definition ToBool (p : option bool) : bool := default false p.
End aws.

(** [types.Parameter], the fields the program reads or writes. *)
Module Param.
Record t := mk {
  ParameterKey : option string;
  ParameterValue : option string;
  UsePreviousValue : option bool }.
End Param.

(** [types.Stack] as returned by DescribeStacks. *)
Module Stack.
Record t := mk {
  Parameters : list Param.t;
  Capabilities : list string;
  NotificationARNs : list string }.
End Stack.

Module UpdateStackInput.
Record t := mk {
  StackName : option string;
  ClientRequestToken : option string;
  UsePreviousTemplate : option bool;
  Parameters : list Param.t;
  Capabilities : list string;
  NotificationARNs : list string }.
End UpdateStackInput.

(** [types.StackEvent]; a [time.Time] is a count of nanoseconds. *)
Module StackEvent.
Record t := mk {
  Timestamp : option Z;
  ClientRequestToken : option string;
  ResourceStatus : string;
  ResourceStatusReason : option string;
  ResourceType : option string;
  LogicalResourceId : option string }.
End StackEvent.

(** [types.ResourceStatus] is a string type; the constants the program
    names. *)
Module types.
Definition ResourceStatusUpdateFailed : string := "UPDATE_FAILED".
Definition ResourceStatusUpdateComplete : string := "UPDATE_COMPLETE".
Definition ResourceStatusUpdateRollbackComplete : string :=
  "UPDATE_ROLLBACK_COMPLETE".
Definition ResourceStatusRollbackFailed : string := "ROLLBACK_FAILED".
End types.

(** [time.Hour], in nanoseconds. *)
Definition Hour : Z := 3600 * 1000000000.

(** Error values coming out of the SDK: a value implementing
    [smithy.APIError], a wrapper with [Unwrap] (such as an operation error),
    or any other error.  [text] is what [Error()] prints. *)
Inductive sdk_error :=
  | APIError (code message : string)
  | WrapError (text : string) (inner : sdk_error)
  | OtherError (text : string).

(** [ctx.Err()] of a finished context. *)
Inductive ctx_error := Canceled | DeadlineExceeded.

(** Operands of a format string, kept next to the format instead of being
    rendered ([%q] and [%v] are left to package fmt). *)
Inductive operand :=
  | OStr (s : string)
  | OInt (n : Z).

(** The error values [run] can return. [errAlreadySet] is the package
    level sentinel of main.go, compared by identity. *)
Inductive error :=
  | errAlreadySet
  | errorsNew (text : string)
  | fmtErrorf (format : string) (args : list operand)
  | sdkError (e : sdk_error)
  | ctxError (e : ctx_error).

(** [errors.Is(err, errAlreadySet)]: no SDK error chain holds the
    sentinel, and [fmt.Errorf] is never used with [%w]. *)
Definition errorsIs_errAlreadySet (err : error) : bool :=
  match err with
  | errAlreadySet => true
  | _ => false
  end.

(** [errors.As(err, &ae)] for [ae smithy.APIError]: the first value of
    the chain that implements the interface. *)
Fixpoint asAPIError (e : sdk_error) : option (string * string) :=
  match e with
  | APIError code message => Some (code, message)
  | WrapError _ inner => asAPIError inner
  | OtherError _ => None
  end.

Definition errorsAs_APIError (err : error) : option (string * string) :=
  match err with
  | sdkError e => asAPIError e
  | _ => None
  end.

(** ** Observable behaviour: calls made and lines logged *)

Inductive logarg :=
  | LStr (s : string)
  | LErr (e : error)
  | LMap (m : gmap string string).

Inductive event :=
  | CallLoadDefaultConfig
  | CallDescribeStacks (StackName : string)
  | CallUpdateStack (input : UpdateStackInput.t)
  | CallDescribeStackEvents (StackName : string)
  | LogPrint (args : list logarg)
  | LogPrintf (format : string) (args : list logarg)
  | LogFatal (args : list logarg).

(** The context handed to [run]: [context.Background()] is never done; a
    cancellable one is seen done by the [select] after [after] ticks. *)
Inductive context :=
  | Background
  | Done (after : nat) (err : ctx_error).

(** One page of DescribeStackEvents. *)
Definition page : Type := sdk_error + list StackEvent.t.

(** What the environment answers during one run. [stackEvents] holds, for
    each firing of the ticker that the run lives to see, the pages the
    paginator yields until it has no more. *)
Record world := mkWorld {
  underGithub : bool;
  INPUT_PARAMETERS : string;
  loadDefaultConfig : option sdk_error;
  describeStacks : string -> sdk_error + list Stack.t;
  updateStack : UpdateStackInput.t -> option sdk_error;
  randRead : nat -> ascii;
  timeNow : Z;
  stackEvents : list (list page) }.

(** The same environment with another stream of event pages. *)
Definition withEvents (w : world) (evs : list (list page)) : world :=
  mkWorld (underGithub w) (INPUT_PARAMETERS w) (loadDefaultConfig w)
    (describeStacks w) (updateStack w) (randRead w) (timeNow w) evs.

Definition githubWarnPrefix (w : world) : string :=
  if underGithub w then "::warning::" else "".
Definition githubErrPrefix (w : world) : string :=
  if underGithub w then "::error::" else "".

(** ** A trace monad with early return

    A computation logs events and then either goes on with a value,
    returns from [run] (with nil or an error), or is left waiting in the
    [select] when the recorded ticks are used up. *)

Inductive res (A : Type) :=
  | Cont (a : A)
  | Return (err : option error)
  | Blocked.
Arguments Cont {A} a.
Arguments Return {A} err.
Arguments Blocked {A}.

Definition M (A : Type) : Type := list event * res A.

Definition ret {A} (a : A) : M A := ([], Cont a).
Definition returns {A} (err : option error) : M A := ([], Return err).
Definition emit (e : event) : M unit := ([e], Cont tt).

Definition bind {A B} (m : M A) (k : A -> M B) : M B :=
  match m with
  | (t, Cont a) => let '(t', r) := k a in (t ++ t', r)
  | (t, Return err) => (t, Return err)
  | (t, Blocked) => (t, Blocked)
  end.

Notation "'let*' x ':=' m 'in' k" := (bind m (fun x => k))
  (at level 10, x name, m at level 100, k at level 200).
Notation "'do' m 'then' k" := (bind m (fun _ => k))
  (at level 10, m at level 100, k at level 200).

(** [hex.EncodeToString]. *)
Definition hexDigit (n : N) : ascii :=
  ascii_of_N (if (n <? 10)%N then 48 + n else 87 + n).

Definition hexByte (c : ascii) : string :=
  let n := N_of_ascii c in
  String (hexDigit (n / 16)) (String (hexDigit (n mod 16)) EmptyString).

Definition hexEncodeToString (b : list ascii) : string :=
  foldr (fun c s => hexByte c +:+ s) EmptyString b.

(** [newToken]: twenty random bytes, hex encoded after a fixed prefix. *)
Definition newToken (w : world) : string :=
  "ucs-" +:+ hexEncodeToString (map (randRead w) (seq 0 20)).

Definition debugf (w : world) (format : string) (args : list logarg) : M unit :=
  if underGithub w then emit (LogPrintf ("::debug::" +:+ format) args)
  else ret tt.

(** The format of the per-event debug line, ["%s\t%s\t%v"]. *)
Definition eventFormat : string :=
  "%s" +:+ String "009" ("%s" +:+ String "009" "%v").

(** ** The polling loops

    Both programs wrap the same three loops around their own per-event
    body [scanEvent]: [Cont true] goes on with the next event and
    [Cont false] is [break scanEvents]. *)

Section Loops.
Variable scanEvent : StackEvent.t -> M bool.
Variable stackName : string.

(** [for _, evt := range page.StackEvents]. *)
Fixpoint scanPage (evts : list StackEvent.t) : M bool :=
  match evts with
  | [] => ret true
  | evt :: rest =>
      let* go := scanEvent evt in
      if go then scanPage rest else ret false
  end.

(** The labelled loop [scanEvents] over the paginator. *)
Fixpoint scanEvents (pages : list page) : M unit :=
  match pages with
  | [] => ret tt
  | pg :: rest =>
      do emit (CallDescribeStackEvents stackName) then
      match pg with
      | inl err => returns (Some (sdkError err))
      | inr evts =>
          let* go := scanPage evts in
          if go then scanEvents rest else ret tt
      end
  end.

(** The context as the next [select] will find it. *)
Definition tickCtx (ctx : context) : context :=
  match ctx with
  | Done (S n) err => Done n err
  | _ => ctx
  end.

(** The outer [for] with its [select]. *)
Fixpoint poll (ctx : context) (ticks : list (list page)) : M Empty_set :=
  match ctx with
  | Done O err => returns (Some (ctxError err))
  | _ =>
      match ticks with
      | [] => ([], Blocked)
      | pages :: later =>
          do scanEvents pages then poll (tickCtx ctx) later
      end
  end.
End Loops.

(** How the process ends: [main] returns (status 0), [log.Fatal] exits
    with status 1, or the run is still waiting. *)
Inductive exit :=
  | Exit (code : Z)
  | Running.

(** The test main applies to a returned error before calling it fatal. *)
Definition nothingToUpdate (err : error) : bool :=
  match errorsAs_APIError err with
  | Some (code, message) =>
      (code =? "ValidationError")%string
      && (message =? "No updates are to be performed.")%string
  | None => false
  end.

(** ** The multi-parameter program *)

Module Multi.

(** [parseKvs]: the override mapping, or the first error met (Go
    returns a nil map next to it). *)
Fixpoint parseKvs_from (out : gmap string string) (list : list string)
    : error + gmap string string :=
  match list with
  | [] => inr out
  | line :: rest =>
      let line := strings.TrimSpace line in
      if (line =? "")%string then parseKvs_from out rest
      else
        match strings.Cut line "=" with
        | None =>
            inl (fmtErrorf "wrong parameter format, want key=value pair: %q"
                   [OStr line])
        | Some (k, v) =>
            let k := strings.TrimSpace k in
            let v := strings.TrimSpace v in
            if (k =? "")%string || (v =? "")%string then
              inl (fmtErrorf
                "wrong parameter format, both key and value must be non-empty: %q"
                [OStr line])
            else
              match out !! k with
              | Some _ =>
                  inl (fmtErrorf "duplicate key in parameters list: %q" [OStr k])
              | None => parseKvs_from (<[k:=v]> out) rest
              end
        end
  end.

Definition parseKvs (list : list string) : error + gmap string string :=
  parseKvs_from ∅ list.

(** The loop over [stack.Parameters]: [params] grows by one entry per
    current parameter and consumed overrides leave [toReplace]. *)
Fixpoint collectParams (current : list Param.t)
    (toReplace : gmap string string) (params : list Param.t)
    : list Param.t * gmap string string :=
  match current with
  | [] => (params, toReplace)
  | p :: rest =>
      let k := aws.ToString (Param.ParameterKey p) in
      match toReplace !! k with
      | Some v =>
          collectParams rest (delete k toReplace)
            (params ++ [Param.mk (Some k) (Some v) None])
      | None =>
          collectParams rest toReplace
            (params ++ [Param.mk (Some k) None (Some true)])
      end
  end.

(** The debug listing of the parameters about to be submitted. *)
Fixpoint debugParams (w : world) (params : list Param.t) : M unit :=
  match params with
  | [] => ret tt
  | p :: rest =>
      do (if aws.ToBool (Param.UsePreviousValue p) then
            debugf w "%s (use the previous value)"
              [LStr (aws.ToString (Param.ParameterKey p))]
          else
            debugf w "%s: %s"
              [LStr (aws.ToString (Param.ParameterKey p));
               LStr (aws.ToString (Param.ParameterValue p))])
      then debugParams w rest
  end.

Section Monitor.
Variables (w : world) (stackName token : string) (oldEventsCutoff : Z).

(** The body of the loop over one page's events: [Cont true] goes on
    with the next event, [Cont false] is [break scanEvents]. *)
Definition scanEvent (evt : StackEvent.t) : M bool :=
  if match StackEvent.Timestamp evt with
     | Some ts => (ts <? oldEventsCutoff)%Z
     | None => false
     end
  then ret false
  else if match StackEvent.ClientRequestToken evt with
          | None => true
          | Some t => negb (t =? token)%string
          end
  then ret true
  else if (StackEvent.ResourceStatus evt =? types.ResourceStatusUpdateFailed)%string
          && negb (aws.ToString (StackEvent.ResourceStatusReason evt)
                   =? "Resource update cancelled")%string
  then returns (Some (fmtErrorf "%v: %s"
         [OStr (StackEvent.ResourceStatus evt);
          OStr (aws.ToString (StackEvent.ResourceStatusReason evt))]))
  else
    do debugf w eventFormat
         [LStr (aws.ToString (StackEvent.ResourceType evt));
          LStr (aws.ToString (StackEvent.LogicalResourceId evt));
          LStr (StackEvent.ResourceStatus evt)]
    then
    if (aws.ToString (StackEvent.LogicalResourceId evt) =? stackName)%string
       && (aws.ToString (StackEvent.ResourceType evt)
           =? "AWS::CloudFormation::Stack")%string
    then
      if (StackEvent.ResourceStatus evt
          =? types.ResourceStatusUpdateRollbackComplete)%string
         || (StackEvent.ResourceStatus evt
             =? types.ResourceStatusRollbackFailed)%string
      then returns (Some (fmtErrorf
             "%v, see AWS CloudFormation Console for more details"
             [OStr (StackEvent.ResourceStatus evt)]))
      else if (StackEvent.ResourceStatus evt
               =? types.ResourceStatusUpdateComplete)%string
      then returns None
      else ret true
    else ret true.
End Monitor.

(** The lines to parse: the command line, or under GitHub Actions with
    no arguments the lines of [INPUT_PARAMETERS]. *)
Definition argsOrInput (w : world) (args : list string) : list string :=
  if underGithub w && (length args =? 0)%nat
  then strings.Split (INPUT_PARAMETERS w) "010" else args.

Definition run (w : world) (ctx : context) (stackName : string)
    (args : list string) : M Empty_set :=
  if (stackName =? "")%string then
    returns (Some (errorsNew "stack name must be set"))
  else
  let args := argsOrInput w args in
  match parseKvs args with
  | inl err => returns (Some err)
  | inr toReplace =>
  if (size toReplace =? 0)%nat then
    returns (Some (errorsNew "empty parameters list"))
  else
  do debugf w "loaded parameters: %v" [LMap toReplace] then
  do emit CallLoadDefaultConfig then
  match loadDefaultConfig w with
  | Some err => returns (Some (sdkError err))
  | None =>
  do emit (CallDescribeStacks stackName) then
  match describeStacks w stackName with
  | inl err => returns (Some (sdkError err))
  | inr Stacks =>
  match Stacks with
  | [stack] =>
      let '(params, toReplace) :=
        collectParams (Stack.Parameters stack) toReplace [] in
      if negb (size toReplace =? 0)%nat then
        returns (Some (fmtErrorf "stack has no parameters with these names: %s"
                   [OStr (strings.Join (sortedKeys toReplace) ", ")]))
      else
      do debugf w "parameters to call UpdateStack with:" [] then
      do debugParams w params then
      let token := newToken w in
      let input :=
        UpdateStackInput.mk (Some stackName) (Some token) (Some true)
          params (Stack.Capabilities stack) (Stack.NotificationARNs stack) in
      do emit (CallUpdateStack input) then
      match updateStack w input with
      | Some err => returns (Some (sdkError err))
      | None =>
          do emit (LogPrint
               [LStr "polling for stack updates until it's ready, this may take a while"])
          then
          let oldEventsCutoff := (timeNow w - Hour)%Z in
          poll (scanEvent w stackName token oldEventsCutoff) stackName
            ctx (stackEvents w)
      end
  | _ =>
      returns (Some (fmtErrorf "DescribeStacks returned %d stacks, expected 1"
                 [OInt (Z.of_nat (length Stacks))]))
  end
  end
  end
  end.

(** [main], after flag parsing gave [stackName] and [flag.Args()]. *)
Definition main (w : world) (stackName : string) (args : list string)
    : list event * exit :=
  match run w Background stackName args with
  | (t, Return None) => (t, Exit 0)
  | (t, Return (Some err)) =>
      if nothingToUpdate err then
        (t ++ fst (debugf w "error: %v" [LErr err])
           ++ [LogPrint [LStr (githubWarnPrefix w); LStr "nothing to update"]],
         Exit 0)
      else (t ++ [LogFatal [LStr (githubErrPrefix w); LErr err]], Exit 1)
  | (t, Blocked) => (t, Running)
  | (t, Cont x) => match x with end
  end.

End Multi.

(** ** The single-parameter program (main.go) *)

Module Single.

Record runArgs := mkArgs {
  stack : string;
  key : string;
  value : string }.

Definition validate (a : runArgs) : option error :=
  if (stack a =? "")%string || (key a =? "")%string || (value a =? "")%string
  then Some (errorsNew "stack, key, and value cannot be empty")
  else None.

(** The loop over [stack.Parameters]: it returns [errAlreadySet] from
    inside, skips the entry of the requested key and marks every other
    one use-previous. *)
Fixpoint collectParams (args : runArgs) (current : list Param.t)
    (params : list Param.t) (seenKey : bool)
    : error + (list Param.t * bool) :=
  match current with
  | [] => inr (params, seenKey)
  | p :: rest =>
      let k := aws.ToString (Param.ParameterKey p) in
      if (k =? key args)%string
         && (aws.ToString (Param.ParameterValue p) =? value args)%string
      then inl errAlreadySet
      else if (k =? key args)%string
      then collectParams args rest params true
      else collectParams args rest
             (params ++ [Param.mk (Some k) None (Some true)]) seenKey
  end.

Section Monitor.
Variables (w : world) (args : runArgs) (token : string)
  (oldEventsCutoff : Z).

Definition scanEvent (evt : StackEvent.t) : M bool :=
  if match StackEvent.Timestamp evt with
     | Some ts => (ts <? oldEventsCutoff)%Z
     | None => false
     end
  then ret false
  else if match StackEvent.ClientRequestToken evt with
          | None => true
          | Some t => negb (t =? token)%string
          end
  then ret true
  else if (StackEvent.ResourceStatus evt
           =? types.ResourceStatusUpdateFailed)%string
  then returns (Some (fmtErrorf "%v: %s"
         [OStr (StackEvent.ResourceStatus evt);
          OStr (aws.ToString (StackEvent.ResourceStatusReason evt))]))
  else
    do debugf w eventFormat
         [LStr (aws.ToString (StackEvent.ResourceType evt));
          LStr (aws.ToString (StackEvent.LogicalResourceId evt));
          LStr (StackEvent.ResourceStatus evt)]
    then
    if (aws.ToString (StackEvent.LogicalResourceId evt) =? stack args)%string
       && (aws.ToString (StackEvent.ResourceType evt)
           =? "AWS::CloudFormation::Stack")%string
    then
      if (StackEvent.ResourceStatus evt
          =? types.ResourceStatusUpdateComplete)%string
      then returns None
      else ret true
    else ret true.
End Monitor.

Definition run (w : world) (ctx : context) (args : runArgs) : M Empty_set :=
  match validate args with
  | Some err => returns (Some err)
  | None =>
  do emit CallLoadDefaultConfig then
  match loadDefaultConfig w with
  | Some err => returns (Some (sdkError err))
  | None =>
  do emit (CallDescribeStacks (stack args)) then
  match describeStacks w (stack args) with
  | inl err => returns (Some (sdkError err))
  | inr Stacks =>
  match Stacks with
  | [stk] =>
      match collectParams args (Stack.Parameters stk) [] false with
      | inl err => returns (Some err)
      | inr (params, seenKey) =>
      if negb seenKey then
        returns (Some (errorsNew "stack has no parameter with the given key"))
      else
      let params :=
        params ++ [Param.mk (Some (key args)) (Some (value args)) None] in
      let token := newToken w in
      let input :=
        UpdateStackInput.mk (Some (stack args)) (Some token) (Some true)
          params (Stack.Capabilities stk) (Stack.NotificationARNs stk) in
      do emit (CallUpdateStack input) then
      match updateStack w input with
      | Some err => returns (Some (sdkError err))
      | None =>
          do emit (LogPrint
               [LStr "polling for stack updates until it's ready, this may take a while"])
          then
          let oldEventsCutoff := (timeNow w - Hour)%Z in
          poll (scanEvent w args token oldEventsCutoff) (stack args)
            ctx (stackEvents w)
      end
      end
  | _ =>
      returns (Some (fmtErrorf "DescribeStacks returned %d stacks, expected 1"
                 [OInt (Z.of_nat (length Stacks))]))
  end
  end
  end
  end.

(** [main], after flag parsing filled [args]. *)
Definition main (w : world) (args : runArgs) : list event * exit :=
  match run w Background args with
  | (t, Return None) => (t, Exit 0)
  | (t, Return (Some err)) =>
      if errorsIs_errAlreadySet err then
        (t ++ [LogPrint [LStr (githubWarnPrefix w); LErr err]], Exit 0)
      else if nothingToUpdate err then
        (t ++ [LogPrint [LStr (githubWarnPrefix w); LStr "nothing to update"]],
         Exit 0)
      else (t ++ [LogFatal [LStr (githubErrPrefix w); LErr err]], Exit 1)
  | (t, Blocked) => (t, Running)
  | (t, Cont x) => match x with end
  end.

End Single.

(** ** Vocabulary of the properties *)

(** What [parseKvs] makes of one line before it looks at the map: the
    line is blank, malformed (with the error it causes), or a
    well-formed pair of a trimmed key and a trimmed value. *)
Inductive lineKind :=
  | Blank
  | Malformed (err : error)
  | Pair (k v : string).

Definition parseLine (line : string) : lineKind :=
  let line := strings.TrimSpace line in
  if (line =? "")%string then Blank
  else
    match strings.Cut line "=" with
    | None =>
        Malformed (fmtErrorf "wrong parameter format, want key=value pair: %q"
                     [OStr line])
    | Some (k, v) =>
        let k := strings.TrimSpace k in
        let v := strings.TrimSpace v in
        if (k =? "")%string || (v =? "")%string then
          Malformed (fmtErrorf
            "wrong parameter format, both key and value must be non-empty: %q"
            [OStr line])
        else Pair k v
    end.

Definition wellFormedOrBlank (line : string) : Prop :=
  match parseLine line with
  | Malformed _ => False
  | _ => True
  end.

Definition duplicateKeyError (k : string) : error :=
  fmtErrorf "duplicate key in parameters list: %q" [OStr k].

(** The body passes over an event: the scan goes on behind it. *)
Definition passes (body : StackEvent.t -> M bool) (evt : StackEvent.t) : Prop :=
  snd (body evt) = Cont true.

(** A page that was fetched and scanned to its end. *)
Definition passedPage (body : StackEvent.t -> M bool) (pg : page) : Prop :=
  match pg with
  | inl _ => False
  | inr evts => Forall (passes body) evts
  end.

(** A tick whose scan ends without a return from [run]. *)
Definition idleTick (body : StackEvent.t -> M bool) (stackName : string)
    (pages : list page) : Prop :=
  snd (scanEvents body stackName pages) = Cont tt.

(** The context is not seen done by the first [n] selects. *)
Definition ctxAlive (ctx : context) (n : nat) : Prop :=
  match ctx with
  | Background => True
  | Done after _ => (n < after)%nat
  end.

(** The scan arrives at [evt]: the ticks before its tick were idle, the
    pages before its page and the events before it on its page were
    passed over, and the context was still alive. *)
Definition reached (body : StackEvent.t -> M bool) (stackName : string)
    (ctx : context) (ticks : list (list page)) (evt : StackEvent.t) : Prop :=
  exists quiet ps1 pre post ps2 later,
    ticks = quiet ++ (ps1 ++ inr (pre ++ evt :: post) :: ps2) :: later /\
    ctxAlive ctx (length quiet) /\
    Forall (idleTick body stackName) quiet /\
    Forall (passedPage body) ps1 /\
    Forall (passes body) pre.

(** The staleness test of the scan: a timestamp before the cutoff. *)
Definition tooOld (cutoff : Z) (evt : StackEvent.t) : bool :=
  match StackEvent.Timestamp evt with
  | Some ts => (ts <? cutoff)%Z
  | None => false
  end.

(** The correlation test of the scan: no token, or another one. *)
Definition otherToken (token : string) (evt : StackEvent.t) : bool :=
  match StackEvent.ClientRequestToken evt with
  | None => true
  | Some t => negb (t =? token)%string
  end.

(** An event of another operation that is not older than the cutoff. *)
Definition foreign (token : string) (cutoff : Z) (evt : StackEvent.t) : bool :=
  negb (tooOld cutoff evt) && otherToken token evt.

Definition fresh (cutoff : Z) (evt : StackEvent.t) : Prop :=
  match StackEvent.Timestamp evt with
  | Some ts => (cutoff <= ts)%Z
  | None => True
  end.

Definition stale (cutoff : Z) (evt : StackEvent.t) : Prop :=
  exists ts, StackEvent.Timestamp evt = Some ts /\ (ts < cutoff)%Z.

(** A fresh event that carries this run's token. *)
Definition matched (token : string) (cutoff : Z) (evt : StackEvent.t) : Prop :=
  fresh cutoff evt /\ StackEvent.ClientRequestToken evt = Some token.

(** The event of the stack itself, not of a resource in it. *)
Definition isStackEvent (stackName : string) (evt : StackEvent.t) : Prop :=
  aws.ToString (StackEvent.LogicalResourceId evt) = stackName /\
  aws.ToString (StackEvent.ResourceType evt) = "AWS::CloudFormation::Stack".

Definition resourceFailedError (evt : StackEvent.t) : error :=
  fmtErrorf "%v: %s"
    [OStr (StackEvent.ResourceStatus evt);
     OStr (aws.ToString (StackEvent.ResourceStatusReason evt))].

Definition rollbackError (status : string) : error :=
  fmtErrorf "%v, see AWS CloudFormation Console for more details" [OStr status].

(** Every event of every fetched page of a stream of ticks. *)
Definition pageEvents (pg : page) : list StackEvent.t :=
  match pg with
  | inl _ => []
  | inr evts => evts
  end.

Definition allEvents (ticks : list (list page)) : list StackEvent.t :=
  concat (map (fun pages => concat (map pageEvents pages)) ticks).

(** A stream with the foreign events taken out of every page. *)
Definition stripPage (token : string) (cutoff : Z) (pg : page) : page :=
  match pg with
  | inl err => inl err
  | inr evts => inr (filter (fun evt => foreign token cutoff evt = false) evts)
  end.

Definition strip (token : string) (cutoff : Z) (ticks : list (list page))
    : list (list page) :=
  map (map (stripPage token cutoff)) ticks.

(** The keys of the stack's current parameters, in their order. *)
Definition currentKeys (current : list Param.t) : list string :=
  map (fun p => aws.ToString (Param.ParameterKey p)) current.

(** The two kinds of payload entries. *)
Definition usePrevious (k : string) : Param.t :=
  Param.mk (Some k) None (Some true).

Definition explicitValue (k v : string) : Param.t :=
  Param.mk (Some k) (Some v) None.

(** The inputs of the UpdateStack calls of a trace. *)
Definition submitted (t : list event) : list UpdateStackInput.t :=
  flat_map (fun e => match e with
                     | CallUpdateStack input => [input]
                     | _ => []
                     end) t.

Definition unknownParametersError (names : list string) : error :=
  fmtErrorf "stack has no parameters with these names: %s"
    [OStr (strings.Join names ", ")].

(** ** Sample data: the stack and events of the end-to-end scenarios *)

Definition exStack : Stack.t :=
  Stack.mk [Param.mk (Some "Env") (Some "prod") None;
            Param.mk (Some "ImageTag") (Some "v1") None]
    ["CAPABILITY_IAM"] [].

(** A world ten hours after the epoch whose random source counts up,
    with the given answer to UpdateStack and the given event stream. *)
Definition exWorld (answer : option sdk_error) (evs : list (list page)) : world :=
  mkWorld false "" None (fun _ => inr [exStack]) (fun _ => answer)
    (fun n => ascii_of_nat n) (10 * Hour) evs.

(** The token [newToken] makes of that random source. *)
Definition exToken : string := "ucs-000102030405060708090a0b0c0d0e0f10111213".

Definition exEvent (ts : Z) (token status reason type id : string) : StackEvent.t :=
  StackEvent.mk (Some ts) (Some token) status (Some reason) (Some type) (Some id).

(** The stack "prod" reports the end of this run's update. *)
Definition exComplete : StackEvent.t :=
  exEvent (10 * Hour) exToken "UPDATE_COMPLETE" ""
    "AWS::CloudFormation::Stack" "prod".

(** The stack "prod" reports that this run's update was rolled back. *)
Definition exRolledBack : StackEvent.t :=
  exEvent (10 * Hour) exToken "UPDATE_ROLLBACK_COMPLETE" ""
    "AWS::CloudFormation::Stack" "prod".

(** An old event of another operation on the same stack. *)
Definition exOldForeign : StackEvent.t :=
  exEvent 0 "ucs-ffffffffffffffffffffffffffffffffffffffff" "UPDATE_COMPLETE" ""
    "AWS::CloudFormation::Stack" "prod".

(** A recent event of another operation. *)
Definition exForeign : StackEvent.t :=
  exEvent (10 * Hour) "ucs-ffffffffffffffffffffffffffffffffffffffff"
    "UPDATE_FAILED" "Access denied" "AWS::ECS::Service" "Service".

(** A resource of this run's update cancelled after a sibling failed. *)
Definition exCancelled : StackEvent.t :=
  exEvent (10 * Hour) exToken "UPDATE_FAILED" "Resource update cancelled"
    "AWS::ECS::TaskDefinition" "Task".

(** The sibling that failed. *)
Definition exFailed : StackEvent.t :=
  exEvent (10 * Hour) exToken "UPDATE_FAILED" "Invalid image tag"
    "AWS::ECS::Service" "Service".

(** The keys of the well-formed lines, in the order of the lines. *)
Fixpoint lineKeys (lines : list string) : list string :=
  match lines with
  | [] => []
  | line :: rest =>
      match parseLine line with
      | Pair k _ => k :: lineKeys rest
      | _ => lineKeys rest
      end
  end.

(** A lower-case hexadecimal digit. *)
Definition isHexDigit (c : ascii) : bool :=
  let n := N_of_ascii c in
  ((48 <=? n) && (n <=? 57) || (97 <=? n) && (n <=? 102))%N.

Fixpoint allChars (P : ascii -> bool) (s : string) : bool :=
  match s with
  | EmptyString => true
  | String c s' => P c && allChars P s'
  end.

(** Reading a pair of hexadecimal digits back into a byte. *)
Definition hexValue (c : ascii) : N :=
  let n := N_of_ascii c in
  if (n <? 58)%N then n - 48 else n - 87.

Fixpoint hexDecode (s : string) : list ascii :=
  match s with
  | String hi (String lo rest) =>
      ascii_of_N (16 * hexValue hi + hexValue lo) :: hexDecode rest
  | _ => []
  end.

(** The debug lines of a trace. *)
Definition debugLines (t : list event) : list event :=
  flat_map (fun e => match e with
                     | LogPrintf _ _ => [e]
                     | _ => []
                     end) t.

(** The matched events on which the two programs' scans part ways: a
    resource update that was cancelled, and a rollback of the stack. *)
Definition divergent (token : string) (cutoff : Z) (stackName : string)
    (evt : StackEvent.t) : Prop :=
  matched token cutoff evt /\
  ((StackEvent.ResourceStatus evt = "UPDATE_FAILED" /\
    aws.ToString (StackEvent.ResourceStatusReason evt)
      = "Resource update cancelled") \/
   (isStackEvent stackName evt /\
    (StackEvent.ResourceStatus evt = "UPDATE_ROLLBACK_COMPLETE"
     \/ StackEvent.ResourceStatus evt = "ROLLBACK_FAILED"))).

(** A byte that is plain text: ASCII and not white space. *)
Definition plainChar (c : ascii) : bool :=
  (N_of_ascii c <? 128)%N && negb (strings.asciiSpace c).

(** A key and a value that can be written on a line as they are: not
    empty, plain text, and no equals sign in the key. *)
Definition plainKey (k : string) : Prop :=
  k <> "" /\
  allChars (fun c => plainChar c && negb (Ascii.eqb c "=")) k = true.

Definition plainValue (v : string) : Prop :=
  v <> "" /\ allChars plainChar v = true.

(** The line that sets [k] to [v]. *)
Definition renderLine (kv : string * string) : string :=
  fst kv +:+ String "=" (snd kv).

(** What the scans of a list of ticks log, one tick after the other. *)
Definition ticksTrace (body : StackEvent.t -> M bool) (stackName : string)
    (ticks : list (list page)) : list event :=
  flat_map (fun pages => fst (scanEvents body stackName pages)) ticks.

(** The run gets as far as the polling loop: the arguments parse to the
    non-empty mapping [toReplace], the configuration loads,
    DescribeStacks returns the one stack [stk], which defines every
    overridden key, and UpdateStack accepts the request. *)
Definition MultiSubmits (w : world) (stackName : string) (args : list string)
    (toReplace : gmap string string) (stk : Stack.t) : Prop :=
  stackName <> "" /\
  Multi.parseKvs (Multi.argsOrInput w args) = inr toReplace /\
  toReplace <> ∅ /\
  loadDefaultConfig w = None /\
  describeStacks w stackName = inr [stk] /\
  (forall k, is_Some (toReplace !! k) -> k ∈ currentKeys (Stack.Parameters stk)) /\
  (forall input, updateStack w input = None).

(** The same for the single-parameter program: the arguments are valid,
    the one stack [stk] defines the key with another value than the
    requested one, and UpdateStack accepts the request. *)
Definition SingleSubmits (w : world) (args : Single.runArgs) (stk : Stack.t)
    : Prop :=
  Single.validate args = None /\
  loadDefaultConfig w = None /\
  describeStacks w (Single.stack args) = inr [stk] /\
  Single.key args ∈ currentKeys (Stack.Parameters stk) /\
  (forall p, p ∈ Stack.Parameters stk ->
     aws.ToString (Param.ParameterKey p) = Single.key args ->
     aws.ToString (Param.ParameterValue p) <> Single.value args) /\
  (forall input, updateStack w input = None).

(** ** The KV parser *)

Section ParseKvs.
Import Multi.

Lemma parseKvs_from_cons out line rest :
  parseKvs_from out (line :: rest) =
  match parseLine line with
  | Blank => parseKvs_from out rest
  | Malformed err => inl err
  | Pair k v =>
      match out !! k with
      | Some _ => inl (duplicateKeyError k)
      | None => parseKvs_from (<[k:=v]> out) rest
      end
  end.
Proof.
  unfold parseLine; simpl.
  destruct (strings.TrimSpace line =? "")%string; [reflexivity|].
  destruct (strings.Cut (strings.TrimSpace line) "=") as [[k v]|];
    [|reflexivity].
  destruct ((strings.TrimSpace k =? "")%string
            || (strings.TrimSpace v =? "")%string); reflexivity.
Qed.

(** Blank lines leave the accumulated map as it is. *)
Lemma parseKvs_from_blank out lines :
  Forall (fun l => strings.TrimSpace l = "") lines ->
  parseKvs_from out lines = inr out.
Proof.
  induction 1 as [|l lines Hl _ IH]; [reflexivity|].
  simpl. rewrite Hl. simpl. exact IH.
Qed.

(** A key that is already in the map, or that an earlier well-formed
    line carries, makes the parser fail when it comes (again) on line
    [j]; the failure is the duplicate-key error unless a malformed line
    stopped the parser first. *)
Lemma parseKvs_from_repeat lines : forall out j l2 k v2,
  lines !! j = Some l2 -> parseLine l2 = Pair k v2 ->
  (is_Some (out !! k) \/
   exists i l1 v1, (i < j)%nat /\ lines !! i = Some l1 /\ parseLine l1 = Pair k v1) ->
  (exists err, parseKvs_from out lines = inl err) /\
  (Forall wellFormedOrBlank (take j lines) ->
   exists k', parseKvs_from out lines = inl (duplicateKeyError k')).
Proof.
  induction lines as [|l lines IH]; intros out j l2 k v2 Hj Hl2 Hsrc.
  { rewrite lookup_nil in Hj. discriminate. }
  rewrite parseKvs_from_cons.
  destruct j as [|j]; simpl in Hj.
  - inversion Hj; subst l2. rewrite Hl2.
    destruct Hsrc as [[v Hv]|(i & l1 & v1 & Hi & _)]; [|lia].
    rewrite Hv. split; eauto.
  - assert (Hsrc' : forall k0 v0, parseLine l = Pair k0 v0 ->
              out !! k0 = None ->
              is_Some (<[k0:=v0]> out !! k) \/
              exists i l1 v1, (i < j)%nat /\ lines !! i = Some l1
                              /\ parseLine l1 = Pair k v1).
    { intros k0 v0 Hl Hnone.
      destruct Hsrc as [[v Hv]|(i & l1 & v1 & Hi & Hl1 & Hp1)].
      - left. destruct (decide (k0 = k)) as [->|Hne].
        + rewrite lookup_insert_eq. eauto.
        + rewrite lookup_insert_ne by done. eauto.
      - destruct i as [|i]; simpl in Hl1.
        + inversion Hl1; subst l1. rewrite Hp1 in Hl. inversion Hl; subst.
          left. rewrite lookup_insert_eq. eauto.
        + right. exists i, l1, v1. split; [lia|]. split; assumption. }
    destruct (parseLine l) as [|err|k0 v0] eqn:Hl.
    + destruct (IH out j l2 k v2 Hj Hl2) as [H1 H2].
      { destruct Hsrc as [Hv|(i & l1 & v1 & Hi & Hl1 & Hp1)]; [left; exact Hv|].
        destruct i as [|i]; simpl in Hl1.
        - inversion Hl1; subst l1. rewrite Hp1 in Hl. discriminate.
        - right. exists i, l1, v1. split; [lia|]. split; assumption. }
      split; [exact H1|].
      intros Hwf. apply H2. simpl in Hwf. inversion Hwf; assumption.
    + split; [eauto|].
      intros Hwf. simpl in Hwf. inversion Hwf as [|? ? Hbad _]; subst.
      unfold wellFormedOrBlank in Hbad. rewrite Hl in Hbad. destruct Hbad.
    + destruct (out !! k0) as [v|] eqn:Hk0.
      * split; eauto.
      * destruct (IH (<[k0:=v0]> out) j l2 k v2 Hj Hl2) as [H1 H2].
        { apply (Hsrc' k0 v0); [reflexivity|assumption]. }
        split; [exact H1|].
        intros Hwf. apply H2. simpl in Hwf. inversion Hwf; assumption.
Qed.

(** The cases of [Test_parseKvs]. *)
Example Test_parseKvs_pairs :
  parseKvs [] = inr ∅ /\
  parseKvs [String "010" ""] = inr ∅ /\
  parseKvs ["k=v"] = inr {["k" := "v"]} /\
  parseKvs ["k=v"; "k2=v"] = inr (<["k2" := "v"]> {["k" := "v"]}) /\
  parseKvs ["k=v"; ""; "k2=v"; ""] = inr (<["k2" := "v"]> {["k" := "v"]}).
Proof. repeat split; vm_compute; reflexivity. Qed.

Example Test_parseKvs_errors :
  parseKvs ["k=v"; "k=v"] = inl (duplicateKeyError "k") /\
  parseKvs ["k=v"; "k2=v"; "k=v"] = inl (duplicateKeyError "k") /\
  parseKvs ["k=v"; "junk"] =
    inl (fmtErrorf "wrong parameter format, want key=value pair: %q"
           [OStr "junk"]) /\
  parseKvs ["k= "; "k2=v"] =
    inl (fmtErrorf
           "wrong parameter format, both key and value must be non-empty: %q"
           [OStr "k="]).
Proof. repeat split; vm_compute; reflexivity. Qed.

(** C9, as stated, fails: two well-formed lines carry the key [k], yet
    the malformed line between them is what the parser reports. *)
Lemma parseKvs_malformed_before_duplicate :
  parseLine "k=v" = Pair "k" "v" /\
  parseLine "k=w" = Pair "k" "w" /\
  parseKvs ["k=v"; "junk"; "k=w"] =
    inl (fmtErrorf "wrong parameter format, want key=value pair: %q"
           [OStr "junk"]) /\
  (forall k', parseKvs ["k=v"; "junk"; "k=w"] <> inl (duplicateKeyError k')).
Proof.
  split; [vm_compute; reflexivity|].
  split; [vm_compute; reflexivity|].
  split; [vm_compute; reflexivity|].
  intros k' H. vm_compute in H. discriminate.
Qed.

End ParseKvs.

(** ** The trace monad *)

Lemma bind_ret_l {A B} (a : A) (k : A -> M B) : bind (ret a) k = k a.
Proof. unfold bind, ret. destruct (k a). reflexivity. Qed.

Lemma bind_returns {A B} err (k : A -> M B) : bind (returns err) k = returns err.
Proof. reflexivity. Qed.

Lemma bind_assoc {A B C} (m : M A) (k : A -> M B) (h : B -> M C) :
  bind (bind m k) h = bind m (fun a => bind (k a) h).
Proof.
  destruct m as [t [a| |]]; simpl; try reflexivity.
  destruct (k a) as [t1 [b| |]]; simpl; try reflexivity.
  destruct (h b) as [t2 r]. rewrite app_assoc. reflexivity.
Qed.

Lemma bind_ext {A B} (m : M A) (k h : A -> M B) :
  (forall a, k a = h a) -> bind m k = bind m h.
Proof. intros E. destruct m as [t [a| |]]; simpl; [rewrite E|..]; reflexivity. Qed.

(** The outcome of a sequence, from the outcome of its first part. *)
Lemma snd_bind_Cont {A B} (m : M A) (k : A -> M B) a :
  snd m = Cont a -> snd (bind m k) = snd (k a).
Proof. destruct m as [t r]; simpl; intros ->. destruct (k a); reflexivity. Qed.

Lemma snd_bind_Return {A B} (m : M A) (k : A -> M B) err :
  snd m = Return err -> snd (bind m k) = Return err.
Proof. destruct m as [t r]; simpl; intros ->. reflexivity. Qed.

Lemma snd_bind_inv {A B} (m : M A) (k : A -> M B) err :
  snd (bind m k) = Return err ->
  snd m = Return err \/ exists a, snd m = Cont a /\ snd (k a) = Return err.
Proof.
  destruct m as [t [a| |]]; simpl;
    [|intros H; inversion H; left; reflexivity|discriminate].
  destruct (k a) as [t' r] eqn:E; simpl. intros ->. right. exists a.
  rewrite E. split; reflexivity.
Qed.

Lemma snd_bind_ext {A B} (m : M A) (k h : A -> M B) :
  (forall a, snd (k a) = snd (h a)) -> snd (bind m k) = snd (bind m h).
Proof.
  intros E. destruct m as [t [a| |]]; simpl; try reflexivity.
  specialize (E a). destruct (k a), (h a). exact E.
Qed.

Lemma snd_bind_emit {B} e (k : unit -> M B) : snd (bind (emit e) k) = snd (k tt).
Proof. apply snd_bind_Cont. reflexivity. Qed.

Lemma snd_debugf w format args : snd (debugf w format args) = Cont tt.
Proof. unfold debugf. destruct (underGithub w); reflexivity. Qed.

(** ** The polling loops, for any per-event body *)

Section LoopFacts.
Variable body : StackEvent.t -> M bool.
Variable stackName : string.

Lemma scanPage_app pre post :
  scanPage body (pre ++ post) =
  let* go := scanPage body pre in
  if go then scanPage body post else ret false.
Proof.
  induction pre as [|evt pre IH]; cbn [scanPage app].
  - rewrite bind_ret_l. reflexivity.
  - rewrite bind_assoc. apply bind_ext. intros [|].
    + exact IH.
    + rewrite bind_ret_l. reflexivity.
Qed.

(** Events the body passes over do not decide anything. *)
Lemma scanPage_passes pre :
  Forall (passes body) pre -> snd (scanPage body pre) = Cont true.
Proof.
  induction 1 as [|evt pre Hevt _ IH]; [reflexivity|].
  cbn [scanPage]. rewrite (snd_bind_Cont _ _ true Hevt). exact IH.
Qed.

Lemma scanPage_reaches pre evt post r :
  Forall (passes body) pre -> snd (body evt) = r ->
  snd (scanPage body (pre ++ evt :: post)) =
  match r with
  | Cont true => snd (scanPage body post)
  | Cont false => Cont false
  | Return err => Return err
  | Blocked => Blocked
  end.
Proof.
  intros Hpre Hevt. rewrite scanPage_app.
  rewrite (snd_bind_Cont _ _ true (scanPage_passes pre Hpre)).
  cbn [scanPage]. subst r.
  destruct (body evt) as [t [[|]| |]]; simpl; try reflexivity.
  destruct (scanPage body post); reflexivity.
Qed.

Lemma scanEvents_reaches ps1 pre evt post ps2 err :
  Forall (passedPage body) ps1 -> Forall (passes body) pre ->
  snd (body evt) = Return err ->
  snd (scanEvents body stackName (ps1 ++ inr (pre ++ evt :: post) :: ps2))
  = Return err.
Proof.
  intros Hps1 Hpre Hevt.
  induction Hps1 as [|pg ps1 Hpg _ IH]; cbn [scanEvents app].
  - rewrite snd_bind_emit.
    apply snd_bind_Return.
    rewrite (scanPage_reaches pre evt post _ Hpre Hevt). reflexivity.
  - rewrite snd_bind_emit.
    destruct pg as [e|evts]; [destruct Hpg|].
    rewrite (snd_bind_Cont _ _ true (scanPage_passes evts Hpg)). exact IH.
Qed.

Lemma poll_reaches ctx quiet pages later err :
  ctxAlive ctx (length quiet) ->
  Forall (idleTick body stackName) quiet ->
  snd (scanEvents body stackName pages) = Return err ->
  snd (poll body stackName ctx (quiet ++ pages :: later)) = Return err.
Proof.
  intros Hctx Hquiet Hpages. revert ctx Hctx.
  induction Hquiet as [|tick quiet Htick _ IH]; intros ctx Hctx;
    cbn [poll app].
  - destruct ctx as [|[|n] e]; simpl in Hctx; try lia;
      apply snd_bind_Return; exact Hpages.
  - destruct ctx as [|[|n] e]; simpl in Hctx; try lia;
      rewrite (snd_bind_Cont _ _ tt Htick); apply IH; simpl; try lia; exact I.
Qed.

(** The event the scan reaches first with a returning body decides. *)
Lemma poll_reached ctx ticks evt err :
  reached body stackName ctx ticks evt ->
  snd (body evt) = Return err ->
  snd (poll body stackName ctx ticks) = Return err.
Proof.
  intros (quiet & ps1 & pre & post & ps2 & later & -> & Hctx & Hq & Hps & Hpre) He.
  apply poll_reaches; [assumption..|].
  apply scanEvents_reaches; assumption.
Qed.
End LoopFacts.

(** ** The per-event bodies *)

Lemma tooOld_stale cutoff evt : stale cutoff evt -> tooOld cutoff evt = true.
Proof.
  intros (ts & Hts & Hlt). unfold tooOld. rewrite Hts.
  apply Z.ltb_lt. exact Hlt.
Qed.

Lemma tooOld_fresh cutoff evt : fresh cutoff evt -> tooOld cutoff evt = false.
Proof.
  unfold fresh, tooOld. destruct (StackEvent.Timestamp evt) as [ts|];
    [|reflexivity].
  intros H. apply Z.ltb_ge. exact H.
Qed.

Lemma tooOld_false cutoff evt : tooOld cutoff evt = false -> fresh cutoff evt.
Proof.
  unfold fresh, tooOld. destruct (StackEvent.Timestamp evt) as [ts|];
    [|trivial].
  intros H. apply Z.ltb_ge. exact H.
Qed.

Lemma otherToken_matched token evt :
  StackEvent.ClientRequestToken evt = Some token -> otherToken token evt = false.
Proof. unfold otherToken. intros ->. rewrite String.eqb_refl. reflexivity. Qed.

Lemma otherToken_false token evt :
  otherToken token evt = false -> StackEvent.ClientRequestToken evt = Some token.
Proof.
  unfold otherToken. destruct (StackEvent.ClientRequestToken evt) as [t|];
    [|discriminate].
  destruct (String.eqb_spec t token) as [->|]; [reflexivity|discriminate].
Qed.

Lemma otherToken_true token evt :
  StackEvent.ClientRequestToken evt <> Some token -> otherToken token evt = true.
Proof.
  intros H. destruct (otherToken token evt) eqn:E; [reflexivity|].
  apply otherToken_false in E. contradiction.
Qed.

Section MultiBody.
Variables (w : world) (stackName token : string) (cutoff : Z).

(** The body, with its guards by their names. *)
Lemma Multi_scanEvent_unfold evt :
  Multi.scanEvent w stackName token cutoff evt =
  if tooOld cutoff evt then ret false
  else if otherToken token evt then ret true
  else if (StackEvent.ResourceStatus evt =? "UPDATE_FAILED")%string
          && negb (aws.ToString (StackEvent.ResourceStatusReason evt)
                   =? "Resource update cancelled")%string
  then returns (Some (resourceFailedError evt))
  else
    do debugf w eventFormat
         [LStr (aws.ToString (StackEvent.ResourceType evt));
          LStr (aws.ToString (StackEvent.LogicalResourceId evt));
          LStr (StackEvent.ResourceStatus evt)]
    then
    if (aws.ToString (StackEvent.LogicalResourceId evt) =? stackName)%string
       && (aws.ToString (StackEvent.ResourceType evt)
           =? "AWS::CloudFormation::Stack")%string
    then
      if (StackEvent.ResourceStatus evt =? "UPDATE_ROLLBACK_COMPLETE")%string
         || (StackEvent.ResourceStatus evt =? "ROLLBACK_FAILED")%string
      then returns (Some (rollbackError (StackEvent.ResourceStatus evt)))
      else if (StackEvent.ResourceStatus evt =? "UPDATE_COMPLETE")%string
      then returns None
      else ret true
    else ret true.
Proof. reflexivity. Qed.

Lemma Multi_scanEvent_stale evt : stale cutoff evt -> Multi.scanEvent w stackName token cutoff evt = ret false.
Proof.
  intros H. rewrite Multi_scanEvent_unfold, (tooOld_stale _ _ H). reflexivity.
Qed.

Lemma Multi_scanEvent_foreign evt :
  foreign token cutoff evt = true -> Multi.scanEvent w stackName token cutoff evt = ret true.
Proof.
  unfold foreign. intros [Hold Htok]%andb_prop.
  apply negb_true_iff in Hold.
  rewrite Multi_scanEvent_unfold, Hold, Htok. reflexivity.
Qed.

Lemma Multi_scanEvent_failed evt :
  matched token cutoff evt ->
  StackEvent.ResourceStatus evt = "UPDATE_FAILED" ->
  aws.ToString (StackEvent.ResourceStatusReason evt)
    <> "Resource update cancelled" ->
  Multi.scanEvent w stackName token cutoff evt = returns (Some (resourceFailedError evt)).
Proof.
  intros [Hf Ht] Hst Hre.
  rewrite Multi_scanEvent_unfold, (tooOld_fresh _ _ Hf),
    (otherToken_matched _ _ Ht), Hst.
  apply String.eqb_neq in Hre. rewrite Hre. reflexivity.
Qed.

Lemma Multi_scanEvent_cancelled evt :
  matched token cutoff evt ->
  StackEvent.ResourceStatus evt = "UPDATE_FAILED" ->
  aws.ToString (StackEvent.ResourceStatusReason evt)
    = "Resource update cancelled" ->
  passes (Multi.scanEvent w stackName token cutoff) evt.
Proof.
  intros [Hf Ht] Hst Hre. unfold passes.
  rewrite Multi_scanEvent_unfold, (tooOld_fresh _ _ Hf),
    (otherToken_matched _ _ Ht), Hst, Hre.
  cbn [String.eqb Ascii.eqb Bool.eqb andb negb orb].
  rewrite (snd_bind_Cont _ _ tt (snd_debugf _ _ _)).
  destruct (_ && _); reflexivity.
Qed.

Lemma Multi_scanEvent_complete evt :
  matched token cutoff evt -> isStackEvent stackName evt ->
  StackEvent.ResourceStatus evt = "UPDATE_COMPLETE" ->
  snd (Multi.scanEvent w stackName token cutoff evt) = Return None.
Proof.
  intros [Hf Ht] [Hid Hty] Hst.
  rewrite Multi_scanEvent_unfold, (tooOld_fresh _ _ Hf),
    (otherToken_matched _ _ Ht), Hst, Hid, Hty, String.eqb_refl.
  cbn [String.eqb Ascii.eqb Bool.eqb andb negb orb].
  rewrite (snd_bind_Cont _ _ tt (snd_debugf _ _ _)). reflexivity.
Qed.

Lemma Multi_scanEvent_rollback evt :
  matched token cutoff evt -> isStackEvent stackName evt ->
  StackEvent.ResourceStatus evt = "UPDATE_ROLLBACK_COMPLETE"
  \/ StackEvent.ResourceStatus evt = "ROLLBACK_FAILED" ->
  snd (Multi.scanEvent w stackName token cutoff evt) = Return (Some (rollbackError (StackEvent.ResourceStatus evt))).
Proof.
  intros [Hf Ht] [Hid Hty] Hst.
  rewrite Multi_scanEvent_unfold, (tooOld_fresh _ _ Hf),
    (otherToken_matched _ _ Ht), Hid, Hty, String.eqb_refl.
  destruct Hst as [-> | ->];
    cbn [String.eqb Ascii.eqb Bool.eqb andb negb orb];
    rewrite (snd_bind_Cont _ _ tt (snd_debugf _ _ _)); reflexivity.
Qed.

(** Whatever makes the body return is a matched event, and it is a
    failed resource or the stack itself in a terminal status. *)
Lemma Multi_scanEvent_Return evt err :
  snd (Multi.scanEvent w stackName token cutoff evt) = Return err ->
  matched token cutoff evt /\
  ((StackEvent.ResourceStatus evt = "UPDATE_FAILED" /\
    aws.ToString (StackEvent.ResourceStatusReason evt)
      <> "Resource update cancelled" /\
    err = Some (resourceFailedError evt)) \/
   (isStackEvent stackName evt /\
    (StackEvent.ResourceStatus evt = "UPDATE_ROLLBACK_COMPLETE"
     \/ StackEvent.ResourceStatus evt = "ROLLBACK_FAILED") /\
    err = Some (rollbackError (StackEvent.ResourceStatus evt))) \/
   (isStackEvent stackName evt /\
    StackEvent.ResourceStatus evt = "UPDATE_COMPLETE" /\ err = None)).
Proof.
  intros H. rewrite Multi_scanEvent_unfold in H.
  destruct (tooOld cutoff evt) eqn:Hold; [discriminate|].
  destruct (otherToken token evt) eqn:Htok; [discriminate|].
  split; [split; [apply tooOld_false; exact Hold
                 |apply otherToken_false; exact Htok]|].
  destruct (String.eqb_spec (StackEvent.ResourceStatus evt) "UPDATE_FAILED")
    as [Huf|Hnuf];
    [destruct (String.eqb_spec
                 (aws.ToString (StackEvent.ResourceStatusReason evt))
                 "Resource update cancelled") as [Hc|Hnc]|];
    cbn [andb negb] in H.
  - rewrite (snd_bind_Cont _ _ tt (snd_debugf _ _ _)), Huf in H.
    cbn [String.eqb Ascii.eqb Bool.eqb andb negb orb] in H.
    destruct (_ && _) in H; discriminate.
  - inversion H. left. auto.
  - rewrite (snd_bind_Cont _ _ tt (snd_debugf _ _ _)) in H.
    destruct (String.eqb_spec
                (aws.ToString (StackEvent.LogicalResourceId evt)) stackName)
      as [Hid|]; [|discriminate].
    destruct (String.eqb_spec
                (aws.ToString (StackEvent.ResourceType evt))
                "AWS::CloudFormation::Stack") as [Hty|]; [|discriminate].
    cbn [andb] in H.
    destruct (String.eqb_spec (StackEvent.ResourceStatus evt)
                "UPDATE_ROLLBACK_COMPLETE") as [Hurc|];
      [|destruct (String.eqb_spec (StackEvent.ResourceStatus evt)
                    "ROLLBACK_FAILED") as [Hrf|];
        [|destruct (String.eqb_spec (StackEvent.ResourceStatus evt)
                      "UPDATE_COMPLETE") as [Huc|]]];
      cbn [orb] in H; inversion H.
    + right; left. unfold isStackEvent. auto.
    + right; left. unfold isStackEvent. auto.
    + right; right. unfold isStackEvent. auto.
Qed.
End MultiBody.

Section SingleBody.
Variables (w : world) (args : Single.runArgs) (token : string) (cutoff : Z).

Lemma Single_scanEvent_unfold evt :
  Single.scanEvent w args token cutoff evt =
  if tooOld cutoff evt then ret false
  else if otherToken token evt then ret true
  else if (StackEvent.ResourceStatus evt =? "UPDATE_FAILED")%string
  then returns (Some (resourceFailedError evt))
  else
    do debugf w eventFormat
         [LStr (aws.ToString (StackEvent.ResourceType evt));
          LStr (aws.ToString (StackEvent.LogicalResourceId evt));
          LStr (StackEvent.ResourceStatus evt)]
    then
    if (aws.ToString (StackEvent.LogicalResourceId evt)
        =? Single.stack args)%string
       && (aws.ToString (StackEvent.ResourceType evt)
           =? "AWS::CloudFormation::Stack")%string
    then
      if (StackEvent.ResourceStatus evt =? "UPDATE_COMPLETE")%string
      then returns None
      else ret true
    else ret true.
Proof. reflexivity. Qed.

Lemma Single_scanEvent_stale evt : stale cutoff evt -> Single.scanEvent w args token cutoff evt = ret false.
Proof.
  intros H. rewrite Single_scanEvent_unfold, (tooOld_stale _ _ H). reflexivity.
Qed.

Lemma Single_scanEvent_foreign evt :
  foreign token cutoff evt = true -> Single.scanEvent w args token cutoff evt = ret true.
Proof.
  unfold foreign. intros [Hold Htok]%andb_prop.
  apply negb_true_iff in Hold.
  rewrite Single_scanEvent_unfold, Hold, Htok. reflexivity.
Qed.

(** Here every failed resource stops the run, whatever its reason. *)
Lemma Single_scanEvent_failed evt :
  matched token cutoff evt ->
  StackEvent.ResourceStatus evt = "UPDATE_FAILED" ->
  Single.scanEvent w args token cutoff evt = returns (Some (resourceFailedError evt)).
Proof.
  intros [Hf Ht] Hst.
  rewrite Single_scanEvent_unfold, (tooOld_fresh _ _ Hf),
    (otherToken_matched _ _ Ht), Hst. reflexivity.
Qed.

Lemma Single_scanEvent_complete evt :
  matched token cutoff evt -> isStackEvent (Single.stack args) evt ->
  StackEvent.ResourceStatus evt = "UPDATE_COMPLETE" ->
  snd (Single.scanEvent w args token cutoff evt) = Return None.
Proof.
  intros [Hf Ht] [Hid Hty] Hst.
  rewrite Single_scanEvent_unfold, (tooOld_fresh _ _ Hf),
    (otherToken_matched _ _ Ht), Hst, Hid, Hty, String.eqb_refl.
  cbn [String.eqb Ascii.eqb Bool.eqb andb negb orb].
  rewrite (snd_bind_Cont _ _ tt (snd_debugf _ _ _)). reflexivity.
Qed.

(** The rollback statuses are not looked at: such an event is passed
    over like any other. *)
Lemma Single_scanEvent_rollback evt :
  matched token cutoff evt ->
  StackEvent.ResourceStatus evt = "UPDATE_ROLLBACK_COMPLETE"
  \/ StackEvent.ResourceStatus evt = "ROLLBACK_FAILED" ->
  passes (Single.scanEvent w args token cutoff) evt.
Proof.
  intros [Hf Ht] Hst. unfold passes.
  rewrite Single_scanEvent_unfold, (tooOld_fresh _ _ Hf),
    (otherToken_matched _ _ Ht).
  destruct Hst as [-> | ->];
    cbn [String.eqb Ascii.eqb Bool.eqb andb negb orb];
    rewrite (snd_bind_Cont _ _ tt (snd_debugf _ _ _));
    destruct (_ && _); reflexivity.
Qed.

Lemma Single_scanEvent_Return evt err :
  snd (Single.scanEvent w args token cutoff evt) = Return err ->
  matched token cutoff evt /\
  ((StackEvent.ResourceStatus evt = "UPDATE_FAILED" /\
    err = Some (resourceFailedError evt)) \/
   (isStackEvent (Single.stack args) evt /\
    StackEvent.ResourceStatus evt = "UPDATE_COMPLETE" /\ err = None)).
Proof.
  intros H. rewrite Single_scanEvent_unfold in H.
  destruct (tooOld cutoff evt) eqn:Hold; [discriminate|].
  destruct (otherToken token evt) eqn:Htok; [discriminate|].
  split; [split; [apply tooOld_false; exact Hold
                 |apply otherToken_false; exact Htok]|].
  destruct (String.eqb_spec (StackEvent.ResourceStatus evt) "UPDATE_FAILED")
    as [Huf|Hnuf].
  - inversion H. left. auto.
  - rewrite (snd_bind_Cont _ _ tt (snd_debugf _ _ _)) in H.
    destruct (String.eqb_spec
                (aws.ToString (StackEvent.LogicalResourceId evt))
                (Single.stack args)) as [Hid|]; [|discriminate].
    destruct (String.eqb_spec
                (aws.ToString (StackEvent.ResourceType evt))
                "AWS::CloudFormation::Stack") as [Hty|]; [|discriminate].
    cbn [andb] in H.
    destruct (String.eqb_spec (StackEvent.ResourceStatus evt)
                "UPDATE_COMPLETE") as [Huc|]; inversion H.
    right. unfold isStackEvent. auto.
Qed.
End SingleBody.

(** ** What a returning poll goes back to, and what leaves it unchanged *)

Section LoopInversion.
Variable body : StackEvent.t -> M bool.
Variable stackName : string.

Lemma scanPage_Return_inv evts err :
  snd (scanPage body evts) = Return err ->
  exists evt, evt ∈ evts /\ snd (body evt) = Return err.
Proof.
  induction evts as [|evt evts IH]; cbn [scanPage]; [discriminate|].
  intros [H|([|] & Hgo & H)]%snd_bind_inv.
  - exists evt. split; [left|exact H].
  - destruct (IH H) as (e & He & Hr). exists e. split; [right; exact He|exact Hr].
  - discriminate.
Qed.

Lemma scanEvents_Return_inv pages err :
  snd (scanEvents body stackName pages) = Return err ->
  (exists e, err = Some (sdkError e)) \/
  exists evt, evt ∈ concat (map pageEvents pages) /\ snd (body evt) = Return err.
Proof.
  induction pages as [|pg pages IH]; cbn [scanEvents]; [discriminate|].
  rewrite snd_bind_emit.
  destruct pg as [e|evts].
  - intros H; inversion H. left. eauto.
  - intros [H|([|] & Hgo & H)]%snd_bind_inv.
    + right. destruct (scanPage_Return_inv _ _ H) as (evt & He & Hr).
      exists evt. split; [|exact Hr].
      cbn [map concat pageEvents]. apply elem_of_app. left. exact He.
    + destruct (IH H) as [Hs|(evt & He & Hr)]; [left; exact Hs|right].
      exists evt. split; [|exact Hr].
      cbn [map concat pageEvents]. apply elem_of_app. right. exact He.
    + discriminate.
Qed.

(** A returning poll was cancelled, hit a failing page, or met an
    event on which the body returns. *)
Lemma poll_Return_inv ticks : forall ctx err,
  snd (poll body stackName ctx ticks) = Return err ->
  (exists e, err = Some (ctxError e)) \/
  (exists e, err = Some (sdkError e)) \/
  exists evt, evt ∈ allEvents ticks /\ snd (body evt) = Return err.
Proof.
  induction ticks as [|pages ticks IH]; intros ctx err H.
  - destruct ctx as [|[|n] e]; cbn [poll] in H; try discriminate.
    inversion H. left. eauto.
  - assert (Hstep : snd (bind (scanEvents body stackName pages)
                      (fun _ => poll body stackName (tickCtx ctx) ticks))
                    = Return err \/ exists e, err = Some (ctxError e)).
    { destruct ctx as [|[|n] e]; cbn [poll] in H; auto.
      inversion H. right. eauto. }
    destruct Hstep as [Hstep|Hc]; [|left; exact Hc].
    apply snd_bind_inv in Hstep as [Hs|([] & _ & Hs)].
    + apply scanEvents_Return_inv in Hs as [Hs|(evt & He & Hr)];
        [right; left; exact Hs|].
      right; right. exists evt. split; [|exact Hr].
      unfold allEvents. cbn [map concat]. apply elem_of_app. left. exact He.
    + destruct (IH _ _ Hs) as [Hc|[Hsdk|(evt & He & Hr)]]; auto.
      right; right. exists evt. split; [|exact Hr].
      unfold allEvents. cbn [map concat]. apply elem_of_app. right. exact He.
Qed.

(** Ticks that scan alike poll alike. *)
Lemma poll_congr ticks1 ticks2 :
  Forall2 (fun p1 p2 => scanEvents body stackName p1
                        = scanEvents body stackName p2) ticks1 ticks2 ->
  forall ctx, poll body stackName ctx ticks1 = poll body stackName ctx ticks2.
Proof.
  induction 1 as [|p1 p2 ticks1 ticks2 Hp _ IH]; intros ctx; [reflexivity|].
  cbn [poll]. rewrite Hp.
  destruct ctx as [|[|n] e]; try reflexivity;
    apply bind_ext; intros _; apply IH.
Qed.

(** Dropping events the body passes over silently changes nothing. *)
Section Silent.
Variable drop : StackEvent.t -> bool.
Hypothesis drop_silent : forall evt, drop evt = true -> body evt = ret true.

Lemma scanPage_filter evts :
  scanPage body (filter (fun evt => drop evt = false) evts)
  = scanPage body evts.
Proof.
  induction evts as [|evt evts IH]; [reflexivity|].
  destruct (drop evt) eqn:Hd.
  - rewrite filter_cons_False by congruence.
    cbn [scanPage]. rewrite (drop_silent _ Hd), bind_ret_l. exact IH.
  - rewrite filter_cons_True by assumption.
    cbn [scanPage]. apply bind_ext. intros [|]; [exact IH|reflexivity].
Qed.

Lemma scanEvents_filter pages :
  scanEvents body stackName
    (map (fun pg => match pg with
                    | inl err => inl err
                    | inr evts =>
                        inr (filter (fun evt => drop evt = false) evts)
                    end) pages)
  = scanEvents body stackName pages.
Proof.
  induction pages as [|pg pages IH]; [reflexivity|].
  cbn [map scanEvents]. apply bind_ext. intros _.
  destruct pg as [e|evts]; [reflexivity|].
  rewrite scanPage_filter. apply bind_ext. intros [|]; [exact IH|reflexivity].
Qed.
End Silent.

(** A page is cut at an event on which the body breaks out of the scan,
    and the pages behind it are not fetched. *)
Lemma scanEvents_break ps1 pre evt post ps2 :
  body evt = ret false ->
  scanEvents body stackName (ps1 ++ inr (pre ++ evt :: post) :: ps2)
  = scanEvents body stackName (ps1 ++ [inr pre]).
Proof.
  intros Hevt. induction ps1 as [|pg ps1 IH]; cbn [app scanEvents].
  - apply bind_ext. intros _. rewrite scanPage_app, bind_assoc.
    apply bind_ext. intros [|]; [|rewrite bind_ret_l; reflexivity].
    cbn [scanPage]. rewrite Hevt, !bind_ret_l. reflexivity.
  - apply bind_ext. intros _. destruct pg as [e|evts]; [reflexivity|].
    apply bind_ext. intros [|]; [exact IH|reflexivity].
Qed.
End LoopInversion.

(** ** [run] and the stream of events *)

Lemma debugParams_withEvents w evs params :
  Multi.debugParams (withEvents w evs) params = Multi.debugParams w params.
Proof.
  induction params as [|p params IH]; [reflexivity|].
  cbn [Multi.debugParams]. rewrite IH. reflexivity.
Qed.

(** Only the polling loop looks at the stream: two streams on which it
    polls alike give the same run. *)
Lemma Multi_run_events w ctx stackName args evs1 evs2 :
  poll (Multi.scanEvent w stackName (newToken w) (timeNow w - Hour)%Z)
    stackName ctx evs1 =
  poll (Multi.scanEvent w stackName (newToken w) (timeNow w - Hour)%Z)
    stackName ctx evs2 ->
  Multi.run (withEvents w evs1) ctx stackName args =
  Multi.run (withEvents w evs2) ctx stackName args.
Proof.
  intros H. unfold Multi.run.
  change (Multi.argsOrInput (withEvents w evs1) args)
    with (Multi.argsOrInput w args).
  change (Multi.argsOrInput (withEvents w evs2) args)
    with (Multi.argsOrInput w args).
  destruct (stackName =? "")%string; [reflexivity|].
  destruct (Multi.parseKvs (Multi.argsOrInput w args)) as [err|toReplace];
    [reflexivity|].
  destruct (size toReplace =? 0)%nat; [reflexivity|].
  change (debugf (withEvents w evs1)) with (debugf w).
  change (debugf (withEvents w evs2)) with (debugf w).
  apply bind_ext; intros _. apply bind_ext; intros _.
  change (loadDefaultConfig (withEvents w evs1)) with (loadDefaultConfig w).
  change (loadDefaultConfig (withEvents w evs2)) with (loadDefaultConfig w).
  destruct (loadDefaultConfig w); [reflexivity|].
  apply bind_ext; intros _.
  change (describeStacks (withEvents w evs1)) with (describeStacks w).
  change (describeStacks (withEvents w evs2)) with (describeStacks w).
  destruct (describeStacks w stackName) as [err|[|stk [|]]]; try reflexivity.
  destruct (Multi.collectParams (Stack.Parameters stk) toReplace [])
    as [params left].
  destruct (negb (size left =? 0)%nat); [reflexivity|].
  apply bind_ext; intros _.
  rewrite !debugParams_withEvents.
  apply bind_ext; intros _. apply bind_ext; intros _.
  change (newToken (withEvents w evs1)) with (newToken w).
  change (newToken (withEvents w evs2)) with (newToken w).
  change (updateStack (withEvents w evs1)) with (updateStack w).
  change (updateStack (withEvents w evs2)) with (updateStack w).
  destruct (updateStack w _); [reflexivity|].
  apply bind_ext; intros _. exact H.
Qed.

Lemma Single_run_events w ctx args evs1 evs2 :
  poll (Single.scanEvent w args (newToken w) (timeNow w - Hour)%Z)
    (Single.stack args) ctx evs1 =
  poll (Single.scanEvent w args (newToken w) (timeNow w - Hour)%Z)
    (Single.stack args) ctx evs2 ->
  Single.run (withEvents w evs1) ctx args =
  Single.run (withEvents w evs2) ctx args.
Proof.
  intros H. unfold Single.run.
  destruct (Single.validate args); [reflexivity|].
  apply bind_ext; intros _.
  change (loadDefaultConfig (withEvents w evs1)) with (loadDefaultConfig w).
  change (loadDefaultConfig (withEvents w evs2)) with (loadDefaultConfig w).
  destruct (loadDefaultConfig w); [reflexivity|].
  apply bind_ext; intros _.
  change (describeStacks (withEvents w evs1)) with (describeStacks w).
  change (describeStacks (withEvents w evs2)) with (describeStacks w).
  destruct (describeStacks w (Single.stack args)) as [err|[|stk [|]]];
    try reflexivity.
  destruct (Single.collectParams args (Stack.Parameters stk) [] false)
    as [err|[params seenKey]]; [reflexivity|].
  destruct (negb seenKey); [reflexivity|].
  apply bind_ext; intros _.
  change (newToken (withEvents w evs1)) with (newToken w).
  change (newToken (withEvents w evs2)) with (newToken w).
  change (updateStack (withEvents w evs1)) with (updateStack w).
  change (updateStack (withEvents w evs2)) with (updateStack w).
  destruct (updateStack w _); [reflexivity|].
  apply bind_ext; intros _. exact H.
Qed.

Section PollStreams.
Variable body : StackEvent.t -> M bool.
Variable stackName : string.

Lemma poll_congr_one p1 p2 before later :
  scanEvents body stackName p1 = scanEvents body stackName p2 ->
  forall ctx,
    poll body stackName ctx (before ++ p1 :: later)
    = poll body stackName ctx (before ++ p2 :: later).
Proof.
  intros Hp. induction before as [|p before IH]; intros ctx; cbn [app poll].
  - rewrite Hp. reflexivity.
  - destruct ctx as [|[|n] e]; try reflexivity;
      apply bind_ext; intros _; apply IH.
Qed.

Lemma poll_map (f : list page -> list page) ticks :
  (forall pages, scanEvents body stackName (f pages)
                 = scanEvents body stackName pages) ->
  forall ctx,
    poll body stackName ctx (map f ticks) = poll body stackName ctx ticks.
Proof.
  intros Hf. induction ticks as [|p ticks IH]; intros ctx; [reflexivity|].
  cbn [map poll]. rewrite Hf.
  destruct ctx as [|[|n] e]; try reflexivity;
    apply bind_ext; intros _; apply IH.
Qed.

(** Streams that agree once the foreign events are taken out. *)
Lemma poll_strip token cutoff ticks1 ticks2 :
  (forall evt, foreign token cutoff evt = true -> body evt = ret true) ->
  strip token cutoff ticks1 = strip token cutoff ticks2 ->
  forall ctx,
    poll body stackName ctx ticks1 = poll body stackName ctx ticks2.
Proof.
  intros Hsilent Heq ctx.
  rewrite <- (poll_map (map (stripPage token cutoff)) ticks1),
          <- (poll_map (map (stripPage token cutoff)) ticks2).
  - fold (strip token cutoff ticks1). fold (strip token cutoff ticks2).
    rewrite Heq. reflexivity.
  - intros pages. apply (scanEvents_filter body stackName _ Hsilent).
  - intros pages. apply (scanEvents_filter body stackName _ Hsilent).
Qed.
End PollStreams.

(** ** Staleness and correlation *)

(** C4, as stated, fails: an old event of another operation in front of
    this run's completion event hides it at every tick, so the run that
    would succeed without it keeps polling. *)
Lemma old_foreign_event_hides_completion :
  StackEvent.ClientRequestToken exOldForeign
    <> Some (newToken (exWorld None [])) /\
  StackEvent.ClientRequestToken exComplete = Some (newToken (exWorld None [])) /\
  snd (Multi.run (exWorld None [[inr [exComplete]]; [inr [exComplete]]])
         Background "prod" ["ImageTag=v2"]) = Return None /\
  snd (Multi.run (exWorld None [[inr [exOldForeign; exComplete]];
                                [inr [exOldForeign; exComplete]]])
         Background "prod" ["ImageTag=v2"]) = Blocked /\
  snd (Single.run (exWorld None [[inr [exComplete]]; [inr [exComplete]]])
         Background (Single.mkArgs "prod" "ImageTag" "v2")) = Return None /\
  snd (Single.run (exWorld None [[inr [exOldForeign; exComplete]];
                                 [inr [exOldForeign; exComplete]]])
         Background (Single.mkArgs "prod" "ImageTag" "v2")) = Blocked.
Proof.
  split; [vm_compute; discriminate|].
  repeat split; vm_compute; reflexivity.
Qed.

(** C4 (amended): events that are not older than the cutoff and whose
    token is absent or differs from this run's never influence the run:
    two streams that agree once such events are removed from every page
    give the same run, trace and outcome alike, so any number of them
    may be inserted or removed. Both programs. *)
Theorem foreign_events_never_matter w ctx evs1 evs2 :
  strip (newToken w) (timeNow w - Hour) evs1
  = strip (newToken w) (timeNow w - Hour) evs2 ->
  (forall stackName args,
     Multi.run (withEvents w evs1) ctx stackName args
     = Multi.run (withEvents w evs2) ctx stackName args) /\
  (forall args,
     Single.run (withEvents w evs1) ctx args
     = Single.run (withEvents w evs2) ctx args).
Proof.
  intros Heq. split.
  - intros stackName args. apply Multi_run_events.
    apply (poll_strip _ _ _ _ _ _ (Multi_scanEvent_foreign _ _ _ _) Heq).
  - intros args. apply Single_run_events.
    apply (poll_strip _ _ _ _ _ _ (Single_scanEvent_foreign _ _ _ _) Heq).
Qed.

Lemma foreign_events_never_matter_witness :
  Multi.run (withEvents (exWorld None [])
               [[inr [exForeign; exComplete; exForeign]]])
    Background "prod" ["ImageTag=v2"] =
  Multi.run (withEvents (exWorld None []) [[inr [exComplete]]])
    Background "prod" ["ImageTag=v2"].
Proof.
  refine (proj1 (foreign_events_never_matter (exWorld None []) Background
                   [[inr [exForeign; exComplete; exForeign]]]
                   [[inr [exComplete]]] _) "prod" ["ImageTag=v2"]).
  vm_compute. reflexivity.
Defined.

(** ** Terminal detection *)

(** C2, as stated, fails on the single-parameter program: the stack's
    own rollback event, carrying this run's token, does not end the run,
    which keeps polling; the multi-parameter program returns the error
    naming the status. *)
Lemma Single_polls_past_rollback :
  matched (newToken (exWorld None [])) (timeNow (exWorld None []) - Hour)
    exRolledBack /\
  isStackEvent "prod" exRolledBack /\
  snd (Single.run (exWorld None [[inr [exRolledBack]]; [inr [exRolledBack]]])
         Background (Single.mkArgs "prod" "ImageTag" "v2")) = Blocked /\
  snd (Multi.run (exWorld None [[inr [exRolledBack]]; [inr [exRolledBack]]])
         Background "prod" ["ImageTag=v2"])
    = Return (Some (rollbackError "UPDATE_ROLLBACK_COMPLETE")).
Proof.
  split; [split; [vm_compute; discriminate|vm_compute; reflexivity]|].
  split; [split; reflexivity|].
  split; vm_compute; reflexivity.
Qed.

(** C2 (amended): in the multi-parameter program, when the scan
    reaches a matched event of the stack itself, status "update complete"
    makes the monitor return success and "update rollback complete" or
    "rollback failed" make it return the error naming the status;
    conversely a monitor that returned success or such an error met
    exactly such an event. The single-parameter program ends with success
    in the same way and only then, but passes over the rollback statuses
    and never returns the rollback error. *)
Theorem stack_event_decides w token cutoff ctx ticks :
  (forall stackName,
     let body := Multi.scanEvent w stackName token cutoff in
     (forall evt,
        reached body stackName ctx ticks evt ->
        matched token cutoff evt -> isStackEvent stackName evt ->
        (StackEvent.ResourceStatus evt = "UPDATE_COMPLETE" ->
         snd (poll body stackName ctx ticks) = Return None) /\
        (StackEvent.ResourceStatus evt = "UPDATE_ROLLBACK_COMPLETE"
         \/ StackEvent.ResourceStatus evt = "ROLLBACK_FAILED" ->
         snd (poll body stackName ctx ticks)
         = Return (Some (rollbackError (StackEvent.ResourceStatus evt))))) /\
     (snd (poll body stackName ctx ticks) = Return None ->
      exists evt, evt ∈ allEvents ticks /\ matched token cutoff evt /\
        isStackEvent stackName evt /\
        StackEvent.ResourceStatus evt = "UPDATE_COMPLETE") /\
     (forall status,
        snd (poll body stackName ctx ticks) = Return (Some (rollbackError status)) ->
        exists evt, evt ∈ allEvents ticks /\ matched token cutoff evt /\
          isStackEvent stackName evt /\
          StackEvent.ResourceStatus evt = status /\
          (status = "UPDATE_ROLLBACK_COMPLETE" \/ status = "ROLLBACK_FAILED"))) /\
  (forall args,
     let body := Single.scanEvent w args token cutoff in
     (forall evt,
        reached body (Single.stack args) ctx ticks evt ->
        matched token cutoff evt -> isStackEvent (Single.stack args) evt ->
        StackEvent.ResourceStatus evt = "UPDATE_COMPLETE" ->
        snd (poll body (Single.stack args) ctx ticks) = Return None) /\
     (snd (poll body (Single.stack args) ctx ticks) = Return None ->
      exists evt, evt ∈ allEvents ticks /\ matched token cutoff evt /\
        isStackEvent (Single.stack args) evt /\
        StackEvent.ResourceStatus evt = "UPDATE_COMPLETE") /\
     (forall evt,
        matched token cutoff evt ->
        StackEvent.ResourceStatus evt = "UPDATE_ROLLBACK_COMPLETE"
        \/ StackEvent.ResourceStatus evt = "ROLLBACK_FAILED" ->
        passes body evt) /\
     (forall status,
        snd (poll body (Single.stack args) ctx ticks)
        <> Return (Some (rollbackError status)))).
Proof.
  split.
  - intros stackName body. split; [|split].
    + intros evt Hreach Hm Hstack. split; intros Hst.
      * apply (poll_reached body stackName ctx ticks evt None Hreach).
        apply Multi_scanEvent_complete; assumption.
      * apply (poll_reached body stackName ctx ticks evt _ Hreach).
        apply Multi_scanEvent_rollback; assumption.
    + intros [(e & He)|[(e & He)|(evt & Hin & Hr)]]%poll_Return_inv;
        try discriminate.
      apply Multi_scanEvent_Return in Hr
        as (Hm & [(_ & _ & He)|[(_ & _ & He)|(Hstack & Hst & _)]]);
        try discriminate.
      exists evt. auto.
    + intros status [(e & He)|[(e & He)|(evt & Hin & Hr)]]%poll_Return_inv;
        try discriminate.
      apply Multi_scanEvent_Return in Hr
        as (Hm & [(_ & _ & He)|[(Hstack & Hst & He)|(_ & _ & He)]]);
        try discriminate.
      inversion He; subst status. exists evt. auto 6.
  - intros args body. split; [|split; [|split]].
    + intros evt Hreach Hm Hstack Hst.
      apply (poll_reached body _ ctx ticks evt None Hreach).
      apply Single_scanEvent_complete; assumption.
    + intros [(e & He)|[(e & He)|(evt & Hin & Hr)]]%poll_Return_inv;
        try discriminate.
      apply Single_scanEvent_Return in Hr
        as (Hm & [(_ & He)|(Hstack & Hst & _)]); try discriminate.
      exists evt. auto.
    + intros evt Hm Hst. apply Single_scanEvent_rollback; assumption.
    + intros status [(e & He)|[(e & He)|(evt & Hin & Hr)]]%poll_Return_inv;
        try discriminate.
      apply Single_scanEvent_Return in Hr
        as (Hm & [(_ & He)|(_ & _ & He)]); discriminate.
Qed.

Lemma stack_event_decides_witness :
  snd (poll (Multi.scanEvent (exWorld None []) "prod" exToken (9 * Hour)) "prod"
         Background [[inr [exForeign]]; [inr [exCancelled; exRolledBack]]])
  = Return (Some (rollbackError "UPDATE_ROLLBACK_COMPLETE")).
Proof.
  refine (proj2 (proj1 (proj1 (stack_event_decides (exWorld None []) exToken
            (9 * Hour) Background
            [[inr [exForeign]]; [inr [exCancelled; exRolledBack]]]) "prod")
          exRolledBack _ _ _) _).
  - exists [[inr [exForeign]]], [], [exCancelled], [], [], [].
    split; [reflexivity|]. split; [exact I|].
    split; [repeat constructor|]. split; repeat constructor.
  - split; [vm_compute; discriminate|reflexivity].
  - split; reflexivity.
  - left. reflexivity.
Defined.

(** ** Failure detection *)

(** C3, as stated, fails on the single-parameter program: it has no
    exception for "Resource update cancelled", so the cancelled resource
    ends the run and the error carries its reason, not the reason of the
    resource that really failed behind it. *)
Lemma Single_fails_on_cancelled_resource :
  matched (newToken (exWorld None [])) (timeNow (exWorld None []) - Hour)
    exCancelled /\
  matched (newToken (exWorld None [])) (timeNow (exWorld None []) - Hour)
    exFailed /\
  snd (Single.run (exWorld None [[inr [exCancelled; exFailed]]])
         Background (Single.mkArgs "prod" "ImageTag" "v2"))
    = Return (Some (fmtErrorf "%v: %s"
                      [OStr "UPDATE_FAILED"; OStr "Resource update cancelled"])) /\
  snd (Multi.run (exWorld None [[inr [exCancelled; exFailed]]])
         Background "prod" ["ImageTag=v2"])
    = Return (Some (fmtErrorf "%v: %s"
                      [OStr "UPDATE_FAILED"; OStr "Invalid image tag"])).
Proof.
  split; [split; [vm_compute; discriminate|vm_compute; reflexivity]|].
  split; [split; [vm_compute; discriminate|vm_compute; reflexivity]|].
  split; vm_compute; reflexivity.
Qed.

(** C3 (amended): in the multi-parameter program, a matched event with
    status "update failed" that the scan reaches makes the monitor return
    at once the error carrying its status and reason, unless its own
    reason is "Resource update cancelled": then it is passed over, so
    that a matched failure with another reason behind it is reached and
    ends the run with that reason. In the single-parameter program every
    matched "update failed" event that the scan reaches ends the run with
    its status and reason, the cancelled ones too. *)
Theorem failed_resource_decides w token cutoff ctx ticks :
  (forall stackName,
     let body := Multi.scanEvent w stackName token cutoff in
     (forall evt,
        reached body stackName ctx ticks evt ->
        matched token cutoff evt ->
        StackEvent.ResourceStatus evt = "UPDATE_FAILED" ->
        aws.ToString (StackEvent.ResourceStatusReason evt)
          <> "Resource update cancelled" ->
        body evt = returns (Some (resourceFailedError evt)) /\
        snd (poll body stackName ctx ticks)
        = Return (Some (resourceFailedError evt))) /\
     (forall evt,
        matched token cutoff evt ->
        StackEvent.ResourceStatus evt = "UPDATE_FAILED" ->
        aws.ToString (StackEvent.ResourceStatusReason evt)
          = "Resource update cancelled" ->
        passes body evt) /\
     (forall quiet ps1 pre cancelled between failed post ps2 later,
        ticks = quiet ++ (ps1 ++ inr (pre ++ cancelled :: between
                                        ++ failed :: post) :: ps2) :: later ->
        ctxAlive ctx (length quiet) ->
        Forall (idleTick body stackName) quiet ->
        Forall (passedPage body) ps1 ->
        Forall (passes body) pre -> Forall (passes body) between ->
        matched token cutoff cancelled ->
        StackEvent.ResourceStatus cancelled = "UPDATE_FAILED" ->
        aws.ToString (StackEvent.ResourceStatusReason cancelled)
          = "Resource update cancelled" ->
        matched token cutoff failed ->
        StackEvent.ResourceStatus failed = "UPDATE_FAILED" ->
        aws.ToString (StackEvent.ResourceStatusReason failed)
          <> "Resource update cancelled" ->
        snd (poll body stackName ctx ticks)
        = Return (Some (resourceFailedError failed)))) /\
  (forall args,
     let body := Single.scanEvent w args token cutoff in
     forall evt,
       reached body (Single.stack args) ctx ticks evt ->
       matched token cutoff evt ->
       StackEvent.ResourceStatus evt = "UPDATE_FAILED" ->
       body evt = returns (Some (resourceFailedError evt)) /\
       snd (poll body (Single.stack args) ctx ticks)
       = Return (Some (resourceFailedError evt))).
Proof.
  split.
  - intros stackName body. split; [|split].
    + intros evt Hreach Hm Hst Hre.
      pose proof (Multi_scanEvent_failed w stackName token cutoff evt Hm Hst Hre)
        as Hbody.
      split; [exact Hbody|].
      apply (poll_reached body stackName ctx ticks evt _ Hreach).
      fold body in Hbody. rewrite Hbody. reflexivity.
    + intros evt Hm Hst Hre. apply Multi_scanEvent_cancelled; assumption.
    + intros quiet ps1 pre cancelled between failed post ps2 later
        -> Hctx Hq Hps Hpre Hbetween Hmc Hsc Hrc Hmf Hsf Hrf.
      apply (poll_reached body stackName ctx _ failed).
      * exists quiet, ps1, (pre ++ cancelled :: between), post, ps2, later.
        split; [rewrite <- app_assoc; reflexivity|].
        repeat (split; [assumption|]).
        apply Forall_app. split; [assumption|].
        constructor; [|assumption].
        apply Multi_scanEvent_cancelled; assumption.
      * pose proof (Multi_scanEvent_failed w stackName token cutoff failed
                      Hmf Hsf Hrf) as Hbody.
        fold body in Hbody. rewrite Hbody. reflexivity.
  - intros args body evt Hreach Hm Hst.
    pose proof (Single_scanEvent_failed w args token cutoff evt Hm Hst) as Hbody.
    split; [exact Hbody|].
    apply (poll_reached body _ ctx ticks evt _ Hreach).
    fold body in Hbody. rewrite Hbody. reflexivity.
Qed.

Lemma failed_resource_decides_witness :
  snd (poll (Multi.scanEvent (exWorld None []) "prod" exToken (9 * Hour)) "prod"
         Background [[inr [exForeign]]; [inr [exCancelled; exForeign; exFailed]]])
  = Return (Some (resourceFailedError exFailed)).
Proof.
  refine (proj2 (proj2 (proj1 (failed_resource_decides (exWorld None []) exToken
            (9 * Hour) Background
            [[inr [exForeign]]; [inr [exCancelled; exForeign; exFailed]]])
            "prod"))
          [[inr [exForeign]]] [] [] exCancelled [exForeign] exFailed [] [] []
          _ _ _ _ _ _ _ _ _ _ _ _).
  - reflexivity.
  - exact I.
  - repeat constructor.
  - constructor.
  - constructor.
  - repeat constructor.
  - split; [vm_compute; discriminate|reflexivity].
  - reflexivity.
  - reflexivity.
  - split; [vm_compute; discriminate|reflexivity].
  - reflexivity.
  - vm_compute. discriminate.
Defined.

(** ** Reconciliation *)

Section CollectParams.
Import Multi.

Lemma collectParams_acc current : forall toReplace params,
  collectParams current toReplace params =
  (params ++ fst (collectParams current toReplace []),
   snd (collectParams current toReplace [])).
Proof.
  induction current as [|p current IH]; intros toReplace params.
  - simpl. rewrite app_nil_r. reflexivity.
  - cbn [collectParams].
    destruct (toReplace !! aws.ToString (Param.ParameterKey p)) as [v|];
      rewrite IH, (IH _ ([] ++ _)); cbn [fst snd app];
      rewrite <- app_assoc; reflexivity.
Qed.

(** One step of the loop, seen from the front of the payload. *)
Lemma collectParams_cons p current toReplace :
  let k := aws.ToString (Param.ParameterKey p) in
  collectParams (p :: current) toReplace [] =
  match toReplace !! k with
  | Some v =>
      (explicitValue k v :: fst (collectParams current (delete k toReplace) []),
       snd (collectParams current (delete k toReplace) []))
  | None =>
      (usePrevious k :: fst (collectParams current toReplace []),
       snd (collectParams current toReplace []))
  end.
Proof.
  cbn [collectParams].
  destruct (toReplace !! aws.ToString (Param.ParameterKey p)) as [v|];
    rewrite collectParams_acc; reflexivity.
Qed.

(** What is left of the overrides: those whose key the stack lacks. *)
Lemma collectParams_leftover current : forall toReplace k,
  snd (collectParams current toReplace []) !! k =
  if decide (k ∈ currentKeys current) then None else toReplace !! k.
Proof.
  induction current as [|p current IH]; intros toReplace k.
  - cbn. destruct (decide _) as [H|_]; [inversion H|reflexivity].
  - rewrite collectParams_cons. cbn zeta.
    set (k0 := aws.ToString (Param.ParameterKey p)).
    change (currentKeys (p :: current)) with (k0 :: currentKeys current).
    destruct (toReplace !! k0) as [v|] eqn:Hk0; cbn [snd]; rewrite IH.
    + destruct (decide (k ∈ currentKeys current)) as [Hin|Hnin].
      * rewrite decide_True by (right; exact Hin). reflexivity.
      * destruct (decide (k = k0)) as [->|Hne].
        -- rewrite decide_True by left. apply lookup_delete_eq.
        -- rewrite decide_False, lookup_delete_ne by
             (try (intros [?|?]%elem_of_cons); congruence).
           reflexivity.
    + destruct (decide (k ∈ currentKeys current)) as [Hin|Hnin].
      * rewrite decide_True by (right; exact Hin). reflexivity.
      * destruct (decide (k = k0)) as [->|Hne].
        -- rewrite decide_True by left. exact Hk0.
        -- rewrite decide_False by
             (intros [?|?]%elem_of_cons; congruence).
           reflexivity.
Qed.

(** The payload, entry by entry. *)
Lemma collectParams_lookup current : forall toReplace i p,
  current !! i = Some p ->
  let k := aws.ToString (Param.ParameterKey p) in
  fst (collectParams current toReplace []) !! i =
  Some match toReplace !! k with
       | Some v =>
           if decide (k ∈ currentKeys (take i current))
           then usePrevious k else explicitValue k v
       | None => usePrevious k
       end.
Proof.
  induction current as [|q current IH]; intros toReplace i p Hi;
    [rewrite lookup_nil in Hi; discriminate|].
  rewrite collectParams_cons. cbn zeta.
  set (k0 := aws.ToString (Param.ParameterKey q)).
  destruct i as [|i]; cbn [lookup list_lookup] in Hi.
  - inversion Hi; subst q. fold k0.
    destruct (toReplace !! k0) as [v|]; cbn [fst]; [|reflexivity].
    cbn [take currentKeys map]. rewrite decide_False by inversion 1.
    reflexivity.
  - set (k := aws.ToString (Param.ParameterKey p)).
    change (currentKeys (take (S i) (q :: current)))
      with (k0 :: currentKeys (take i current)).
    destruct (toReplace !! k0) as [v0|] eqn:Hk0; cbn [fst];
      change ((?x :: ?l) !! S i) with (l !! i);
      rewrite (IH _ i p Hi); fold k; f_equal.
    + destruct (decide (k = k0)) as [E|Hne].
      * rewrite E, lookup_delete_eq, Hk0.
        rewrite decide_True by left. reflexivity.
      * rewrite lookup_delete_ne by congruence.
        destruct (toReplace !! k) as [v|]; [|reflexivity].
        destruct (decide (k ∈ currentKeys (take i current))) as [Hin|Hnin].
        -- rewrite decide_True by (right; exact Hin). reflexivity.
        -- rewrite decide_False by
             (intros [?|?]%elem_of_cons; congruence).
           reflexivity.
    + destruct (toReplace !! k) as [v|] eqn:Hk; [|reflexivity].
      assert (Hne : k <> k0) by congruence.
      destruct (decide (k ∈ currentKeys (take i current))) as [Hin|Hnin].
      * rewrite decide_True by (right; exact Hin). reflexivity.
      * rewrite decide_False by
          (intros [?|?]%elem_of_cons; congruence).
        reflexivity.
Qed.

Lemma collectParams_keys current : forall toReplace,
  map Param.ParameterKey (fst (collectParams current toReplace []))
  = map Some (currentKeys current).
Proof.
  induction current as [|p current IH]; intros toReplace; [reflexivity|].
  rewrite collectParams_cons. cbn zeta.
  destruct (toReplace !! _); cbn [fst map currentKeys];
    rewrite IH; reflexivity.
Qed.

Lemma collectParams_length current toReplace :
  length (fst (collectParams current toReplace [])) = length current.
Proof.
  rewrite <- (length_map Param.ParameterKey), collectParams_keys.
  unfold currentKeys. rewrite !length_map. reflexivity.
Qed.
End CollectParams.

(** The sorted keys of a map: each key once, in increasing order. *)
Lemma sortedKeys_spec (m : gmap string string) :
  StronglySorted String.le (sortedKeys m) /\
  NoDup (sortedKeys m) /\
  forall k, k ∈ sortedKeys m <-> is_Some (m !! k).
Proof.
  unfold sortedKeys.
  split; [apply StronglySorted_merge_sort; apply _|].
  split.
  - rewrite merge_sort_Permutation. apply NoDup_fst_map_to_list.
  - intros k. rewrite merge_sort_Permutation.
    rewrite list_elem_of_fmap. split.
    + intros ([k' v] & -> & Hin). apply elem_of_map_to_list in Hin. eauto.
    + intros [v Hv]. exists (k, v). split; [reflexivity|].
      apply elem_of_map_to_list. exact Hv.
Qed.

(** C6: in the multi-parameter program, an override whose key the stack
    does not define makes [run] return, after DescribeStacks and with no
    UpdateStack call, the error that names the unmatched keys: exactly
    the override keys absent from the current parameters, each once, in
    increasing order. *)
Theorem run_unknown_parameters w ctx stackName args toReplace stk :
  stackName <> "" ->
  Multi.parseKvs (Multi.argsOrInput w args) = inr toReplace ->
  loadDefaultConfig w = None ->
  describeStacks w stackName = inr [stk] ->
  (exists k, is_Some (toReplace !! k) /\ k ∉ currentKeys (Stack.Parameters stk)) ->
  exists names,
    Multi.run w ctx stackName args =
      (fst (debugf w "loaded parameters: %v" [LMap toReplace])
         ++ [CallLoadDefaultConfig; CallDescribeStacks stackName],
       Return (Some (unknownParametersError names))) /\
    StronglySorted String.le names /\
    NoDup names /\
    forall k, k ∈ names <->
      is_Some (toReplace !! k) /\ k ∉ currentKeys (Stack.Parameters stk).
Proof.
  intros Hname Hparse Hcfg Hdesc (k0 & Hk0 & Hnin).
  destruct (Multi.collectParams (Stack.Parameters stk) toReplace [])
    as [params left] eqn:Hcp.
  assert (Hleft : forall k, is_Some (left !! k) <->
            is_Some (toReplace !! k) /\ k ∉ currentKeys (Stack.Parameters stk)).
  { intros k. change left with (snd (params, left)).
    rewrite <- Hcp, collectParams_leftover.
    destruct (decide (k ∈ currentKeys (Stack.Parameters stk))) as [Hin|Hn].
    - split; [intros [? ?]; discriminate|intros [_ ?]; contradiction].
    - split; [intros ?; split; assumption|intros [? _]; assumption]. }
  assert (Hsize : (size toReplace =? 0)%nat = false).
  { apply Nat.eqb_neq. intros Hz. apply map_size_empty_iff in Hz.
    rewrite Hz, lookup_empty in Hk0. destruct Hk0; discriminate. }
  assert (Hsize' : (size left =? 0)%nat = false).
  { apply Nat.eqb_neq. intros Hz. apply map_size_empty_iff in Hz.
    assert (Hs : is_Some (left !! k0)) by (apply Hleft; auto).
    rewrite Hz, lookup_empty in Hs. destruct Hs; discriminate. }
  destruct (sortedKeys_spec left) as (Hsorted & Hnodup & Hmem).
  exists (sortedKeys left). split; [|split; [exact Hsorted|split; [exact Hnodup|]]].
  - unfold Multi.run. apply String.eqb_neq in Hname.
    rewrite Hname, Hparse, Hsize, Hcfg, Hdesc, Hcp, Hsize'.
    unfold debugf. destruct (underGithub w); reflexivity.
  - intros k. rewrite Hmem. apply Hleft.
Qed.

Lemma run_unknown_parameters_witness :
  exists names,
    Multi.run (exWorld None []) Background "prod"
      ["Region=us-east-1"; "ImageTag=v2"; "Arch=arm64"] =
      (fst (debugf (exWorld None []) "loaded parameters: %v"
              [LMap (<["Arch":="arm64"]> (<["ImageTag":="v2"]>
                       {["Region":="us-east-1"]}))])
         ++ [CallLoadDefaultConfig; CallDescribeStacks "prod"],
       Return (Some (unknownParametersError names))) /\
    StronglySorted String.le names /\
    NoDup names /\
    forall k, k ∈ names <->
      is_Some ((<["Arch":="arm64"]> (<["ImageTag":="v2"]>
                  {["Region":="us-east-1"]}) : gmap string string) !! k)
      /\ k ∉ currentKeys (Stack.Parameters exStack).
Proof.
  apply run_unknown_parameters.
  - discriminate.
  - vm_compute. reflexivity.
  - reflexivity.
  - reflexivity.
  - exists "Region". split; [vm_compute; eauto|].
    vm_compute. intros H. repeat (inversion H as [|? ? ? H']; clear H; rename H' into H).
Defined.

Example run_unknown_parameters_names :
  snd (Multi.run (exWorld None []) Background "prod"
         ["Region=us-east-1"; "ImageTag=v2"; "Arch=arm64"])
  = Return (Some (fmtErrorf "stack has no parameters with these names: %s"
                    [OStr "Arch, Region"])).
Proof. vm_compute. reflexivity. Qed.

(** ** What gets submitted *)

Lemma submitted_app t1 t2 : submitted (t1 ++ t2) = submitted t1 ++ submitted t2.
Proof. unfold submitted. apply flat_map_app. Qed.

Lemma submitted_bind_Cont {A B} (m : M A) (k : A -> M B) a :
  snd m = Cont a ->
  submitted (fst (bind m k)) = submitted (fst m) ++ submitted (fst (k a)).
Proof.
  destruct m as [t r]; simpl; intros ->. destruct (k a) as [t' r'].
  apply submitted_app.
Qed.

Lemma submitted_bind_nil {A B} (m : M A) (k : A -> M B) :
  submitted (fst m) = [] -> (forall a, submitted (fst (k a)) = []) ->
  submitted (fst (bind m k)) = [].
Proof.
  intros Hm Hk. destruct m as [t [a| |]]; simpl in *; try exact Hm.
  specialize (Hk a). destruct (k a) as [t' r'].
  simpl in *. rewrite submitted_app, Hm, Hk. reflexivity.
Qed.

Lemma submitted_debugf w format args : submitted (fst (debugf w format args)) = [].
Proof. unfold debugf. destruct (underGithub w); reflexivity. Qed.

Lemma submitted_debugParams w params :
  submitted (fst (Multi.debugParams w params)) = [].
Proof.
  induction params as [|p params IH]; [reflexivity|].
  cbn [Multi.debugParams]. apply submitted_bind_nil; [|intros _; exact IH].
  destruct (aws.ToBool _); apply submitted_debugf.
Qed.

Lemma snd_debugParams w params : snd (Multi.debugParams w params) = Cont tt.
Proof.
  induction params as [|p params IH]; [reflexivity|].
  cbn [Multi.debugParams]. rewrite (snd_bind_Cont _ _ tt); [exact IH|].
  destruct (aws.ToBool _); apply snd_debugf.
Qed.

Section PollSubmitsNothing.
Variable body : StackEvent.t -> M bool.
Variable stackName : string.
Hypothesis body_quiet : forall evt, submitted (fst (body evt)) = [].

Lemma submitted_scanPage evts : submitted (fst (scanPage body evts)) = [].
Proof.
  induction evts as [|evt evts IH]; [reflexivity|].
  cbn [scanPage]. apply submitted_bind_nil; [apply body_quiet|].
  intros [|]; [exact IH|reflexivity].
Qed.

Lemma submitted_scanEvents pages :
  submitted (fst (scanEvents body stackName pages)) = [].
Proof.
  induction pages as [|pg pages IH]; [reflexivity|].
  cbn [scanEvents]. apply submitted_bind_nil; [reflexivity|]. intros _.
  destruct pg as [e|evts]; [reflexivity|].
  apply submitted_bind_nil; [apply submitted_scanPage|].
  intros [|]; [exact IH|reflexivity].
Qed.

Lemma submitted_poll ticks : forall ctx,
  submitted (fst (poll body stackName ctx ticks)) = [].
Proof.
  induction ticks as [|pages ticks IH]; intros ctx.
  - destruct ctx as [|[|n] e]; reflexivity.
  - destruct ctx as [|[|n] e]; cbn [poll]; try reflexivity;
      (apply submitted_bind_nil; [apply submitted_scanEvents|intros _; apply IH]).
Qed.
End PollSubmitsNothing.

Lemma submitted_Multi_scanEvent w stackName token cutoff evt :
  submitted (fst (Multi.scanEvent w stackName token cutoff evt)) = [].
Proof.
  rewrite Multi_scanEvent_unfold.
  destruct (tooOld cutoff evt); [reflexivity|].
  destruct (otherToken token evt); [reflexivity|].
  destruct (_ && _); [reflexivity|].
  apply submitted_bind_nil; [apply submitted_debugf|]. intros _.
  destruct (_ && _); [|reflexivity].
  destruct (_ || _); [reflexivity|].
  destruct (_ =? _)%string; reflexivity.
Qed.

Lemma submitted_Single_scanEvent w args token cutoff evt :
  submitted (fst (Single.scanEvent w args token cutoff evt)) = [].
Proof.
  rewrite Single_scanEvent_unfold.
  destruct (tooOld cutoff evt); [reflexivity|].
  destruct (otherToken token evt); [reflexivity|].
  destruct (_ =? _)%string; [reflexivity|].
  apply submitted_bind_nil; [apply submitted_debugf|]. intros _.
  destruct (_ && _); [|reflexivity].
  destruct (_ =? _)%string; reflexivity.
Qed.

(** The single-parameter loop: unless it stops on [errAlreadySet], it
    keeps the entries of the other keys, marked use-previous, and reports
    whether the key was met. *)
Lemma Single_collectParams_spec args current : forall params seenKey,
  (forall p, p ∈ current ->
     aws.ToString (Param.ParameterKey p) = Single.key args ->
     aws.ToString (Param.ParameterValue p) <> Single.value args) ->
  Single.collectParams args current params seenKey =
  inr (params ++ map usePrevious
                   (filter (fun k => k <> Single.key args) (currentKeys current)),
       seenKey || bool_decide (Single.key args ∈ currentKeys current)).
Proof.
  induction current as [|p current IH]; intros params seenKey Hdiff.
  - cbn. rewrite app_nil_r, orb_false_r. reflexivity.
  - cbn [Single.collectParams].
    change (currentKeys (p :: current))
      with (aws.ToString (Param.ParameterKey p) :: currentKeys current).
    assert (Hdiff' : forall q, q ∈ current ->
              aws.ToString (Param.ParameterKey q) = Single.key args ->
              aws.ToString (Param.ParameterValue q) <> Single.value args).
    { intros q Hq. apply Hdiff. right. exact Hq. }
    destruct (String.eqb_spec (aws.ToString (Param.ParameterKey p))
                (Single.key args)) as [Hk|Hk].
    + pose proof (Hdiff p ltac:(left) Hk) as Hv.
      apply String.eqb_neq in Hv. rewrite Hv. cbn [andb].
      rewrite (IH _ _ Hdiff'), filter_cons_False by (intros H; apply H; exact Hk).
      f_equal. f_equal.
      rewrite (bool_decide_eq_true_2 (Single.key args ∈ _ :: _))
        by (rewrite Hk; left).
      rewrite orb_true_r. reflexivity.
    + cbn [andb]. rewrite (IH _ _ Hdiff'), filter_cons_True by exact Hk.
      cbn [map]. rewrite <- app_assoc. f_equal. f_equal. f_equal.
      apply bool_decide_ext. rewrite elem_of_cons. intuition congruence.
Qed.

Lemma filter_absent_key (key : string) (keys : list string) :
  key ∉ keys -> filter (fun k => k <> key) keys = keys.
Proof.
  induction keys as [|k keys IH]; intros Hnotin; [reflexivity|].
  rewrite filter_cons_True by (intros ->; apply Hnotin; left).
  f_equal. apply IH. intros Hin. apply Hnotin. right. exact Hin.
Qed.

(** A key that occurs once: taking it out shortens the list by one. *)
Lemma length_filter_once (key : string) (keys : list string) :
  NoDup keys -> key ∈ keys ->
  S (length (filter (fun k => k <> key) keys)) = length keys.
Proof.
  induction 1 as [|k keys Hnotin Hnodup IH]; intros Hin; [inversion Hin|].
  destruct (decide (k = key)) as [->|Hne].
  - rewrite filter_cons_False by (intros H; apply H; reflexivity).
    cbn [length]. f_equal.
    f_equal. apply filter_absent_key. exact Hnotin.
  - rewrite filter_cons_True by exact Hne. cbn [length]. f_equal.
    apply IH. apply elem_of_cons in Hin as [?|?]; [congruence|assumption].
Qed.

Lemma submitted_bind_emit {B} e (k : unit -> M B) :
  submitted (fst (bind (emit e) k)) = submitted [e] ++ submitted (fst (k tt)).
Proof. apply (submitted_bind_Cont (emit e) k tt). reflexivity. Qed.

(** C1, as stated, fails on the single-parameter program: the entry of
    the overridden key is taken out of its place and put last, so the
    payload does not keep the order of the current list. *)
Lemma Single_moves_overridden_entry_last :
  currentKeys (Stack.Parameters exStack) = ["Env"; "ImageTag"] /\
  map UpdateStackInput.Parameters
    (submitted (fst (Single.run (exWorld None []) Background
                       (Single.mkArgs "prod" "Env" "staging"))))
  = [[usePrevious "ImageTag"; explicitValue "Env" "staging"]].
Proof. split; vm_compute; reflexivity. Qed.

(** C1 (amended): with a stack of N current parameters,
    - the multi-parameter program, given a non-empty override mapping
      whose keys are among the current keys, submits exactly one payload;
      it has N entries with the current keys in the current order; an
      entry carries the override's explicit value if its key is
      overridden (at the key's first occurrence, should the list repeat a
      key) and is marked use-previous otherwise;
    - the single-parameter program, given a key among the current keys
      none of whose entries already has the requested value, submits
      exactly one payload: the entries of the other keys in the current
      order, marked use-previous, followed by the entry of the key with
      the explicit value; it has N entries when no key is repeated. *)
Theorem reconciled_payload w ctx :
  (forall stackName args toReplace stk,
     stackName <> "" ->
     Multi.parseKvs (Multi.argsOrInput w args) = inr toReplace ->
     toReplace <> ∅ ->
     loadDefaultConfig w = None ->
     describeStacks w stackName = inr [stk] ->
     (forall k, is_Some (toReplace !! k) ->
                k ∈ currentKeys (Stack.Parameters stk)) ->
     exists input,
       submitted (fst (Multi.run w ctx stackName args)) = [input] /\
       let current := Stack.Parameters stk in
       let params := UpdateStackInput.Parameters input in
       length params = length current /\
       map Param.ParameterKey params = map Some (currentKeys current) /\
       forall i p, current !! i = Some p ->
         let k := aws.ToString (Param.ParameterKey p) in
         params !! i =
         Some match toReplace !! k with
              | Some v =>
                  if decide (k ∈ currentKeys (take i current))
                  then usePrevious k else explicitValue k v
              | None => usePrevious k
              end) /\
  (forall args stk,
     Single.validate args = None ->
     loadDefaultConfig w = None ->
     describeStacks w (Single.stack args) = inr [stk] ->
     Single.key args ∈ currentKeys (Stack.Parameters stk) ->
     (forall p, p ∈ Stack.Parameters stk ->
        aws.ToString (Param.ParameterKey p) = Single.key args ->
        aws.ToString (Param.ParameterValue p) <> Single.value args) ->
     exists input,
       submitted (fst (Single.run w ctx args)) = [input] /\
       let current := Stack.Parameters stk in
       let params := UpdateStackInput.Parameters input in
       params =
         map usePrevious
           (filter (fun k => k <> Single.key args) (currentKeys current))
         ++ [explicitValue (Single.key args) (Single.value args)] /\
       (NoDup (currentKeys current) -> length params = length current)).
Proof.
  split.
  - intros stackName args toReplace stk Hname Hparse Hne Hcfg Hdesc Hsub.
    destruct (Multi.collectParams (Stack.Parameters stk) toReplace [])
      as [params left] eqn:Hcp.
    assert (Hleft : left = ∅).
    { apply map_eq. intros k. rewrite lookup_empty.
      change left with (snd (params, left)).
      rewrite <- Hcp, collectParams_leftover.
      destruct (decide (k ∈ currentKeys (Stack.Parameters stk))) as [_|Hn];
        [reflexivity|].
      destruct (toReplace !! k) eqn:Hk; [|reflexivity].
      exfalso. apply Hn, Hsub. rewrite Hk. eauto. }
    assert (Hsize : (size toReplace =? 0)%nat = false).
    { apply Nat.eqb_neq. intros Hz. apply Hne, map_size_empty_iff, Hz. }
    exists (UpdateStackInput.mk (Some stackName) (Some (newToken w)) (Some true)
              params (Stack.Capabilities stk) (Stack.NotificationARNs stk)).
    split.
    + unfold Multi.run. apply String.eqb_neq in Hname.
      rewrite Hname, Hparse, Hsize, Hcfg, Hdesc, Hcp, Hleft, map_size_empty.
      cbn [Nat.eqb negb].
      rewrite (submitted_bind_Cont _ _ tt (snd_debugf _ _ _)), submitted_debugf.
      rewrite !submitted_bind_emit.
      rewrite (submitted_bind_Cont _ _ tt (snd_debugf _ _ _)), submitted_debugf.
      rewrite (submitted_bind_Cont _ _ tt (snd_debugParams _ _)),
        submitted_debugParams.
      rewrite submitted_bind_emit. cbn [submitted flat_map app].
      f_equal.
      destruct (updateStack w _); [reflexivity|].
      rewrite submitted_bind_emit. cbn [submitted flat_map app].
      apply submitted_poll. intros evt. apply submitted_Multi_scanEvent.
    + cbn [UpdateStackInput.Parameters]. cbn zeta.
      change params with (fst (params, left)). rewrite <- Hcp.
      split; [apply collectParams_length|].
      split; [apply collectParams_keys|].
      intros i p Hi. apply collectParams_lookup. exact Hi.
  - intros args stk Hval Hcfg Hdesc Hin Hdiff.
    pose proof (Single_collectParams_spec args (Stack.Parameters stk) [] false
                  Hdiff) as Hcp.
    rewrite (bool_decide_eq_true_2 _ Hin) in Hcp. cbn [orb app] in Hcp.
    eexists. split; [|split].
    + unfold Single.run. rewrite Hval, Hcfg, Hdesc, Hcp. cbn [negb].
      rewrite !submitted_bind_emit. cbn [submitted flat_map app].
      f_equal.
      destruct (updateStack w _); [reflexivity|].
      rewrite submitted_bind_emit. cbn [submitted flat_map app].
      apply submitted_poll. intros evt. apply submitted_Single_scanEvent.
    + reflexivity.
    + intros Hnodup. cbn [UpdateStackInput.Parameters].
      rewrite length_app, length_map. cbn [length].
      rewrite Nat.add_1_r, (length_filter_once _ _ Hnodup Hin).
      unfold currentKeys. apply length_map.
Qed.

Lemma reconciled_payload_witness :
  exists input,
    submitted (fst (Multi.run (exWorld None []) Background "prod"
                      ["ImageTag=v2"])) = [input] /\
    let current := Stack.Parameters exStack in
    let params := UpdateStackInput.Parameters input in
    length params = length current /\
    map Param.ParameterKey params = map Some (currentKeys current) /\
    forall i p, current !! i = Some p ->
      let k := aws.ToString (Param.ParameterKey p) in
      params !! i =
      Some match ({["ImageTag" := "v2"]} : gmap string string) !! k with
           | Some v =>
               if decide (k ∈ currentKeys (take i current))
               then usePrevious k else explicitValue k v
           | None => usePrevious k
           end.
Proof.
  apply (proj1 (reconciled_payload (exWorld None []) Background)).
  - discriminate.
  - vm_compute. reflexivity.
  - intros H. apply (f_equal (fun m => m !! "ImageTag")) in H.
    vm_compute in H. discriminate.
  - reflexivity.
  - reflexivity.
  - intros k [v Hk]. apply lookup_singleton_Some in Hk as [<- _].
    vm_compute. right. left.
Defined.

(** End-to-end scenario A. *)
Example scenario_A :
  map UpdateStackInput.Parameters
    (submitted (fst (Multi.run (exWorld None [[inr [exComplete]]]) Background
                       "prod" ["ImageTag=v2"])))
  = [[usePrevious "Env"; explicitValue "ImageTag" "v2"]] /\
  Multi.main (exWorld None [[inr [exComplete]]]) "prod" ["ImageTag=v2"]
  = (fst (Multi.run (exWorld None [[inr [exComplete]]]) Background
            "prod" ["ImageTag=v2"]),
     Exit 0).
Proof. split; vm_compute; reflexivity. Qed.

(** ** From a successful submission to the monitor *)

Lemma collectParams_all_matched current (toReplace : gmap string string) :
  (forall k, is_Some (toReplace !! k) -> k ∈ currentKeys current) ->
  snd (Multi.collectParams current toReplace []) = ∅.
Proof.
  intros Hsub. apply map_eq. intros k.
  rewrite lookup_empty, collectParams_leftover.
  destruct (decide (k ∈ currentKeys current)) as [_|Hn]; [reflexivity|].
  destruct (toReplace !! k) eqn:Hk; [|reflexivity].
  exfalso. apply Hn, Hsub. rewrite Hk. eauto.
Qed.

(** Once UpdateStack accepted the payload, [run] returns what the
    polling loop returns, with this run's token and the cutoff one hour
    before the start of the monitor. *)
Lemma Multi_run_polls w ctx stackName args toReplace stk :
  stackName <> "" ->
  Multi.parseKvs (Multi.argsOrInput w args) = inr toReplace ->
  toReplace <> ∅ ->
  loadDefaultConfig w = None ->
  describeStacks w stackName = inr [stk] ->
  (forall k, is_Some (toReplace !! k) -> k ∈ currentKeys (Stack.Parameters stk)) ->
  (forall input, updateStack w input = None) ->
  snd (Multi.run w ctx stackName args) =
  snd (poll (Multi.scanEvent w stackName (newToken w) (timeNow w - Hour)%Z)
         stackName ctx (stackEvents w)).
Proof.
  intros Hname Hparse Hne Hcfg Hdesc Hsub Hupd.
  pose proof (collectParams_all_matched _ _ Hsub) as Hleft.
  destruct (Multi.collectParams (Stack.Parameters stk) toReplace [])
    as [params left] eqn:Hcp.
  cbn [snd] in Hleft. subst left.
  assert (Hsize : (size toReplace =? 0)%nat = false).
  { apply Nat.eqb_neq. intros Hz. apply Hne, map_size_empty_iff, Hz. }
  unfold Multi.run. apply String.eqb_neq in Hname.
  rewrite Hname, Hparse, Hsize, Hcfg, Hdesc, Hcp, map_size_empty.
  cbn [Nat.eqb negb].
  rewrite (snd_bind_Cont _ _ tt (snd_debugf _ _ _)), !snd_bind_emit.
  rewrite (snd_bind_Cont _ _ tt (snd_debugf _ _ _)).
  rewrite (snd_bind_Cont _ _ tt (snd_debugParams _ _)), snd_bind_emit.
  rewrite Hupd, snd_bind_emit. reflexivity.
Qed.

Lemma Single_run_polls w ctx args stk :
  Single.validate args = None ->
  loadDefaultConfig w = None ->
  describeStacks w (Single.stack args) = inr [stk] ->
  Single.key args ∈ currentKeys (Stack.Parameters stk) ->
  (forall p, p ∈ Stack.Parameters stk ->
     aws.ToString (Param.ParameterKey p) = Single.key args ->
     aws.ToString (Param.ParameterValue p) <> Single.value args) ->
  (forall input, updateStack w input = None) ->
  snd (Single.run w ctx args) =
  snd (poll (Single.scanEvent w args (newToken w) (timeNow w - Hour)%Z)
         (Single.stack args) ctx (stackEvents w)).
Proof.
  intros Hval Hcfg Hdesc Hin Hdiff Hupd.
  pose proof (Single_collectParams_spec args (Stack.Parameters stk) [] false
                Hdiff) as Hcp.
  rewrite (bool_decide_eq_true_2 _ Hin) in Hcp. cbn [orb app] in Hcp.
  unfold Single.run. rewrite Hval, Hcfg, Hdesc, Hcp. cbn [negb].
  rewrite !snd_bind_emit, Hupd, snd_bind_emit. reflexivity.
Qed.

(** End-to-end scenario D, through [run]. *)
Example scenario_D :
  snd (Multi.run (exWorld None [[inr [exForeign]];
                                [inr [exCancelled; exFailed; exRolledBack]]])
         Background "prod" ["ImageTag=v2"])
  = Return (Some (fmtErrorf "%v: %s"
                    [OStr "UPDATE_FAILED"; OStr "Invalid image tag"])).
Proof. vm_compute. reflexivity. Qed.

(** ** Rejections before anything is submitted *)

(** C10: in the multi-parameter program an input that parses to the
    empty mapping makes [run] return the "empty parameters list" error
    with nothing called and nothing logged. *)
Theorem run_empty_parameters w ctx stackName args :
  stackName <> "" ->
  Multi.parseKvs (Multi.argsOrInput w args) = inr ∅ ->
  Multi.run w ctx stackName args =
    ([], Return (Some (errorsNew "empty parameters list"))).
Proof.
  intros Hname Hparse. unfold Multi.run.
  apply String.eqb_neq in Hname. rewrite Hname, Hparse.
  rewrite map_size_empty. reflexivity.
Qed.

Lemma run_empty_parameters_witness :
  Multi.run (mkWorld false "" None (fun _ => inr []) (fun _ => None)
               (fun _ => "000"%char) 0 [])
    Background "prod" [""; "  "] =
    ([], Return (Some (errorsNew "empty parameters list"))).
Proof.
  apply run_empty_parameters; [discriminate|vm_compute; reflexivity].
Defined.

(** The parse of such an input does succeed: lines that are all blank
    give the empty mapping. *)
Lemma parseKvs_blank_lines lines :
  Forall (fun l => strings.TrimSpace l = "") lines ->
  Multi.parseKvs lines = inr ∅.
Proof. apply parseKvs_from_blank. Qed.

(** An entry with the requested key and the requested value stops the
    single-parameter loop, wherever it stands. *)
Lemma Single_collectParams_already_set args current : forall params seenKey p,
  p ∈ current ->
  aws.ToString (Param.ParameterKey p) = Single.key args ->
  aws.ToString (Param.ParameterValue p) = Single.value args ->
  Single.collectParams args current params seenKey = inl errAlreadySet.
Proof.
  induction current as [|q current IH]; intros params seenKey p Hin Hk Hv.
  { inversion Hin. }
  simpl.
  destruct ((aws.ToString (Param.ParameterKey q) =? Single.key args)%string
            && (aws.ToString (Param.ParameterValue q) =? Single.value args)%string)
    eqn:Hq; [reflexivity|].
  assert (Hin' : p ∈ current).
  { apply elem_of_cons in Hin as [->|Hin]; [|exact Hin].
    rewrite Hk, Hv, !String.eqb_refl in Hq. discriminate. }
  destruct (aws.ToString (Param.ParameterKey q) =? Single.key args)%string;
    eapply IH; eassumption.
Qed.

(** C8: in the single-parameter program, when the stack already holds
    the requested value under the requested key, [run] returns
    [errAlreadySet] after DescribeStacks, UpdateStack is never called, and
    [main] prints the error as a warning and ends with status 0. *)
Theorem main_already_set w args stk p :
  Single.validate args = None ->
  loadDefaultConfig w = None ->
  describeStacks w (Single.stack args) = inr [stk] ->
  p ∈ Stack.Parameters stk ->
  aws.ToString (Param.ParameterKey p) = Single.key args ->
  aws.ToString (Param.ParameterValue p) = Single.value args ->
  (forall ctx, Single.run w ctx args =
     ([CallLoadDefaultConfig; CallDescribeStacks (Single.stack args)],
      Return (Some errAlreadySet))) /\
  Single.main w args =
    ([CallLoadDefaultConfig; CallDescribeStacks (Single.stack args);
      LogPrint [LStr (githubWarnPrefix w); LErr errAlreadySet]],
     Exit 0).
Proof.
  intros Hval Hcfg Hdesc Hin Hk Hv.
  assert (Hrun : forall ctx, Single.run w ctx args =
     ([CallLoadDefaultConfig; CallDescribeStacks (Single.stack args)],
      Return (Some errAlreadySet))).
  { intros ctx. unfold Single.run. rewrite Hval, Hcfg, Hdesc.
    rewrite (Single_collectParams_already_set args _ [] false p Hin Hk Hv).
    reflexivity. }
  split; [exact Hrun|].
  unfold Single.main. rewrite Hrun. reflexivity.
Qed.

Lemma main_already_set_witness :
  Single.main
    (mkWorld true "" None
       (fun _ => inr [Stack.mk [Param.mk (Some "Env") (Some "prod") None;
                                Param.mk (Some "ImageTag") (Some "v1") None]
                        [] []])
       (fun _ => None) (fun _ => "000"%char) 0 [])
    (Single.mkArgs "prod" "ImageTag" "v1") =
    ([CallLoadDefaultConfig; CallDescribeStacks "prod";
      LogPrint [LStr "::warning::"; LErr errAlreadySet]],
     Exit 0).
Proof.
  refine (proj2 (main_already_set _ (Single.mkArgs "prod" "ImageTag" "v1") _
                   (Param.mk (Some "ImageTag") (Some "v1") None)
                   _ _ _ _ _ _));
    try reflexivity.
  repeat constructor.
Defined.

(** ** Classification of a failed submission *)



(** Any other error of the call is fatal, a differently worded
    validation error included. *)
Example main_submission_failure_fatal :
  snd (Multi.main (exWorld (Some (APIError "ValidationError"
                                    "Stack:prod is in UPDATE_IN_PROGRESS state"))
                     [])
         "prod" ["ImageTag=v2"]) = Exit 1 /\
  snd (Single.main (exWorld (Some (OtherError "connection reset")) [])
         (Single.mkArgs "prod" "ImageTag" "v2")) = Exit 1.
Proof. split; vm_compute; reflexivity. Qed.

(** * Further properties of the code *)

(** ** [parseKvs]: what a successful parse holds, and when it succeeds *)

Lemma lineKeys_elem lines k :
  k ∈ lineKeys lines <-> exists l v, l ∈ lines /\ parseLine l = Pair k v.
Proof.
  induction lines as [|l0 lines IH]; cbn [lineKeys].
  - split; [inversion 1|]. intros (l & v & Hl & _). inversion Hl.
  - destruct (parseLine l0) as [|err|k0 v0] eqn:Hl0.
    + rewrite IH. split; intros (l & v & Hl & Hp).
      * exists l, v. split; [right; exact Hl|exact Hp].
      * apply elem_of_cons in Hl as [->|Hl]; [congruence|eauto].
    + rewrite IH. split; intros (l & v & Hl & Hp).
      * exists l, v. split; [right; exact Hl|exact Hp].
      * apply elem_of_cons in Hl as [->|Hl]; [congruence|eauto].
    + rewrite elem_of_cons, IH. split.
      * intros [->|(l & v & Hl & Hp)].
        -- exists l0, v0. split; [left|exact Hl0].
        -- exists l, v. split; [right; exact Hl|exact Hp].
      * intros (l & v & Hl & Hp).
        apply elem_of_cons in Hl as [->|Hl]; [left; congruence|right; eauto].
Qed.

Lemma parseKvs_from_ok lines : forall out m,
  Multi.parseKvs_from out lines = inr m ->
  Forall wellFormedOrBlank lines /\
  NoDup (lineKeys lines) /\
  (forall k, k ∈ lineKeys lines -> out !! k = None) /\
  (forall k v, m !! k = Some v <->
     out !! k = Some v \/ exists l, l ∈ lines /\ parseLine l = Pair k v) /\
  size m = (size out + length (lineKeys lines))%nat.
Proof.
  induction lines as [|l0 lines IH]; intros out m H.
  - inversion H; subst m. cbn [lineKeys length].
    split; [constructor|]. split; [constructor|]. split; [inversion 1|].
    split; [|lia].
    intros k v. split; [auto|]. intros [?|(l & Hl & _)]; [assumption|inversion Hl].
  - rewrite parseKvs_from_cons in H. cbn [lineKeys].
    destruct (parseLine l0) as [|err|k0 v0] eqn:Hl0; [|discriminate|].
    + destruct (IH _ _ H) as (Hwf & Hnd & Hfree & Hlook & Hsize).
      split; [constructor; [unfold wellFormedOrBlank; rewrite Hl0; exact I|exact Hwf]|].
      split; [exact Hnd|]. split; [exact Hfree|]. split; [|exact Hsize].
      intros k v. rewrite Hlook. split; intros [Ho|(l & Hl & Hp)]; auto.
      * right. exists l. split; [right; exact Hl|exact Hp].
      * apply elem_of_cons in Hl as [->|Hl]; [congruence|right; eauto].
    + destruct (out !! k0) as [?|] eqn:Hk0; [discriminate|].
      destruct (IH _ _ H) as (Hwf & Hnd & Hfree & Hlook & Hsize).
      assert (Hk0' : k0 ∉ lineKeys lines).
      { intros Hin. apply Hfree in Hin. rewrite lookup_insert_eq in Hin.
        discriminate. }
      split; [constructor; [unfold wellFormedOrBlank; rewrite Hl0; exact I|exact Hwf]|].
      split; [constructor; assumption|].
      split.
      { intros k [->|Hin]%elem_of_cons; [exact Hk0|].
        specialize (Hfree k Hin).
        destruct (decide (k0 = k)) as [->|Hne]; [contradiction|].
        rewrite lookup_insert_ne in Hfree by exact Hne. exact Hfree. }
      split.
      { intros k v. rewrite Hlook. split.
        - intros [Ho|(l & Hl & Hp)].
          + destruct (decide (k0 = k)) as [->|Hne].
            * rewrite lookup_insert_eq in Ho. inversion Ho; subst v0.
              right. exists l0. split; [left|exact Hl0].
            * rewrite lookup_insert_ne in Ho by exact Hne. left. exact Ho.
          + right. exists l. split; [right; exact Hl|exact Hp].
        - intros [Ho|(l & Hl & Hp)].
          + left. rewrite lookup_insert_ne by congruence. exact Ho.
          + apply elem_of_cons in Hl as [->|Hl]; [|right; eauto].
            rewrite Hl0 in Hp. inversion Hp; subst. left.
            apply lookup_insert_eq. }
      rewrite Hsize, map_size_insert_None by exact Hk0. cbn [length]. lia.
Qed.

Lemma parseKvs_ok lines m :
  Multi.parseKvs lines = inr m ->
  Forall wellFormedOrBlank lines /\
  NoDup (lineKeys lines) /\
  (forall k v, m !! k = Some v <->
     exists l, l ∈ lines /\ parseLine l = Pair k v) /\
  size m = length (lineKeys lines).
Proof.
  intros H. destruct (parseKvs_from_ok lines ∅ m H)
    as (Hwf & Hnd & _ & Hlook & Hsize).
  split; [exact Hwf|]. split; [exact Hnd|]. split.
  - intros k v. rewrite Hlook, lookup_empty. split; [intros [?|?]|]; auto.
    discriminate.
  - rewrite Hsize, map_size_empty. reflexivity.
Qed.

(** A failing parse stops at one line: the lines before it parse, and it
    is malformed or carries a key that is already in the map. *)
Lemma parseKvs_from_fails lines : forall out err,
  Multi.parseKvs_from out lines = inl err ->
  exists n l m,
    lines !! n = Some l /\
    Multi.parseKvs_from out (take n lines) = inr m /\
    (parseLine l = Malformed err \/
     exists k v, parseLine l = Pair k v /\ is_Some (m !! k)
                 /\ err = duplicateKeyError k).
Proof.
  induction lines as [|l0 lines IH]; intros out err H; [discriminate|].
  rewrite parseKvs_from_cons in H.
  destruct (parseLine l0) as [|e|k0 v0] eqn:Hl0.
  - destruct (IH _ _ H) as (n & l & m & Hn & Hm & Hwhy).
    exists (S n), l, m. split; [exact Hn|]. split; [|exact Hwhy].
    cbn [take]. rewrite parseKvs_from_cons, Hl0. exact Hm.
  - inversion H; subst e. exists 0%nat, l0, out.
    split; [reflexivity|]. split; [reflexivity|]. left. exact Hl0.
  - destruct (out !! k0) as [v|] eqn:Hk0.
    + inversion H; subst err. exists 0%nat, l0, out.
      split; [reflexivity|]. split; [reflexivity|]. right.
      exists k0, v0. rewrite Hk0. eauto.
    + destruct (IH _ _ H) as (n & l & m & Hn & Hm & Hwhy).
      exists (S n), l, m. split; [exact Hn|]. split; [|exact Hwhy].
      cbn [take]. rewrite parseKvs_from_cons, Hl0, Hk0. exact Hm.
Qed.

(** C9 (amended): whenever the same trimmed key stands on two
    well-formed non-blank lines, whatever their values, [parseKvs]
    fails, and it fails at the first offending line, which stands no
    later than the second of the two lines: every line before it is
    blank or well-formed and their keys are distinct, and the error is
    the duplicate-key error naming that line's key if the line repeats
    the key of an earlier line, or that line's format error if the line
    is malformed. In particular the error is the duplicate-key error
    whenever no malformed line comes before the second of the two
    lines. *)
Theorem parseKvs_duplicate_key lines i j l1 l2 k v1 v2 :
  (i < j)%nat ->
  lines !! i = Some l1 -> parseLine l1 = Pair k v1 ->
  lines !! j = Some l2 -> parseLine l2 = Pair k v2 ->
  (exists err n l,
     Multi.parseKvs lines = inl err /\
     (n <= j)%nat /\ lines !! n = Some l /\
     Forall wellFormedOrBlank (take n lines) /\
     NoDup (lineKeys (take n lines)) /\
     (parseLine l = Malformed err \/
      exists k' v', parseLine l = Pair k' v' /\
                    k' ∈ lineKeys (take n lines) /\
                    err = duplicateKeyError k')) /\
  (Forall wellFormedOrBlank (take j lines) ->
   exists k', Multi.parseKvs lines = inl (duplicateKeyError k')).
Proof.
  intros Hij Hi Hp1 Hj Hp2.
  assert (Hrep : forall ls, ls !! i = Some l1 -> ls !! j = Some l2 ->
            (exists err, Multi.parseKvs ls = inl err) /\
            (Forall wellFormedOrBlank (take j ls) ->
             exists k', Multi.parseKvs ls = inl (duplicateKeyError k'))).
  { intros ls Hi' Hj'. apply (parseKvs_from_repeat ls ∅ j l2 k v2 Hj' Hp2).
    right. exists i, l1, v1. auto. }
  destruct (Hrep lines Hi Hj) as [[err Herr] Hdup].
  split; [|exact Hdup].
  destruct (parseKvs_from_fails lines ∅ err Herr) as (n & l & m & Hn & Hm & Hwhy).
  assert (Hnj : (n <= j)%nat).
  { destruct (le_lt_dec n j) as [|Hlt]; [assumption|exfalso].
    destruct (Hrep (take n lines)) as [[err' Herr'] _].
    - rewrite lookup_take_lt by lia. exact Hi.
    - rewrite lookup_take_lt by lia. exact Hj.
    - unfold Multi.parseKvs in Herr'. rewrite Hm in Herr'. discriminate. }
  destruct (parseKvs_ok (take n lines) m Hm) as (Hwf & Hnd & Hlook & _).
  exists err, n, l. repeat (split; [assumption|]).
  destruct Hwhy as [Hbad|(k' & v' & Hp & [v Hv] & ->)]; [left; exact Hbad|].
  right. exists k', v'. split; [exact Hp|]. split; [|reflexivity].
  apply lineKeys_elem. apply Hlook in Hv as (l' & Hl' & Hp'). eauto.
Qed.

Lemma parseKvs_duplicate_key_witness :
  (exists err n l,
     Multi.parseKvs ["k = v"; ""; "a=1"; " a=2"; "junk"; " k=w "] = inl err /\
     (n <= 5)%nat /\
     ["k = v"; ""; "a=1"; " a=2"; "junk"; " k=w "] !! n = Some l /\
     Forall wellFormedOrBlank
       (take n ["k = v"; ""; "a=1"; " a=2"; "junk"; " k=w "]) /\
     NoDup (lineKeys (take n ["k = v"; ""; "a=1"; " a=2"; "junk"; " k=w "])) /\
     (parseLine l = Malformed err \/
      exists k' v', parseLine l = Pair k' v' /\
        k' ∈ lineKeys (take n ["k = v"; ""; "a=1"; " a=2"; "junk"; " k=w "]) /\
        err = duplicateKeyError k')) /\
  (Forall wellFormedOrBlank
     (take 5 ["k = v"; ""; "a=1"; " a=2"; "junk"; " k=w "]) ->
   exists k',
     Multi.parseKvs ["k = v"; ""; "a=1"; " a=2"; "junk"; " k=w "]
     = inl (duplicateKeyError k')).
Proof.
  apply (parseKvs_duplicate_key
           ["k = v"; ""; "a=1"; " a=2"; "junk"; " k=w "] 0 5
           "k = v" " k=w " "k" "v" "w");
    [lia|reflexivity|vm_compute; reflexivity|reflexivity
    |vm_compute; reflexivity].
Defined.

(** The first offending line decides, also behind a repeated key. *)
Example parseKvs_duplicate_before_malformed :
  Multi.parseKvs ["k=v"; "k=w"; "junk"; "k=x"] = inl (duplicateKeyError "k") /\
  Multi.parseKvs ["k=v"; "a=1"; "a=2"; "junk"; "k=w"]
    = inl (duplicateKeyError "a").
Proof. split; vm_compute; reflexivity. Qed.

(** X1: a successful parse read only blank and well-formed lines with
    pairwise distinct keys, and the mapping holds exactly the pairs of
    the well-formed lines: one entry per non-blank line. *)
Theorem parseKvs_success lines m :
  Multi.parseKvs lines = inr m ->
  Forall wellFormedOrBlank lines /\
  NoDup (lineKeys lines) /\
  (forall k v, m !! k = Some v <->
     exists l, l ∈ lines /\ parseLine l = Pair k v) /\
  size m = length (lineKeys lines).
Proof. apply parseKvs_ok. Qed.

Lemma parseKvs_success_witness :
  Forall wellFormedOrBlank [" Env = prod "; ""; "ImageTag=v=2"] /\
  NoDup (lineKeys [" Env = prod "; ""; "ImageTag=v=2"]) /\
  (forall k v,
     (<["ImageTag" := "v=2"]> {["Env" := "prod"]} : gmap string string) !! k
       = Some v <->
     exists l, l ∈ [" Env = prod "; ""; "ImageTag=v=2"]
               /\ parseLine l = Pair k v) /\
  size (<["ImageTag" := "v=2"]> {["Env" := "prod"]} : gmap string string)
  = length (lineKeys [" Env = prod "; ""; "ImageTag=v=2"]).
Proof.
  apply parseKvs_success. vm_compute. reflexivity.
Defined.

Lemma parseKvs_from_total lines : forall out,
  Forall wellFormedOrBlank lines ->
  NoDup (lineKeys lines) ->
  (forall k, k ∈ lineKeys lines -> out !! k = None) ->
  exists m, Multi.parseKvs_from out lines = inr m.
Proof.
  induction lines as [|l0 lines IH]; intros out Hwf Hnd Hfree.
  - exists out. reflexivity.
  - rewrite parseKvs_from_cons. cbn [lineKeys] in Hnd, Hfree.
    inversion Hwf as [|? ? Hl0 Hwf']; subst.
    unfold wellFormedOrBlank in Hl0.
    destruct (parseLine l0) as [|err|k0 v0]; [|destruct Hl0|].
    + apply IH; assumption.
    + inversion Hnd as [|? ? Hnotin Hnd']; subst.
      rewrite (Hfree k0) by left.
      apply IH; [assumption..|].
      intros k Hin. rewrite lookup_insert_ne by (intros ->; contradiction).
      apply Hfree. right. exact Hin.
Qed.

(** X2: [parseKvs] succeeds exactly on the inputs whose lines are all
    blank or well-formed and whose well-formed lines carry pairwise
    distinct keys. *)
Theorem parseKvs_succeeds_iff lines :
  (exists m, Multi.parseKvs lines = inr m) <->
  Forall wellFormedOrBlank lines /\ NoDup (lineKeys lines).
Proof.
  split.
  - intros [m H]. destruct (parseKvs_ok lines m H) as (? & ? & _). auto.
  - intros [Hwf Hnd]. apply parseKvs_from_total; [assumption..|].
    intros k _. apply lookup_empty.
Qed.

Lemma parseKvs_succeeds_iff_witness :
  exists m, Multi.parseKvs ["a=1"; "  "; "b = 2"] = inr m.
Proof.
  apply (proj2 (parseKvs_succeeds_iff ["a=1"; "  "; "b = 2"])).
  split.
  - repeat constructor; vm_compute; exact I.
  - vm_compute. repeat constructor; intros H;
      repeat (inversion H as [|? ? ? H']; clear H; rename H' into H).
Defined.

Lemma parseLine_Pair_nonempty line k v :
  parseLine line = Pair k v -> k <> "" /\ v <> "".
Proof.
  unfold parseLine.
  destruct (strings.TrimSpace line =? "")%string; [discriminate|].
  destruct (strings.Cut (strings.TrimSpace line) "=") as [[k0 v0]|];
    [|discriminate].
  destruct (String.eqb_spec (strings.TrimSpace k0) "") as [|Hk];
    [discriminate|].
  destruct (String.eqb_spec (strings.TrimSpace v0) "") as [|Hv];
    [discriminate|].
  cbn [orb]. intros H; inversion H; subst. auto.
Qed.

(** X3: a parsed mapping never holds an empty key or an empty value. *)
Theorem parseKvs_nonempty lines m k v :
  Multi.parseKvs lines = inr m -> m !! k = Some v -> k <> "" /\ v <> "".
Proof.
  intros H Hk. destruct (parseKvs_ok lines m H) as (_ & _ & Hlook & _).
  apply Hlook in Hk as (l & _ & Hp). exact (parseLine_Pair_nonempty _ _ _ Hp).
Qed.

Lemma parseKvs_nonempty_witness : "Env" <> "" /\ "prod" <> "".
Proof.
  apply (parseKvs_nonempty ["Env=prod"] {["Env" := "prod"]} "Env" "prod");
    vm_compute; reflexivity.
Defined.

(** X4: blank lines do not count: taking them out, wherever they
    stand, leaves the result of the parse as it is. *)
Theorem parseKvs_skips_blank lines :
  Multi.parseKvs (filter (fun l => strings.TrimSpace l <> "") lines)
  = Multi.parseKvs lines.
Proof.
  unfold Multi.parseKvs. generalize (∅ : gmap string string).
  induction lines as [|l lines IH]; intros out; [reflexivity|].
  destruct (String.eqb_spec (strings.TrimSpace l) "") as [Hb|Hnb].
  - rewrite filter_cons_False by (intros H; apply H; exact Hb).
    rewrite IH. cbn [Multi.parseKvs_from]. rewrite Hb. reflexivity.
  - rewrite filter_cons_True by exact Hnb.
    cbn [Multi.parseKvs_from]. apply String.eqb_neq in Hnb. rewrite Hnb.
    destruct (strings.Cut (strings.TrimSpace l) "=") as [[k v]|];
      [|reflexivity].
    destruct (_ || _); [reflexivity|].
    destruct (out !! strings.TrimSpace k); [reflexivity|]. apply IH.
Qed.

Lemma parseKvs_from_prefix_error pre post err : forall out,
  Multi.parseKvs_from out pre = inl err ->
  Multi.parseKvs_from out (pre ++ post) = inl err.
Proof.
  induction pre as [|l pre IH]; intros out H; [discriminate|].
  cbn [app]. rewrite parseKvs_from_cons in *.
  destruct (parseLine l) as [|e|k v]; [apply IH; exact H|exact H|].
  destruct (out !! k); [exact H|apply IH; exact H].
Qed.

(** X5: the first offending line decides: once a list of lines fails,
    it fails with the same error whatever lines follow. *)
Theorem parseKvs_first_error pre post err :
  Multi.parseKvs pre = inl err -> Multi.parseKvs (pre ++ post) = inl err.
Proof. apply parseKvs_from_prefix_error. Qed.

Lemma parseKvs_first_error_witness :
  Multi.parseKvs (["k=v"; "junk"] ++ ["k=w"; "=x"]) =
  inl (fmtErrorf "wrong parameter format, want key=value pair: %q"
         [OStr "junk"]).
Proof. apply parseKvs_first_error. vm_compute. reflexivity. Defined.

(** ** [newToken]: the shape of the token *)

Lemma hexByte_app c s :
  hexByte c +:+ s =
  String (hexDigit (N_of_ascii c / 16))
    (String (hexDigit (N_of_ascii c mod 16)) s).
Proof. reflexivity. Qed.

Lemma hexByte_digits c :
  isHexDigit (hexDigit (N_of_ascii c / 16)) = true /\
  isHexDigit (hexDigit (N_of_ascii c mod 16)) = true /\
  ascii_of_N (16 * hexValue (hexDigit (N_of_ascii c / 16))
              + hexValue (hexDigit (N_of_ascii c mod 16))) = c.
Proof.
  destruct c as [[] [] [] [] [] [] [] []]; vm_compute; repeat split.
Qed.

Lemma hexEncodeToString_length b :
  String.length (hexEncodeToString b) = (2 * length b)%nat.
Proof.
  induction b as [|c b IH]; [reflexivity|].
  cbn [hexEncodeToString foldr]. rewrite hexByte_app.
  cbn [String.length length]. fold (hexEncodeToString b). rewrite IH. lia.
Qed.

Lemma hexEncodeToString_digits b :
  allChars isHexDigit (hexEncodeToString b) = true.
Proof.
  induction b as [|c b IH]; [reflexivity|].
  cbn [hexEncodeToString foldr]. rewrite hexByte_app. cbn [allChars].
  fold (hexEncodeToString b).
  destruct (hexByte_digits c) as (-> & -> & _). exact IH.
Qed.

(** Decoding the digits gives the bytes back. *)
Lemma hexDecode_hexEncodeToString b : hexDecode (hexEncodeToString b) = b.
Proof.
  induction b as [|c b IH]; [reflexivity|].
  cbn [hexEncodeToString foldr]. rewrite hexByte_app. cbn [hexDecode].
  fold (hexEncodeToString b).
  destruct (hexByte_digits c) as (_ & _ & ->). rewrite IH. reflexivity.
Qed.

(** X6: a token is the prefix "ucs-" followed by forty lower-case
    hexadecimal digits, forty-four bytes in all, whatever the random
    source gives. *)
Theorem newToken_format w :
  exists digits,
    newToken w = "ucs-" +:+ digits /\
    String.length digits = 40%nat /\
    allChars isHexDigit digits = true /\
    String.length (newToken w) = 44%nat.
Proof.
  exists (hexEncodeToString (map (randRead w) (seq 0 20))).
  assert (Hlen : String.length
                   (hexEncodeToString (map (randRead w) (seq 0 20))) = 40%nat).
  { rewrite hexEncodeToString_length, length_map, length_seq. reflexivity. }
  split; [reflexivity|]. split; [exact Hlen|].
  split; [apply hexEncodeToString_digits|].
  unfold newToken.
  change ("ucs-" +:+ ?s) with (String "u" (String "c" (String "s" (String "-" s)))).
  cbn [String.length]. rewrite Hlen. reflexivity.
Qed.

(** X7: the token determines the twenty random bytes it was made of:
    two runs have the same token only if their random sources gave the
    same twenty bytes. *)
Theorem newToken_injective w1 w2 :
  newToken w1 = newToken w2 ->
  forall i, (i < 20)%nat -> randRead w1 i = randRead w2 i.
Proof.
  unfold newToken. intros H i Hi.
  apply (inj (String.app "ucs-")) in H.
  apply (f_equal hexDecode) in H.
  rewrite !hexDecode_hexEncodeToString in H.
  apply (f_equal (fun l => l !! i)) in H.
  rewrite !list_lookup_fmap, !lookup_seq_lt in H by exact Hi.
  cbn in H. inversion H. reflexivity.
Qed.

Lemma newToken_injective_witness :
  randRead (exWorld None []) 7 = randRead (exWorld (Some (OtherError "x")) []) 7.
Proof.
  apply (newToken_injective (exWorld None []) (exWorld (Some (OtherError "x")) []));
    [vm_compute; reflexivity|lia].
Defined.

(** ** [run] before the submission: arguments, DescribeStacks, errors *)

(** X8: an empty required argument ends the run before anything is
    called or logged: the single-parameter program wants a stack, a key
    and a value, the multi-parameter program a stack name; [main] then
    logs the error as fatal and exits with status 1. *)
Theorem run_rejects_empty_arguments w ctx :
  (forall args,
     Single.stack args = "" \/ Single.key args = "" \/ Single.value args = "" ->
     Single.run w ctx args =
       ([], Return (Some (errorsNew "stack, key, and value cannot be empty"))) /\
     Single.main w args =
       ([LogFatal [LStr (githubErrPrefix w);
                   LErr (errorsNew "stack, key, and value cannot be empty")]],
        Exit 1)) /\
  (forall args,
     Multi.run w ctx "" args =
       ([], Return (Some (errorsNew "stack name must be set"))) /\
     Multi.main w "" args =
       ([LogFatal [LStr (githubErrPrefix w);
                   LErr (errorsNew "stack name must be set")]],
        Exit 1)).
Proof.
  split.
  - intros args Hempty.
    assert (Hval : Single.validate args =
                   Some (errorsNew "stack, key, and value cannot be empty")).
    { unfold Single.validate.
      destruct Hempty as [-> | [-> | ->]]; cbn [String.eqb orb];
        rewrite ?orb_true_r; reflexivity. }
    assert (Hrun : forall c, Single.run w c args =
              ([], Return (Some (errorsNew "stack, key, and value cannot be empty")))).
    { intros c. unfold Single.run. rewrite Hval. reflexivity. }
    split; [apply Hrun|]. unfold Single.main. rewrite Hrun. reflexivity.
  - intros args. split; reflexivity.
Qed.

Lemma run_rejects_empty_arguments_witness :
  Single.run (exWorld None []) Background (Single.mkArgs "prod" "" "v2") =
  ([], Return (Some (errorsNew "stack, key, and value cannot be empty"))).
Proof.
  refine (proj1 (proj1 (run_rejects_empty_arguments (exWorld None []) Background)
                   (Single.mkArgs "prod" "" "v2") _)).
  right. left. reflexivity.
Defined.

(** The single-parameter program validates exactly non-emptiness. *)
Lemma Single_validate_None args :
  Single.validate args = None <->
  Single.stack args <> "" /\ Single.key args <> "" /\ Single.value args <> "".
Proof.
  unfold Single.validate.
  destruct (String.eqb_spec (Single.stack args) "") as [Hs|Hs];
    destruct (String.eqb_spec (Single.key args) "") as [Hk|Hk];
    destruct (String.eqb_spec (Single.value args) "") as [Hv|Hv];
    cbn [orb]; split; try discriminate; try (intros (? & ? & ?); contradiction);
    auto.
Qed.

(** X9: when DescribeStacks answers with any number of stacks other
    than one, the run ends there with the error that carries that
    number, and UpdateStack is not called. Both programs. *)
Theorem run_wants_one_stack w ctx Stacks :
  length Stacks <> 1%nat ->
  (forall stackName args toReplace,
     stackName <> "" ->
     Multi.parseKvs (Multi.argsOrInput w args) = inr toReplace ->
     toReplace <> ∅ ->
     loadDefaultConfig w = None ->
     describeStacks w stackName = inr Stacks ->
     Multi.run w ctx stackName args =
       (fst (debugf w "loaded parameters: %v" [LMap toReplace])
          ++ [CallLoadDefaultConfig; CallDescribeStacks stackName],
        Return (Some (fmtErrorf "DescribeStacks returned %d stacks, expected 1"
                        [OInt (Z.of_nat (length Stacks))])))) /\
  (forall args,
     Single.validate args = None ->
     loadDefaultConfig w = None ->
     describeStacks w (Single.stack args) = inr Stacks ->
     Single.run w ctx args =
       ([CallLoadDefaultConfig; CallDescribeStacks (Single.stack args)],
        Return (Some (fmtErrorf "DescribeStacks returned %d stacks, expected 1"
                        [OInt (Z.of_nat (length Stacks))])))).
Proof.
  intros Hlen. split.
  - intros stackName args toReplace Hname Hparse Hne Hcfg Hdesc.
    assert (Hsize : (size toReplace =? 0)%nat = false).
    { apply Nat.eqb_neq. intros Hz. apply Hne, map_size_empty_iff, Hz. }
    unfold Multi.run. apply String.eqb_neq in Hname.
    rewrite Hname, Hparse, Hsize, Hcfg, Hdesc.
    destruct Stacks as [|stk [|stk' Stacks]]; [|contradiction|];
      unfold debugf; destruct (underGithub w); reflexivity.
  - intros args Hval Hcfg Hdesc.
    unfold Single.run. rewrite Hval, Hcfg, Hdesc.
    destruct Stacks as [|stk [|stk' Stacks]]; [|contradiction|]; reflexivity.
Qed.

Lemma run_wants_one_stack_witness :
  Single.run (mkWorld false "" None (fun _ => inr [exStack; exStack])
                (fun _ => None) (fun _ => "000"%char) 0 [])
    Background (Single.mkArgs "prod" "ImageTag" "v2") =
  ([CallLoadDefaultConfig; CallDescribeStacks "prod"],
   Return (Some (fmtErrorf "DescribeStacks returned %d stacks, expected 1"
                   [OInt 2]))).
Proof.
  refine (proj2 (run_wants_one_stack
                   (mkWorld false "" None (fun _ => inr [exStack; exStack])
                      (fun _ => None) (fun _ => "000"%char) 0 [])
                   Background [exStack; exStack] _)
            (Single.mkArgs "prod" "ImageTag" "v2") _ _ _);
    [discriminate|reflexivity..].
Defined.

(** X10: an error of LoadDefaultConfig or of DescribeStacks is
    returned as it is, and the run makes no further call. Both
    programs. *)
Theorem run_returns_setup_errors w ctx e :
  (forall stackName args toReplace,
     stackName <> "" ->
     Multi.parseKvs (Multi.argsOrInput w args) = inr toReplace ->
     toReplace <> ∅ ->
     (loadDefaultConfig w = Some e ->
      Multi.run w ctx stackName args =
        (fst (debugf w "loaded parameters: %v" [LMap toReplace])
           ++ [CallLoadDefaultConfig],
         Return (Some (sdkError e)))) /\
     (loadDefaultConfig w = None ->
      describeStacks w stackName = inl e ->
      Multi.run w ctx stackName args =
        (fst (debugf w "loaded parameters: %v" [LMap toReplace])
           ++ [CallLoadDefaultConfig; CallDescribeStacks stackName],
         Return (Some (sdkError e))))) /\
  (forall args,
     Single.validate args = None ->
     (loadDefaultConfig w = Some e ->
      Single.run w ctx args =
        ([CallLoadDefaultConfig], Return (Some (sdkError e)))) /\
     (loadDefaultConfig w = None ->
      describeStacks w (Single.stack args) = inl e ->
      Single.run w ctx args =
        ([CallLoadDefaultConfig; CallDescribeStacks (Single.stack args)],
         Return (Some (sdkError e))))).
Proof.
  split.
  - intros stackName args toReplace Hname Hparse Hne.
    assert (Hsize : (size toReplace =? 0)%nat = false).
    { apply Nat.eqb_neq. intros Hz. apply Hne, map_size_empty_iff, Hz. }
    apply String.eqb_neq in Hname. split.
    + intros Hcfg. unfold Multi.run. rewrite Hname, Hparse, Hsize, Hcfg.
      unfold debugf; destruct (underGithub w); reflexivity.
    + intros Hcfg Hdesc. unfold Multi.run.
      rewrite Hname, Hparse, Hsize, Hcfg, Hdesc.
      unfold debugf; destruct (underGithub w); reflexivity.
  - intros args Hval. split.
    + intros Hcfg. unfold Single.run. rewrite Hval, Hcfg. reflexivity.
    + intros Hcfg Hdesc. unfold Single.run. rewrite Hval, Hcfg, Hdesc.
      reflexivity.
Qed.

Lemma run_returns_setup_errors_witness :
  Single.run (mkWorld false "" None (fun _ => inl (OtherError "access denied"))
                (fun _ => None) (fun _ => "000"%char) 0 [])
    Background (Single.mkArgs "prod" "ImageTag" "v2") =
  ([CallLoadDefaultConfig; CallDescribeStacks "prod"],
   Return (Some (sdkError (OtherError "access denied")))).
Proof.
  refine (proj2 (proj2 (run_returns_setup_errors
                   (mkWorld false "" None
                      (fun _ => inl (OtherError "access denied"))
                      (fun _ => None) (fun _ => "000"%char) 0 [])
                   Background (OtherError "access denied"))
            (Single.mkArgs "prod" "ImageTag" "v2") _) _ _);
    reflexivity.
Defined.

(** X11: the single-parameter program, asked for a key the stack does
    not define, returns "stack has no parameter with the given key"
    after DescribeStacks; UpdateStack is not called and [main] exits
    with status 1. *)
Theorem Single_run_unknown_key w args stk :
  Single.validate args = None ->
  loadDefaultConfig w = None ->
  describeStacks w (Single.stack args) = inr [stk] ->
  Single.key args ∉ currentKeys (Stack.Parameters stk) ->
  (forall ctx, Single.run w ctx args =
     ([CallLoadDefaultConfig; CallDescribeStacks (Single.stack args)],
      Return (Some (errorsNew "stack has no parameter with the given key")))) /\
  Single.main w args =
    ([CallLoadDefaultConfig; CallDescribeStacks (Single.stack args);
      LogFatal [LStr (githubErrPrefix w);
                LErr (errorsNew "stack has no parameter with the given key")]],
     Exit 1).
Proof.
  intros Hval Hcfg Hdesc Hnotin.
  assert (Hcp : Single.collectParams args (Stack.Parameters stk) [] false =
                inr (map usePrevious (currentKeys (Stack.Parameters stk)), false)).
  { rewrite Single_collectParams_spec.
    - rewrite (bool_decide_eq_false_2 _ Hnotin), filter_absent_key by exact Hnotin.
      reflexivity.
    - intros p Hp Hk. exfalso. apply Hnotin. rewrite <- Hk.
      unfold currentKeys. apply list_elem_of_fmap. exists p. auto. }
  assert (Hrun : forall ctx, Single.run w ctx args =
     ([CallLoadDefaultConfig; CallDescribeStacks (Single.stack args)],
      Return (Some (errorsNew "stack has no parameter with the given key")))).
  { intros ctx. unfold Single.run. rewrite Hval, Hcfg, Hdesc, Hcp. reflexivity. }
  split; [exact Hrun|]. unfold Single.main. rewrite Hrun. reflexivity.
Qed.

Lemma Single_run_unknown_key_witness :
  Single.main (exWorld None []) (Single.mkArgs "prod" "Region" "us-east-1") =
  ([CallLoadDefaultConfig; CallDescribeStacks "prod";
    LogFatal [LStr "";
              LErr (errorsNew "stack has no parameter with the given key")]],
   Exit 1).
Proof.
  refine (proj2 (Single_run_unknown_key (exWorld None [])
                   (Single.mkArgs "prod" "Region" "us-east-1") exStack _ _ _ _));
    try reflexivity.
  vm_compute. intros H.
  repeat (inversion H as [|? ? ? H']; clear H; rename H' into H).
Defined.

(** ** The submission itself *)

(** X12: a run calls UpdateStack at most once, and when it does the
    request names the stack, carries this run's token, asks to reuse the
    template, and hands back the capabilities and the notification
    targets of the one stack DescribeStacks returned. Both programs. *)
Theorem run_submits_once_preserving w ctx :
  (forall stackName args,
     submitted (fst (Multi.run w ctx stackName args)) = [] \/
     exists stk params,
       describeStacks w stackName = inr [stk] /\
       submitted (fst (Multi.run w ctx stackName args)) =
         [UpdateStackInput.mk (Some stackName) (Some (newToken w)) (Some true)
            params (Stack.Capabilities stk) (Stack.NotificationARNs stk)]) /\
  (forall args,
     submitted (fst (Single.run w ctx args)) = [] \/
     exists stk params,
       describeStacks w (Single.stack args) = inr [stk] /\
       submitted (fst (Single.run w ctx args)) =
         [UpdateStackInput.mk (Some (Single.stack args)) (Some (newToken w))
            (Some true) params (Stack.Capabilities stk)
            (Stack.NotificationARNs stk)]).
Proof.
  split.
  - intros stackName args. unfold Multi.run.
    destruct (stackName =? "")%string; [left; reflexivity|].
    destruct (Multi.parseKvs _) as [err|toReplace]; [left; reflexivity|].
    destruct (size toReplace =? 0)%nat; [left; reflexivity|].
    rewrite (submitted_bind_Cont _ _ tt (snd_debugf _ _ _)), submitted_debugf.
    rewrite submitted_bind_emit.
    destruct (loadDefaultConfig w); [left; reflexivity|].
    rewrite submitted_bind_emit.
    destruct (describeStacks w stackName) as [err|[|stk [|]]] eqn:Hdesc;
      try (left; reflexivity).
    destruct (Multi.collectParams _ _ _) as [params left'].
    destruct (negb _); [left; reflexivity|].
    right. exists stk, params. split; [reflexivity|].
    rewrite (submitted_bind_Cont _ _ tt (snd_debugf _ _ _)), submitted_debugf.
    rewrite (submitted_bind_Cont _ _ tt (snd_debugParams _ _)),
      submitted_debugParams.
    rewrite submitted_bind_emit. cbn [submitted flat_map app].
    f_equal.
    destruct (updateStack w _); [reflexivity|].
    rewrite submitted_bind_emit. cbn [submitted flat_map app].
    apply submitted_poll. intros evt. apply submitted_Multi_scanEvent.
  - intros args. unfold Single.run.
    destruct (Single.validate args); [left; reflexivity|].
    rewrite submitted_bind_emit.
    destruct (loadDefaultConfig w); [left; reflexivity|].
    rewrite submitted_bind_emit.
    destruct (describeStacks w (Single.stack args)) as [err|[|stk [|]]] eqn:Hdesc;
      try (left; reflexivity).
    destruct (Single.collectParams _ _ _ _) as [err|[params seenKey]];
      [left; reflexivity|].
    destruct (negb seenKey); [left; reflexivity|].
    right. eexists stk, _. split; [reflexivity|].
    rewrite submitted_bind_emit. cbn [submitted flat_map app].
    f_equal.
    destruct (updateStack w _); [reflexivity|].
    rewrite submitted_bind_emit. cbn [submitted flat_map app].
    apply submitted_poll. intros evt. apply submitted_Single_scanEvent.
Qed.

(** ** The monitor: cancellation, waiting, failing pages *)

Section PollContext.
Variable body : StackEvent.t -> M bool.
Variable stackName : string.

Lemma poll_Done_take n err : forall ticks,
  poll body stackName (Done n err) ticks
  = poll body stackName (Done n err) (take n ticks).
Proof.
  induction n as [|n IH]; intros ticks; [destruct ticks; reflexivity|].
  destruct ticks as [|pages ticks]; [reflexivity|].
  cbn [take poll tickCtx]. apply bind_ext. intros _. apply IH.
Qed.

Lemma poll_Done_idle n err : forall ticks,
  (n <= length ticks)%nat ->
  Forall (idleTick body stackName) (take n ticks) ->
  snd (poll body stackName (Done n err) ticks) = Return (Some (ctxError err)).
Proof.
  induction n as [|n IH]; intros ticks Hlen Hidle;
    [destruct ticks; reflexivity|].
  destruct ticks as [|pages ticks]; [simpl in Hlen; lia|].
  cbn [take] in Hidle. inversion Hidle as [|? ? Hp Hrest]; subst.
  cbn [poll tickCtx]. rewrite (snd_bind_Cont _ _ tt Hp).
  apply IH; [simpl in Hlen; lia|exact Hrest].
Qed.

Lemma poll_Background_idle ticks :
  Forall (idleTick body stackName) ticks ->
  snd (poll body stackName Background ticks) = Blocked.
Proof.
  induction 1 as [|pages ticks Hp _ IH]; [reflexivity|].
  cbn [poll tickCtx]. rewrite (snd_bind_Cont _ _ tt Hp). exact IH.
Qed.

Lemma scanEvents_failing_page ps1 e ps2 :
  Forall (passedPage body) ps1 ->
  snd (scanEvents body stackName (ps1 ++ inl e :: ps2))
  = Return (Some (sdkError e)).
Proof.
  induction 1 as [|pg ps1 Hpg _ IH]; cbn [app scanEvents];
    rewrite snd_bind_emit; [reflexivity|].
  destruct pg as [e'|evts]; [destruct Hpg|].
  rewrite (snd_bind_Cont _ _ true (scanPage_passes body evts Hpg)). exact IH.
Qed.
End PollContext.

(** X13: once the context is done no tick is served any more: a run
    whose context is seen done after [n] ticks is the run on the first
    [n] ticks of the stream, so what the backing system would have
    answered later is neither fetched nor looked at. Both programs. *)
Theorem run_stops_at_cancellation w n err evs :
  (forall stackName args,
     Multi.run (withEvents w evs) (Done n err) stackName args =
     Multi.run (withEvents w (take n evs)) (Done n err) stackName args) /\
  (forall args,
     Single.run (withEvents w evs) (Done n err) args =
     Single.run (withEvents w (take n evs)) (Done n err) args).
Proof.
  split.
  - intros stackName args. apply Multi_run_events, poll_Done_take.
  - intros args. apply Single_run_events, poll_Done_take.
Qed.

(** X14: the monitor has no timeout of its own. If no tick decides,
    it ends with the context's error when the context is done, and is
    still waiting after any number of ticks when the context is the
    background one. Both programs. *)
Theorem poll_waits_for_context w token cutoff ticks :
  (forall stackName,
     Forall (idleTick (Multi.scanEvent w stackName token cutoff) stackName) ticks ->
     snd (poll (Multi.scanEvent w stackName token cutoff) stackName
            Background ticks) = Blocked /\
     forall n err, (n <= length ticks)%nat ->
       snd (poll (Multi.scanEvent w stackName token cutoff) stackName
              (Done n err) ticks) = Return (Some (ctxError err))) /\
  (forall args,
     Forall (idleTick (Single.scanEvent w args token cutoff) (Single.stack args))
       ticks ->
     snd (poll (Single.scanEvent w args token cutoff) (Single.stack args)
            Background ticks) = Blocked /\
     forall n err, (n <= length ticks)%nat ->
       snd (poll (Single.scanEvent w args token cutoff) (Single.stack args)
              (Done n err) ticks) = Return (Some (ctxError err))).
Proof.
  split.
  - intros stackName Hidle. split; [apply poll_Background_idle; exact Hidle|].
    intros n err Hn. apply poll_Done_idle; [exact Hn|].
    apply Forall_take. exact Hidle.
  - intros args Hidle. split; [apply poll_Background_idle; exact Hidle|].
    intros n err Hn. apply poll_Done_idle; [exact Hn|].
    apply Forall_take. exact Hidle.
Qed.

Lemma poll_waits_for_context_witness :
  snd (poll (Multi.scanEvent (exWorld None []) "prod" exToken (9 * Hour)) "prod"
         Background [[inr [exForeign]]; [inr [exOldForeign; exComplete]]])
  = Blocked.
Proof.
  refine (proj1 (proj1 (poll_waits_for_context (exWorld None []) exToken
                          (9 * Hour)
                          [[inr [exForeign]]; [inr [exOldForeign; exComplete]]])
                   "prod" _)).
  repeat constructor.
Defined.

(** ** What one tick fetches and logs *)

Section TickTraces.
Variable body : StackEvent.t -> M bool.
Variable stackName : string.

Lemma scanPage_break pre evt post :
  Forall (passes body) pre -> body evt = ret false ->
  scanPage body (pre ++ evt :: post) = (fst (scanPage body pre), Cont false).
Proof.
  intros Hpre Hevt. rewrite scanPage_app.
  pose proof (scanPage_passes body pre Hpre) as Hs.
  destruct (scanPage body pre) as [t r]. cbn [snd] in Hs. subst r.
  cbn [scanPage]. rewrite Hevt, bind_ret_l. cbn. rewrite app_nil_r.
  reflexivity.
Qed.

Lemma scanEvents_passed_app ps1 rest :
  Forall (passedPage body) ps1 ->
  scanEvents body stackName (ps1 ++ rest) =
  (fst (scanEvents body stackName ps1) ++ fst (scanEvents body stackName rest),
   snd (scanEvents body stackName rest)).
Proof.
  induction 1 as [|pg ps1 Hpg _ IH]; cbn [app].
  - destruct (scanEvents body stackName rest). reflexivity.
  - cbn [scanEvents]. rewrite IH.
    destruct pg as [e|evts]; [destruct Hpg|].
    pose proof (scanPage_passes body evts Hpg) as Hs.
    destruct (scanPage body evts) as [t r]. cbn [snd] in Hs. subst r.
    destruct (scanEvents body stackName ps1) as [tS rS].
    destruct (scanEvents body stackName rest) as [tR rR].
    cbn. rewrite <- app_assoc. reflexivity.
Qed.

(** The tick of a stale event: the pages before are fetched and
    scanned, the page of the event is fetched and scanned up to the
    event, and that is all. *)
Lemma scanEvents_stale_tick ps1 pre evt post ps2 :
  Forall (passedPage body) ps1 -> Forall (passes body) pre ->
  body evt = ret false ->
  scanEvents body stackName (ps1 ++ inr (pre ++ evt :: post) :: ps2) =
  (fst (scanEvents body stackName ps1)
     ++ CallDescribeStackEvents stackName :: fst (scanPage body pre),
   Cont tt).
Proof.
  intros Hps Hpre Hevt. rewrite (scanEvents_passed_app _ _ Hps).
  cbn [scanEvents]. rewrite (scanPage_break _ _ _ Hpre Hevt).
  cbn. rewrite app_nil_r. reflexivity.
Qed.

(** The tick of a failing page: the pages before are fetched and
    scanned, the failing page is asked for once, and that is all. *)
Lemma scanEvents_failing_page_full ps1 e ps2 :
  Forall (passedPage body) ps1 ->
  scanEvents body stackName (ps1 ++ inl e :: ps2) =
  (fst (scanEvents body stackName ps1) ++ [CallDescribeStackEvents stackName],
   Return (Some (sdkError e))).
Proof.
  intros Hps. rewrite (scanEvents_passed_app _ _ Hps). reflexivity.
Qed.

Lemma poll_reaches_full quiet pages later t err : forall ctx,
  ctxAlive ctx (length quiet) ->
  Forall (idleTick body stackName) quiet ->
  scanEvents body stackName pages = (t, Return err) ->
  poll body stackName ctx (quiet ++ pages :: later) =
  (ticksTrace body stackName quiet ++ t, Return err).
Proof.
  intros ctx Hctx Hquiet Hpages. revert ctx Hctx.
  induction Hquiet as [|tick quiet Htick _ IH]; intros ctx Hctx;
    cbn [poll app ticksTrace flat_map].
  - destruct ctx as [|[|n] e]; simpl in Hctx; try lia;
      rewrite Hpages; reflexivity.
  - assert (Hstep : forall c,
              ctxAlive c (length quiet) ->
              bind (scanEvents body stackName tick)
                (fun _ => poll body stackName c (quiet ++ pages :: later)) =
              (fst (scanEvents body stackName tick)
                 ++ ticksTrace body stackName quiet ++ t, Return err)).
    { intros c Hc. rewrite (IH c Hc). unfold idleTick in Htick.
      destruct (scanEvents body stackName tick) as [tt' r]. cbn [snd] in Htick.
      subst r. reflexivity. }
    fold (ticksTrace body stackName quiet). rewrite <- app_assoc.
    destruct ctx as [|[|n] e]; simpl in Hctx; try lia;
      apply Hstep; simpl; try lia; exact I.
Qed.

Lemma reached_app ctx ticks more evt :
  reached body stackName ctx ticks evt ->
  reached body stackName ctx (ticks ++ more) evt.
Proof.
  intros (quiet & ps1 & pre & post & ps2 & later & -> & Hrest).
  exists quiet, ps1, pre, post, ps2, (later ++ more).
  split; [|exact Hrest]. rewrite <- app_assoc. reflexivity.
Qed.
End TickTraces.

Lemma tooOld_true cutoff evt : tooOld cutoff evt = true -> stale cutoff evt.
Proof.
  unfold tooOld, stale. destruct (StackEvent.Timestamp evt) as [ts|];
    [|discriminate].
  intros H. exists ts. split; [reflexivity|]. apply Z.ltb_lt. exact H.
Qed.

(** The scan is broken off by the stale events and by no other. *)
Lemma Multi_scanEvent_break_iff w stackName token cutoff evt :
  snd (Multi.scanEvent w stackName token cutoff evt) = Cont false
  <-> stale cutoff evt.
Proof.
  split.
  - rewrite Multi_scanEvent_unfold.
    destruct (tooOld cutoff evt) eqn:Hold; [intros _; apply tooOld_true, Hold|].
    destruct (otherToken token evt); [discriminate|].
    destruct (_ && _); [discriminate|].
    rewrite (snd_bind_Cont _ _ tt (snd_debugf _ _ _)).
    destruct (_ && _); [|discriminate].
    destruct (_ || _); [discriminate|].
    destruct (_ =? _)%string; discriminate.
  - intros H. rewrite (Multi_scanEvent_stale _ _ _ _ _ H). reflexivity.
Qed.

Lemma Single_scanEvent_break_iff w args token cutoff evt :
  snd (Single.scanEvent w args token cutoff evt) = Cont false
  <-> stale cutoff evt.
Proof.
  split.
  - rewrite Single_scanEvent_unfold.
    destruct (tooOld cutoff evt) eqn:Hold; [intros _; apply tooOld_true, Hold|].
    destruct (otherToken token evt); [discriminate|].
    destruct (_ =? _)%string; [discriminate|].
    rewrite (snd_bind_Cont _ _ tt (snd_debugf _ _ _)).
    destruct (_ && _); [|discriminate].
    destruct (_ =? _)%string; discriminate.
  - intros H. rewrite (Single_scanEvent_stale _ _ _ _ _ H). reflexivity.
Qed.

(** C5: take the stream in which, in one tick, the pages [ps1] come
    before the page that holds the events [pre], then an event older
    than the cutoff (the start of the monitor minus one hour), then
    [post], with the pages [ps2] behind. In both programs:
    - the run is the run on the stream where that page ends after [pre]
      and the tick has no further page: nothing behind the stale event
      is scanned or fetched;
    - the events before the stale one are still considered: once the
      update is submitted, an event the scan reaches in the ticks
      before or in this tick before the stale event, and on which the
      loop body returns, ends the run with that result;
    - if nothing before the stale event decides, the tick logs exactly
      the scan of [ps1], the fetch of the page and the scan of [pre],
      and the loop goes on to the next tick;
    - the scan is broken off by an event exactly when its timestamp is
      before that cutoff, so an event one hour old or younger never
      hides what comes behind it. *)
Theorem stale_event_ends_tick w ctx before ps1 pre evt post ps2 later :
  stale (timeNow w - Hour) evt ->
  (forall stackName args,
     Multi.run
       (withEvents w (before ++ (ps1 ++ inr (pre ++ evt :: post) :: ps2) :: later))
       ctx stackName args =
     Multi.run (withEvents w (before ++ (ps1 ++ [inr pre]) :: later))
       ctx stackName args) /\
  (forall args,
     Single.run
       (withEvents w (before ++ (ps1 ++ inr (pre ++ evt :: post) :: ps2) :: later))
       ctx args =
     Single.run (withEvents w (before ++ (ps1 ++ [inr pre]) :: later)) ctx args) /\
  (forall stackName args toReplace stk d r,
     let body := Multi.scanEvent w stackName (newToken w) (timeNow w - Hour) in
     MultiSubmits w stackName args toReplace stk ->
     reached body stackName ctx (before ++ [ps1 ++ [inr pre]]) d ->
     snd (body d) = Return r ->
     snd (Multi.run
            (withEvents w
               (before ++ (ps1 ++ inr (pre ++ evt :: post) :: ps2) :: later))
            ctx stackName args) = Return r) /\
  (forall args stk d r,
     let body := Single.scanEvent w args (newToken w) (timeNow w - Hour) in
     SingleSubmits w args stk ->
     reached body (Single.stack args) ctx (before ++ [ps1 ++ [inr pre]]) d ->
     snd (body d) = Return r ->
     snd (Single.run
            (withEvents w
               (before ++ (ps1 ++ inr (pre ++ evt :: post) :: ps2) :: later))
            ctx args) = Return r) /\
  (forall stackName,
     let body := Multi.scanEvent w stackName (newToken w) (timeNow w - Hour) in
     (Forall (passedPage body) ps1 -> Forall (passes body) pre ->
      scanEvents body stackName (ps1 ++ inr (pre ++ evt :: post) :: ps2) =
      (fst (scanEvents body stackName ps1)
         ++ CallDescribeStackEvents stackName :: fst (scanPage body pre),
       Cont tt)) /\
     (forall e, snd (body e) = Cont false <-> stale (timeNow w - Hour) e)) /\
  (forall args,
     let body := Single.scanEvent w args (newToken w) (timeNow w - Hour) in
     (Forall (passedPage body) ps1 -> Forall (passes body) pre ->
      scanEvents body (Single.stack args)
        (ps1 ++ inr (pre ++ evt :: post) :: ps2) =
      (fst (scanEvents body (Single.stack args) ps1)
         ++ CallDescribeStackEvents (Single.stack args)
         :: fst (scanPage body pre),
       Cont tt)) /\
     (forall e, snd (body e) = Cont false <-> stale (timeNow w - Hour) e)).
Proof.
  intros Hstale.
  assert (HM : forall stackName args,
     Multi.run
       (withEvents w (before ++ (ps1 ++ inr (pre ++ evt :: post) :: ps2) :: later))
       ctx stackName args =
     Multi.run (withEvents w (before ++ (ps1 ++ [inr pre]) :: later))
       ctx stackName args).
  { intros stackName args. apply Multi_run_events, poll_congr_one.
    apply scanEvents_break, Multi_scanEvent_stale, Hstale. }
  assert (HS : forall args,
     Single.run
       (withEvents w (before ++ (ps1 ++ inr (pre ++ evt :: post) :: ps2) :: later))
       ctx args =
     Single.run (withEvents w (before ++ (ps1 ++ [inr pre]) :: later)) ctx args).
  { intros args. apply Single_run_events, poll_congr_one.
    apply scanEvents_break, Single_scanEvent_stale, Hstale. }
  split; [exact HM|]. split; [exact HS|]. split; [|split; [|split]].
  - intros stackName args toReplace stk d r body
      (Hname & Hparse & Hne & Hcfg & Hdesc & Hsub & Hupd) Hreach Hd.
    rewrite HM.
    rewrite (Multi_run_polls
               (withEvents w (before ++ (ps1 ++ [inr pre]) :: later))
               ctx stackName args toReplace stk Hname Hparse Hne Hcfg Hdesc
               Hsub Hupd).
    change (snd (poll body stackName ctx
                   (before ++ (ps1 ++ [inr pre]) :: later)) = Return r).
    apply (poll_reached body stackName ctx _ d r); [|exact Hd].
    change (before ++ (ps1 ++ [inr pre]) :: later)
      with (before ++ [ps1 ++ [inr pre]] ++ later).
    rewrite app_assoc. apply reached_app. exact Hreach.
  - intros args stk d r body (Hval & Hcfg & Hdesc & Hin & Hdiff & Hupd)
      Hreach Hd.
    rewrite HS.
    rewrite (Single_run_polls
               (withEvents w (before ++ (ps1 ++ [inr pre]) :: later))
               ctx args stk Hval Hcfg Hdesc Hin Hdiff Hupd).
    change (snd (poll body (Single.stack args) ctx
                   (before ++ (ps1 ++ [inr pre]) :: later)) = Return r).
    apply (poll_reached body (Single.stack args) ctx _ d r); [|exact Hd].
    change (before ++ (ps1 ++ [inr pre]) :: later)
      with (before ++ [ps1 ++ [inr pre]] ++ later).
    rewrite app_assoc. apply reached_app. exact Hreach.
  - intros stackName body. split.
    + intros Hps Hpre. apply scanEvents_stale_tick; [assumption..|].
      apply Multi_scanEvent_stale, Hstale.
    + intros e. apply Multi_scanEvent_break_iff.
  - intros args body. split.
    + intros Hps Hpre. apply scanEvents_stale_tick; [assumption..|].
      apply Single_scanEvent_stale, Hstale.
    + intros e. apply Single_scanEvent_break_iff.
Qed.

Lemma stale_event_ends_tick_witness :
  snd (Multi.run
         (withEvents (exWorld None [])
            ([[inr [exForeign]]]
               ++ ([inr [exCancelled]]
                     ++ inr ([exForeign; exFailed] ++ exOldForeign :: [exComplete])
                     :: [inr [exComplete]])
               :: [[inr [exComplete]]]))
         Background "prod" ["ImageTag=v2"])
  = Return (Some (resourceFailedError exFailed)).
Proof.
  refine (proj1 (proj2 (proj2
            (stale_event_ends_tick (exWorld None []) Background
               [[inr [exForeign]]] [inr [exCancelled]] [exForeign; exFailed]
               exOldForeign [exComplete] [inr [exComplete]]
               [[inr [exComplete]]] _)))
            "prod" ["ImageTag=v2"] {["ImageTag" := "v2"]} exStack exFailed
            (Some (resourceFailedError exFailed)) _ _ _).
  - exists 0%Z. split; [reflexivity|]. vm_compute. reflexivity.
  - split; [discriminate|]. split; [vm_compute; reflexivity|].
    split.
    { intros H. apply (f_equal (fun m => m !! "ImageTag")) in H.
      vm_compute in H. discriminate. }
    split; [reflexivity|]. split; [reflexivity|].
    split; [|intros input; reflexivity].
    intros k [v Hk]. apply lookup_singleton_Some in Hk as [<- _].
    vm_compute. right. left.
  - exists [[inr [exForeign]]], [inr [exCancelled]], [exForeign], [], [], [].
    split; [reflexivity|]. split; [exact I|].
    split; [repeat constructor|]. split; repeat constructor.
  - vm_compute. reflexivity.
Defined.

(** X15: a page of DescribeStackEvents that fails ends the run with
    that error as soon as the scan gets to it. The trace shows that it
    is not retried and that nothing behind it is asked for: the loop
    logs the scans of the idle ticks before, the scan of the pages
    before it in its tick, one fetch for the failing page, and nothing
    more, whatever pages and ticks follow. Both programs. *)
Theorem failing_page_ends_run w token cutoff ctx quiet ps1 e ps2 later :
  ctxAlive ctx (length quiet) ->
  (forall stackName,
     let body := Multi.scanEvent w stackName token cutoff in
     Forall (idleTick body stackName) quiet ->
     Forall (passedPage body) ps1 ->
     poll body stackName ctx (quiet ++ (ps1 ++ inl e :: ps2) :: later) =
     (ticksTrace body stackName quiet
        ++ fst (scanEvents body stackName ps1)
        ++ [CallDescribeStackEvents stackName],
      Return (Some (sdkError e)))) /\
  (forall args,
     let body := Single.scanEvent w args token cutoff in
     Forall (idleTick body (Single.stack args)) quiet ->
     Forall (passedPage body) ps1 ->
     poll body (Single.stack args) ctx
       (quiet ++ (ps1 ++ inl e :: ps2) :: later) =
     (ticksTrace body (Single.stack args) quiet
        ++ fst (scanEvents body (Single.stack args) ps1)
        ++ [CallDescribeStackEvents (Single.stack args)],
      Return (Some (sdkError e)))).
Proof.
  intros Hctx. split.
  - intros stackName body Hq Hps.
    apply poll_reaches_full; [assumption..|].
    apply scanEvents_failing_page_full. exact Hps.
  - intros args body Hq Hps.
    apply poll_reaches_full; [assumption..|].
    apply scanEvents_failing_page_full. exact Hps.
Qed.

Lemma failing_page_ends_run_witness :
  poll (Single.scanEvent (exWorld None []) (Single.mkArgs "prod" "Env" "x")
          exToken (9 * Hour)) "prod" (Done 2 Canceled)
    ([[inr [exForeign]]]
       ++ ([inr [exForeign]] ++ inl (OtherError "throttled")
             :: [inr [exComplete]]) :: [[inr [exComplete]]])
  = ([CallDescribeStackEvents "prod"; CallDescribeStackEvents "prod";
      CallDescribeStackEvents "prod"],
     Return (Some (sdkError (OtherError "throttled")))).
Proof.
  refine (proj2 (failing_page_ends_run (exWorld None []) exToken (9 * Hour)
                   (Done 2 Canceled) [[inr [exForeign]]] [inr [exForeign]]
                   (OtherError "throttled") [inr [exComplete]]
                   [[inr [exComplete]]] _)
            (Single.mkArgs "prod" "Env" "x") _ _).
  - simpl. lia.
  - repeat constructor.
  - repeat constructor.
Defined.

(** ** Diagnostics are gated on the environment *)

Lemma debugLines_app t1 t2 : debugLines (t1 ++ t2) = debugLines t1 ++ debugLines t2.
Proof. unfold debugLines. apply flat_map_app. Qed.

Lemma debugLines_bind_nil {A B} (m : M A) (k : A -> M B) :
  debugLines (fst m) = [] -> (forall a, debugLines (fst (k a)) = []) ->
  debugLines (fst (bind m k)) = [].
Proof.
  intros Hm Hk. destruct m as [t [a| |]]; simpl in *; try exact Hm.
  specialize (Hk a). destruct (k a) as [t' r'].
  simpl in *. rewrite debugLines_app, Hm, Hk. reflexivity.
Qed.

Lemma debugf_off w format args :
  underGithub w = false -> debugf w format args = ret tt.
Proof. unfold debugf. intros ->. reflexivity. Qed.

Section QuietPoll.
Variable body : StackEvent.t -> M bool.
Variable stackName : string.
Hypothesis body_quiet : forall evt, debugLines (fst (body evt)) = [].

Lemma debugLines_scanPage evts : debugLines (fst (scanPage body evts)) = [].
Proof.
  induction evts as [|evt evts IH]; [reflexivity|].
  cbn [scanPage]. apply debugLines_bind_nil; [apply body_quiet|].
  intros [|]; [exact IH|reflexivity].
Qed.

Lemma debugLines_scanEvents pages :
  debugLines (fst (scanEvents body stackName pages)) = [].
Proof.
  induction pages as [|pg pages IH]; [reflexivity|].
  cbn [scanEvents]. apply debugLines_bind_nil; [reflexivity|]. intros _.
  destruct pg as [e|evts]; [reflexivity|].
  apply debugLines_bind_nil; [apply debugLines_scanPage|].
  intros [|]; [exact IH|reflexivity].
Qed.

Lemma debugLines_poll ticks : forall ctx,
  debugLines (fst (poll body stackName ctx ticks)) = [].
Proof.
  induction ticks as [|pages ticks IH]; intros ctx.
  - destruct ctx as [|[|n] e]; reflexivity.
  - destruct ctx as [|[|n] e]; cbn [poll]; try reflexivity;
      (apply debugLines_bind_nil; [apply debugLines_scanEvents|intros _; apply IH]).
Qed.
End QuietPoll.

Lemma debugLines_Multi_scanEvent w stackName token cutoff evt :
  underGithub w = false ->
  debugLines (fst (Multi.scanEvent w stackName token cutoff evt)) = [].
Proof.
  intros Hoff. rewrite Multi_scanEvent_unfold, (debugf_off _ _ _ Hoff).
  destruct (tooOld cutoff evt); [reflexivity|].
  destruct (otherToken token evt); [reflexivity|].
  destruct (_ && _); [reflexivity|].
  rewrite bind_ret_l.
  destruct (_ && _); [|reflexivity].
  destruct (_ || _); [reflexivity|].
  destruct (_ =? _)%string; reflexivity.
Qed.

Lemma debugLines_Single_scanEvent w args token cutoff evt :
  underGithub w = false ->
  debugLines (fst (Single.scanEvent w args token cutoff evt)) = [].
Proof.
  intros Hoff. rewrite Single_scanEvent_unfold, (debugf_off _ _ _ Hoff).
  destruct (tooOld cutoff evt); [reflexivity|].
  destruct (otherToken token evt); [reflexivity|].
  destruct (_ =? _)%string; [reflexivity|].
  rewrite bind_ret_l.
  destruct (_ && _); [|reflexivity].
  destruct (_ =? _)%string; reflexivity.
Qed.

Lemma debugParams_off w params :
  underGithub w = false -> Multi.debugParams w params = ret tt.
Proof.
  intros Hoff. induction params as [|p params IH]; [reflexivity|].
  cbn [Multi.debugParams]. rewrite !(debugf_off _ _ _ Hoff).
  destruct (aws.ToBool _); rewrite bind_ret_l; exact IH.
Qed.

(** X16: outside GitHub Actions no debug line is ever logged, neither
    the parsed parameters, nor the payload, nor the events seen. Both
    programs. *)
Theorem run_debug_only_under_github w ctx :
  underGithub w = false ->
  (forall stackName args,
     debugLines (fst (Multi.run w ctx stackName args)) = []) /\
  (forall args, debugLines (fst (Single.run w ctx args)) = []).
Proof.
  intros Hoff. split.
  - intros stackName args. unfold Multi.run.
    destruct (stackName =? "")%string; [reflexivity|].
    destruct (Multi.parseKvs _) as [err|toReplace]; [reflexivity|].
    destruct (size toReplace =? 0)%nat; [reflexivity|].
    rewrite !(debugf_off _ _ _ Hoff), bind_ret_l.
    apply debugLines_bind_nil; [reflexivity|]. intros _.
    destruct (loadDefaultConfig w); [reflexivity|].
    apply debugLines_bind_nil; [reflexivity|]. intros _.
    destruct (describeStacks w stackName) as [err|[|stk [|]]]; try reflexivity.
    destruct (Multi.collectParams _ _ _) as [params left'].
    destruct (negb _); [reflexivity|].
    rewrite bind_ret_l, (debugParams_off _ _ Hoff), bind_ret_l.
    apply debugLines_bind_nil; [reflexivity|]. intros _.
    destruct (updateStack w _); [reflexivity|].
    apply debugLines_bind_nil; [reflexivity|]. intros _.
    apply debugLines_poll. intros evt.
    apply debugLines_Multi_scanEvent. exact Hoff.
  - intros args. unfold Single.run.
    destruct (Single.validate args); [reflexivity|].
    apply debugLines_bind_nil; [reflexivity|]. intros _.
    destruct (loadDefaultConfig w); [reflexivity|].
    apply debugLines_bind_nil; [reflexivity|]. intros _.
    destruct (describeStacks w (Single.stack args)) as [err|[|stk [|]]];
      try reflexivity.
    destruct (Single.collectParams _ _ _ _) as [err|[params seenKey]];
      [reflexivity|].
    destruct (negb seenKey); [reflexivity|].
    apply debugLines_bind_nil; [reflexivity|]. intros _.
    destruct (updateStack w _); [reflexivity|].
    apply debugLines_bind_nil; [reflexivity|]. intros _.
    apply debugLines_poll. intros evt.
    apply debugLines_Single_scanEvent. exact Hoff.
Qed.

Lemma run_debug_only_under_github_witness :
  debugLines (fst (Multi.run (exWorld None [[inr [exCancelled; exComplete]]])
                     Background "prod" ["ImageTag=v2"])) = [].
Proof.
  refine (proj1 (run_debug_only_under_github
                   (exWorld None [[inr [exCancelled; exComplete]]]) Background _)
            "prod" ["ImageTag=v2"]).
  reflexivity.
Defined.

(** ** The parameters of the action *)




(** ** Where the two monitors agree *)

Lemma snd_bind_congr {A B} (m1 m2 : M A) (k1 k2 : A -> M B) :
  snd m1 = snd m2 -> (forall a, snd m1 = Cont a -> snd (k1 a) = snd (k2 a)) ->
  snd (bind m1 k1) = snd (bind m2 k2).
Proof.
  destruct m1 as [t1 r1], m2 as [t2 r2]; cbn [snd]. intros <- Hk.
  destruct r1 as [a| |]; simpl; try reflexivity.
  specialize (Hk a eq_refl). destruct (k1 a), (k2 a). exact Hk.
Qed.

Section TwoBodies.
Variables body1 body2 : StackEvent.t -> M bool.
Variables name1 name2 : string.

Lemma scanPage_snd_congr evts :
  Forall (fun evt => snd (body1 evt) = snd (body2 evt)) evts ->
  snd (scanPage body1 evts) = snd (scanPage body2 evts).
Proof.
  induction 1 as [|evt evts Hevt _ IH]; [reflexivity|].
  cbn [scanPage]. apply snd_bind_congr; [exact Hevt|].
  intros [|] _; [exact IH|reflexivity].
Qed.

Lemma scanEvents_snd_congr pages :
  Forall (fun evt => snd (body1 evt) = snd (body2 evt))
    (concat (map pageEvents pages)) ->
  snd (scanEvents body1 name1 pages) = snd (scanEvents body2 name2 pages).
Proof.
  induction pages as [|pg pages IH]; intros H; [reflexivity|].
  cbn [scanEvents]. rewrite !snd_bind_emit.
  cbn [map concat] in H. apply Forall_app in H as [Hpg Hrest].
  destruct pg as [e|evts]; [reflexivity|].
  apply snd_bind_congr; [apply scanPage_snd_congr; exact Hpg|].
  intros [|] _; [apply IH; exact Hrest|reflexivity].
Qed.

Lemma poll_snd_congr ticks : forall ctx,
  Forall (fun evt => snd (body1 evt) = snd (body2 evt)) (allEvents ticks) ->
  snd (poll body1 name1 ctx ticks) = snd (poll body2 name2 ctx ticks).
Proof.
  induction ticks as [|pages ticks IH]; intros ctx H.
  - destruct ctx as [|[|n] e]; reflexivity.
  - unfold allEvents in H. cbn [map concat] in H.
    apply Forall_app in H as [Hp Hrest].
    destruct ctx as [|[|n] e]; cbn [poll]; try reflexivity;
      (apply snd_bind_congr; [apply scanEvents_snd_congr; exact Hp|];
       intros _ _; apply IH; exact Hrest).
Qed.
End TwoBodies.

Lemma scanEvent_agree w args token cutoff evt :
  ~ divergent token cutoff (Single.stack args) evt ->
  snd (Multi.scanEvent w (Single.stack args) token cutoff evt)
  = snd (Single.scanEvent w args token cutoff evt).
Proof.
  intros Hnd. rewrite Multi_scanEvent_unfold, Single_scanEvent_unfold.
  destruct (tooOld cutoff evt) eqn:Hold; [reflexivity|].
  destruct (otherToken token evt) eqn:Htok; [reflexivity|].
  assert (Hm : matched token cutoff evt).
  { split; [apply tooOld_false; exact Hold|apply otherToken_false; exact Htok]. }
  destruct (String.eqb_spec (StackEvent.ResourceStatus evt) "UPDATE_FAILED")
    as [Huf|Hnuf].
  - destruct (String.eqb_spec
                (aws.ToString (StackEvent.ResourceStatusReason evt))
                "Resource update cancelled") as [Hc|Hnc]; [|reflexivity].
    exfalso. apply Hnd. split; [exact Hm|]. left. auto.
  - cbn [andb]. rewrite !(snd_bind_Cont _ _ tt (snd_debugf _ _ _)).
    destruct (String.eqb_spec
                (aws.ToString (StackEvent.LogicalResourceId evt))
                (Single.stack args)) as [Hid|]; [|reflexivity].
    destruct (String.eqb_spec
                (aws.ToString (StackEvent.ResourceType evt))
                "AWS::CloudFormation::Stack") as [Hty|]; [|reflexivity].
    cbn [andb].
    destruct (String.eqb_spec (StackEvent.ResourceStatus evt)
                "UPDATE_ROLLBACK_COMPLETE") as [Hurc|].
    { exfalso. apply Hnd. split; [exact Hm|]. right.
      split; [split; assumption|]. left. exact Hurc. }
    destruct (String.eqb_spec (StackEvent.ResourceStatus evt)
                "ROLLBACK_FAILED") as [Hrf|].
    { exfalso. apply Hnd. split; [exact Hm|]. right.
      split; [split; assumption|]. right. exact Hrf. }
    reflexivity.
Qed.

(** X18: the monitors of the two programs can differ only on matched
    events that are cancelled resource updates or rollbacks of the stack
    itself: on a stream without such events they end alike, whatever the
    context. *)
Theorem monitors_agree w args token cutoff ctx ticks :
  Forall (fun evt => ~ divergent token cutoff (Single.stack args) evt)
    (allEvents ticks) ->
  snd (poll (Multi.scanEvent w (Single.stack args) token cutoff)
         (Single.stack args) ctx ticks)
  = snd (poll (Single.scanEvent w args token cutoff) (Single.stack args)
           ctx ticks).
Proof.
  intros H. apply poll_snd_congr.
  eapply Forall_impl; [exact H|].
  intros evt Hevt. apply scanEvent_agree. exact Hevt.
Qed.

Lemma monitors_agree_witness :
  snd (poll (Multi.scanEvent (exWorld None [])
               (Single.stack (Single.mkArgs "prod" "Env" "x")) exToken (9 * Hour))
         "prod" Background [[inr [exForeign; exFailed]]])
  = snd (poll (Single.scanEvent (exWorld None []) (Single.mkArgs "prod" "Env" "x")
                 exToken (9 * Hour)) "prod" Background
           [[inr [exForeign; exFailed]]]).
Proof.
  apply (monitors_agree (exWorld None []) (Single.mkArgs "prod" "Env" "x")).
  repeat constructor.
  - intros [[_ Htok] _]. vm_compute in Htok. discriminate.
  - intros [_ [[_ Hre]|[_ [Hst|Hst]]]]; vm_compute in Hre || vm_compute in Hst;
      discriminate.
Defined.

(** ** Already set: only when it is *)

Lemma Single_collectParams_error args current : forall params seenKey err,
  Single.collectParams args current params seenKey = inl err ->
  err = errAlreadySet /\
  exists p, p ∈ current /\
    aws.ToString (Param.ParameterKey p) = Single.key args /\
    aws.ToString (Param.ParameterValue p) = Single.value args.
Proof.
  induction current as [|q current IH]; intros params seenKey err H;
    [discriminate|].
  cbn [Single.collectParams] in H.
  destruct (String.eqb_spec (aws.ToString (Param.ParameterKey q))
              (Single.key args)) as [Hk|Hk];
    [destruct (String.eqb_spec (aws.ToString (Param.ParameterValue q))
                 (Single.value args)) as [Hv|Hv]|]; cbn [andb] in H.
  - inversion H. split; [reflexivity|]. exists q. split; [left|auto].
  - destruct (IH _ _ _ H) as (-> & p & Hp & Hkv).
    split; [reflexivity|]. exists p. split; [right; exact Hp|exact Hkv].
  - destruct (IH _ _ _ H) as (-> & p & Hp & Hkv).
    split; [reflexivity|]. exists p. split; [right; exact Hp|exact Hkv].
Qed.

Lemma parseKvs_from_error lines : forall out err,
  Multi.parseKvs_from out lines = inl err -> err <> errAlreadySet.
Proof.
  induction lines as [|l lines IH]; intros out err H; [discriminate|].
  cbn [Multi.parseKvs_from] in H.
  destruct (_ =? "")%string; [exact (IH _ _ H)|].
  destruct (strings.Cut _ _) as [[k v]|]; [|inversion H; discriminate].
  destruct (_ || _); [inversion H; discriminate|].
  destruct (out !! _); [inversion H; discriminate|exact (IH _ _ H)].
Qed.

(** X19: the single-parameter program returns [errAlreadySet] only
    when DescribeStacks gave one stack that holds the requested value
    under the requested key, and then nothing was submitted; the
    multi-parameter program never returns it. *)
Theorem errAlreadySet_only_when_set w ctx :
  (forall args,
     snd (Single.run w ctx args) = Return (Some errAlreadySet) ->
     submitted (fst (Single.run w ctx args)) = [] /\
     exists stk p,
       describeStacks w (Single.stack args) = inr [stk] /\
       p ∈ Stack.Parameters stk /\
       aws.ToString (Param.ParameterKey p) = Single.key args /\
       aws.ToString (Param.ParameterValue p) = Single.value args) /\
  (forall stackName args,
     snd (Multi.run w ctx stackName args) <> Return (Some errAlreadySet)).
Proof.
  split.
  - intros args. unfold Single.run, Single.validate.
    destruct (_ || _); [discriminate|].
    rewrite snd_bind_emit, submitted_bind_emit.
    destruct (loadDefaultConfig w); [discriminate|].
    rewrite snd_bind_emit, submitted_bind_emit.
    destruct (describeStacks w (Single.stack args)) as [err|[|stk [|]]];
      try discriminate.
    destruct (Single.collectParams _ _ _ _) as [err|[params seenKey]] eqn:Hcp.
    + intros H. inversion H; subst err. split; [reflexivity|].
      apply Single_collectParams_error in Hcp as (_ & p & Hp & Hk & Hv).
      exists stk, p. auto.
    + destruct (negb seenKey); [discriminate|].
      rewrite snd_bind_emit.
      destruct (updateStack w _); [discriminate|].
      rewrite snd_bind_emit.
      intros [(e & He)|[(e & He)|(evt & _ & Hr)]]%poll_Return_inv;
        try discriminate.
      apply Single_scanEvent_Return in Hr as (_ & [(_ & He)|(_ & _ & He)]);
        discriminate.
  - intros stackName args. unfold Multi.run.
    destruct (stackName =? "")%string; [discriminate|].
    destruct (Multi.parseKvs _) as [err|toReplace] eqn:Hparse.
    { intros H. inversion H; subst err.
      exact (parseKvs_from_error _ _ _ Hparse eq_refl). }
    destruct (size toReplace =? 0)%nat; [discriminate|].
    rewrite (snd_bind_Cont _ _ tt (snd_debugf _ _ _)), snd_bind_emit.
    destruct (loadDefaultConfig w); [discriminate|].
    rewrite snd_bind_emit.
    destruct (describeStacks w stackName) as [err|[|stk [|]]]; try discriminate.
    destruct (Multi.collectParams _ _ _) as [params left'].
    destruct (negb _); [discriminate|].
    rewrite (snd_bind_Cont _ _ tt (snd_debugf _ _ _)).
    rewrite (snd_bind_Cont _ _ tt (snd_debugParams _ _)), snd_bind_emit.
    destruct (updateStack w _); [discriminate|].
    rewrite snd_bind_emit.
    intros [(e & He)|[(e & He)|(evt & _ & Hr)]]%poll_Return_inv;
      try discriminate.
    apply Multi_scanEvent_Return in Hr
      as (_ & [(_ & _ & He)|[(_ & _ & He)|(_ & _ & He)]]); discriminate.
Qed.

Lemma errAlreadySet_only_when_set_witness :
  submitted (fst (Single.run (exWorld None []) Background
                    (Single.mkArgs "prod" "ImageTag" "v1"))) = [] /\
  exists stk p,
    describeStacks (exWorld None [])
      (Single.stack (Single.mkArgs "prod" "ImageTag" "v1")) = inr [stk] /\
    p ∈ Stack.Parameters stk /\
    aws.ToString (Param.ParameterKey p) = "ImageTag" /\
    aws.ToString (Param.ParameterValue p) = "v1".
Proof.
  apply (proj1 (errAlreadySet_only_when_set (exWorld None []) Background)
           (Single.mkArgs "prod" "ImageTag" "v1")).
  vm_compute. reflexivity.
Defined.

(** ** Writing a mapping down and parsing it back *)

Lemma trimRunes_plain sp2 sp3 a s :
  strings.asciiSpace a = false ->
  (forall b, sp2 a b = false) -> (forall b c, sp3 a b c = false) ->
  strings.trimRunes sp2 sp3 (String a s) = String a s.
Proof.
  intros Ha H2 H3. cbn [strings.trimRunes]. rewrite Ha.
  destruct s as [|b [|c s]]; rewrite ?H2, ?H3; reflexivity.
Qed.

Lemma plainChar_spec a :
  plainChar a = true ->
  strings.asciiSpace a = false /\
  (forall b, strings.space2 a b = false) /\
  (forall b, strings.space2 b a = false) /\
  (forall b c, strings.space3 a b c = false) /\
  (forall b c, strings.space3 c b a = false).
Proof.
  destruct a as [b0 b1 b2 b3 b4 b5 b6 [|]].
  - destruct b0, b1, b2, b3, b4, b5, b6; vm_compute; discriminate.
  - intros [_ Hsp]%andb_prop. apply negb_true_iff in Hsp.
    split; [exact Hsp|].
    split; [intros b; destruct b0, b1, b2, b3, b4, b5, b6; reflexivity|].
    split.
    { intros b. unfold strings.space2.
      destruct b as [[] [] [] [] [] [] [] []]; try reflexivity;
        destruct b0, b1, b2, b3, b4, b5, b6; reflexivity. }
    split; [intros b c; destruct b0, b1, b2, b3, b4, b5, b6; reflexivity|].
    intros b c. unfold strings.space3.
    destruct c as [[] [] [] [] [] [] [] []]; try reflexivity;
      destruct b as [[] [] [] [] [] [] [] []]; try reflexivity;
      destruct b0, b1, b2, b3, b4, b5, b6; reflexivity.
Qed.

Lemma rev_rev_append s : forall acc,
  strings.rev (strings.rev_append s acc) = strings.rev_append acc s.
Proof.
  induction s as [|a s IH]; intros acc; [reflexivity|].
  cbn [strings.rev_append]. rewrite IH. reflexivity.
Qed.

Lemma rev_involutive s : strings.rev (strings.rev s) = s.
Proof. unfold strings.rev at 2. rewrite rev_rev_append. reflexivity. Qed.

Lemma allChars_rev_append P s : forall acc,
  allChars P s = true -> allChars P acc = true ->
  allChars P (strings.rev_append s acc) = true.
Proof.
  induction s as [|a s IH]; intros acc Hs Hacc; [exact Hacc|].
  cbn [allChars] in Hs. apply andb_prop in Hs as [Ha Hs].
  cbn [strings.rev_append]. apply IH; [exact Hs|].
  cbn [allChars]. rewrite Ha, Hacc. reflexivity.
Qed.

Lemma rev_nonempty s : s <> "" -> strings.rev s <> "".
Proof.
  intros Hne E. apply Hne. rewrite <- (rev_involutive s), E. reflexivity.
Qed.

(** Plain text is left alone by [TrimSpace]. *)
Lemma TrimSpace_plain s :
  allChars plainChar s = true -> strings.TrimSpace s = s.
Proof.
  intros Hs. unfold strings.TrimSpace, strings.TrimRightSpace,
    strings.TrimLeftSpace.
  assert (Hleft : strings.trimRunes strings.space2 strings.space3 s = s).
  { destruct s as [|a s]; [reflexivity|].
    cbn [allChars] in Hs. apply andb_prop in Hs as [Ha _].
    destruct (plainChar_spec a Ha) as (H1 & H2 & _ & H3 & _).
    apply trimRunes_plain; assumption. }
  rewrite Hleft.
  assert (Hrev : allChars plainChar (strings.rev s) = true)
    by (apply allChars_rev_append; [exact Hs|reflexivity]).
  destruct (strings.rev s) as [|z t] eqn:Ez.
  - cbn. rewrite <- (rev_involutive s), Ez. reflexivity.
  - cbn [allChars] in Hrev. apply andb_prop in Hrev as [Hz _].
    destruct (plainChar_spec z Hz) as (H1 & _ & H2 & _ & H3).
    rewrite trimRunes_plain by (try assumption; intros; apply H2 || apply H3).
    rewrite <- Ez. apply rev_involutive.
Qed.

Lemma allChars_app P s1 s2 :
  allChars P (s1 +:+ s2) = allChars P s1 && allChars P s2.
Proof.
  induction s1 as [|a s1 IH]; [reflexivity|].
  change (String a s1 +:+ s2) with (String a (s1 +:+ s2)).
  cbn [allChars]. rewrite IH, andb_assoc. reflexivity.
Qed.

Lemma allChars_weaken (P Q : ascii -> bool) s :
  (forall c, P c = true -> Q c = true) ->
  allChars P s = true -> allChars Q s = true.
Proof.
  intros HPQ. induction s as [|a s IH]; [reflexivity|].
  cbn [allChars]. intros [Ha Hs]%andb_prop.
  rewrite (HPQ _ Ha), (IH Hs). reflexivity.
Qed.

Lemma Cut_first_sep k v (sep : ascii) :
  allChars (fun c => negb (Ascii.eqb c sep)) k = true ->
  strings.Cut (k +:+ String sep v) sep = Some (k, v).
Proof.
  induction k as [|a k IH]; intros Hk.
  - change ("" +:+ String sep v) with (String sep v).
    cbn [strings.Cut]. rewrite Ascii.eqb_refl. reflexivity.
  - cbn [allChars] in Hk. apply andb_prop in Hk as [Ha Hk].
    apply negb_true_iff in Ha.
    change (String a k +:+ String sep v) with (String a (k +:+ String sep v)).
    cbn [strings.Cut]. rewrite Ha, (IH Hk). reflexivity.
Qed.

Lemma parseLine_renderLine k v :
  plainKey k -> plainValue v -> parseLine (renderLine (k, v)) = Pair k v.
Proof.
  intros [Hkne Hk] [Hvne Hv]. unfold renderLine, parseLine. cbn [fst snd].
  assert (Hkp : allChars plainChar k = true).
  { revert Hk. apply allChars_weaken. intros c [H _]%andb_prop. exact H. }
  assert (Hkeq : allChars (fun c => negb (Ascii.eqb c "=")) k = true).
  { revert Hk. apply allChars_weaken. intros c [_ H]%andb_prop. exact H. }
  assert (Hline : allChars plainChar (k +:+ String "=" v) = true).
  { rewrite allChars_app, Hkp. cbn [allChars andb]. rewrite Hv. reflexivity. }
  rewrite (TrimSpace_plain _ Hline).
  destruct (String.eqb_spec (k +:+ String "=" v) "") as [E|_].
  { destruct k; discriminate. }
  rewrite (Cut_first_sep k v "=" Hkeq).
  rewrite (TrimSpace_plain _ Hkp), (TrimSpace_plain _ Hv).
  apply String.eqb_neq in Hkne, Hvne. rewrite Hkne, Hvne. reflexivity.
Qed.

Lemma lineKeys_render pairs :
  Forall (fun kv => plainKey (fst kv) /\ plainValue (snd kv)) pairs ->
  lineKeys (map renderLine pairs) = map fst pairs.
Proof.
  induction 1 as [|[k v] pairs [Hk Hv] _ IH]; [reflexivity|].
  cbn [map lineKeys]. rewrite (parseLine_renderLine k v Hk Hv), IH. reflexivity.
Qed.

(** X20: a mapping written down one "key=value" line per entry parses
    back to itself, provided the keys are distinct and keys and values
    are non-empty plain text (ASCII without white space, and no equals
    sign in a key; a value may hold one). *)
Theorem parseKvs_renderLine pairs :
  Forall (fun kv => plainKey (fst kv) /\ plainValue (snd kv)) pairs ->
  NoDup (map fst pairs) ->
  Multi.parseKvs (map renderLine pairs) = inr (list_to_map pairs).
Proof.
  intros Hplain Hnd.
  destruct (parseKvs_from_total (map renderLine pairs) ∅) as [m Hm].
  { apply Forall_forall. intros l Hl.
    apply list_elem_of_fmap in Hl as ([k v] & -> & Hkv).
    rewrite Forall_forall in Hplain. destruct (Hplain _ Hkv) as [Hk Hv].
    unfold wellFormedOrBlank. rewrite (parseLine_renderLine k v Hk Hv).
    exact I. }
  { rewrite (lineKeys_render _ Hplain). exact Hnd. }
  { intros k _. apply lookup_empty. }
  change (Multi.parseKvs (map renderLine pairs) = inr m) in Hm.
  rewrite Hm. f_equal. apply map_eq. intros k.
  destruct (parseKvs_ok _ _ Hm) as (_ & _ & Hlook & _).
  apply option_eq. intros v. rewrite Hlook.
  rewrite <- elem_of_list_to_map by exact Hnd.
  split.
  - intros (l & Hl & Hp).
    apply list_elem_of_fmap in Hl as ([k' v'] & -> & Hkv).
    rewrite Forall_forall in Hplain. destruct (Hplain _ Hkv) as [Hk Hv].
    rewrite (parseLine_renderLine k' v' Hk Hv) in Hp. inversion Hp; subst.
    exact Hkv.
  - intros Hkv. exists (renderLine (k, v)).
    split; [apply list_elem_of_fmap; exists (k, v); auto|].
    rewrite Forall_forall in Hplain. destruct (Hplain _ Hkv) as [Hk Hv].
    apply parseLine_renderLine; assumption.
Qed.

Lemma parseKvs_renderLine_witness :
  Multi.parseKvs (map renderLine [("ImageTag", "v=2"); ("Env", "prod")]) =
  inr (list_to_map [("ImageTag", "v=2"); ("Env", "prod")]).
Proof.
  apply parseKvs_renderLine.
  - repeat constructor; try discriminate; vm_compute; reflexivity.
  - cbn [map fst]. repeat constructor; intros H;
      repeat (inversion H as [|? ? ? H']; clear H; rename H' into H).
Defined.
